(** * The stereo flanger of SoX (src/flanger.c)

    A shallow embedding of [sox_flanger_start] and [sox_flanger_flow] and of
    the private state they work on, followed by the properties of the
    delay line, the low frequency oscillator and the streaming loop.

    Numbers.  [sox_size_t] is an unsigned 32-bit integer and is a [Z] whose
    wrap-around is written out with [wrap32]; [sox_ssample_t] is a signed
    32-bit sample.  The C [double] is kept abstract behind the class
    [DoubleOps], so that the embedding of the code is written once and read
    at two instances:
    - [binary64_ops], the IEEE 754 doubles of the kernel: the arithmetic
      of the program;
    - [exact_ops], the rationals [Q]: arithmetic without rounding error, an
      idealisation.
    A double is a rounded number, and where the rounding decides a result
    the two instances differ.  What depends on the value of a rounded result
    is therefore stated for every instance of the class, and so for
    binary64.  The rationals serve for what rounding does not change: that
    the code returns, the bookkeeping of integers, bounds that are doubles
    themselves and are kept by monotone rounding, and results that are
    exact on doubles.

    Faults.  Three things the C standard leaves undefined are made explicit
    as a [Fault]: an integer division by zero, an array access out of its
    bounds, and the conversion of a double whose integral part does not fit
    the integer type. *)

From Stdlib Require Import ZArith QArith Qabs Floats String Lia Lqa.
From stdpp Require Import base option list.

Local Open Scope Z_scope.

(** ** Results of code that may fault *)

Inductive fault := DivisionByZero | OutOfBounds | ConversionOutOfRange.

Inductive outcome (A : Type) :=
  | Done (a : A)
  | Fault (e : fault).
Arguments Done {A} a.
Arguments Fault {A} e.

#[global] Instance outcome_ret : MRet outcome := fun A a => Done a.
#[global] Instance outcome_bind : MBind outcome := fun A B k m =>
  match m with Done a => k a | Fault e => Fault e end.
#[global] Instance outcome_fmap : FMap outcome := fun A B g m =>
  match m with Done a => Done (g a) | Fault e => Fault e end.

Definition is_done {A} (m : outcome A) : bool :=
  match m with Done _ => true | Fault _ => false end.

(** ** Integer types and constants of sox.h

    sox.h is not among the sources.  [sox_size_t] is taken as the unsigned
    32-bit integer it is printed as with [%u], [size_t] as 64 bits wide, a
    sample as a signed 32-bit integer, and the two statuses as 0 and -1. *)

Definition wrap32 (z : Z) : Z := z mod 2 ^ 32.

Definition SOX_SAMPLE_MAX : Z := 2 ^ 31 - 1.
Definition SOX_SAMPLE_MIN : Z := - 2 ^ 31.
Definition SOX_SUCCESS : Z := 0.
Definition SOX_EOF : Z := -1.
Definition MAX_CHANNELS : Z := 4.

(** [a % b] on unsigned operands. *)
Definition umod (a b : Z) : outcome Z :=
  if decide (b = 0) then Fault DivisionByZero else Done (a mod b).

(** [a / b] on unsigned operands. *)
Definition udiv (a b : Z) : outcome Z :=
  if decide (b = 0) then Fault DivisionByZero else Done (a / b).

(** [a[i]] as an rvalue. *)
Definition index {A} (a : list A) (i : Z) : outcome A :=
  if decide (0 ≤ i) then
    match a !! Z.to_nat i with Some x => Done x | None => Fault OutOfBounds end
  else Fault OutOfBounds.

(** [a[i] = x]. *)
Definition store {A} (a : list A) (i : Z) (x : A) : outcome (list A) :=
  if decide (0 ≤ i < Z.of_nat (length a))
  then Done (<[Z.to_nat i := x]> a) else Fault OutOfBounds.

(** [*ibuf++] as an rvalue. *)
Definition next {A} (buf : list A) : outcome (A * list A) :=
  match buf with x :: rest => Done (x, rest) | [] => Fault OutOfBounds end.

(** ** The arithmetic of [double] *)

Class DoubleOps (D : Type) := {
  d_of_Z : Z → D;              (* conversion of an integer *)
  d_add : D → D → D;
  d_sub : D → D → D;
  d_mul : D → D → D;
  d_div : D → D → D;
  d_fabs : D → D;
  d_ltb : D → D → bool;
  d_leb : D → D → bool;
  d_trunc : D → option Z;      (* integral part, towards zero; None if not finite *)
  d_modf : D → D * D           (* (fractional part, integral part) *)
}.

Inductive sox_wave_t := SOX_WAVE_SINE | SOX_WAVE_TRIANGLE.
Inductive interp_t := INTERP_LINEAR | INTERP_QUADRATIC.

(** ** The private state, [struct flanger] *)

Record flanger (D : Type) := {
  (* Parameters *)
  delay_min : D;
  delay_depth : D;
  feedback_gain : D;
  delay_gain : D;
  speed : D;
  wave_shape : sox_wave_t;
  channel_phase : D;
  interpolation : interp_t;
  (* Delay buffers: MAX_CHANNELS pointers, [] while not allocated *)
  delay_bufs : list (list D);
  delay_buf_length : Z;
  delay_buf_pos : Z;
  delay_last : list D;
  (* Low Frequency Oscillator: a table of float, widened on every read *)
  lfo : list D;
  lfo_length : Z;
  lfo_pos : Z;
  (* Balancing *)
  in_gain : D
}.
Arguments delay_min {D} _.
Arguments delay_depth {D} _.
Arguments feedback_gain {D} _.
Arguments delay_gain {D} _.
Arguments speed {D} _.
Arguments wave_shape {D} _.
Arguments channel_phase {D} _.
Arguments interpolation {D} _.
Arguments delay_bufs {D} _.
Arguments delay_buf_length {D} _.
Arguments delay_buf_pos {D} _.
Arguments delay_last {D} _.
Arguments lfo {D} _.
Arguments lfo_length {D} _.
Arguments lfo_pos {D} _.
Arguments in_gain {D} _.

(** The part of [sox_effect_t] the effect reads and writes. *)
Record sox_effect (D : Type) := {
  ininfo_rate : Z;
  ininfo_channels : Z;
  clips : Z;
  priv : flanger D
}.
Arguments ininfo_rate {D} _.
Arguments ininfo_channels {D} _.
Arguments clips {D} _.
Arguments priv {D} _.

Section Setters.
Context {D : Type}.

Definition set_feedback_gain (x : D) (f : flanger D) : flanger D :=
  {| delay_min := delay_min f; delay_depth := delay_depth f;
     feedback_gain := x; delay_gain := delay_gain f; speed := speed f;
     wave_shape := wave_shape f; channel_phase := channel_phase f;
     interpolation := interpolation f; delay_bufs := delay_bufs f;
     delay_buf_length := delay_buf_length f;
     delay_buf_pos := delay_buf_pos f; delay_last := delay_last f;
     lfo := lfo f; lfo_length := lfo_length f; lfo_pos := lfo_pos f;
     in_gain := in_gain f |}.

Definition set_delay_gain (x : D) (f : flanger D) : flanger D :=
  {| delay_min := delay_min f; delay_depth := delay_depth f;
     feedback_gain := feedback_gain f; delay_gain := x; speed := speed f;
     wave_shape := wave_shape f; channel_phase := channel_phase f;
     interpolation := interpolation f; delay_bufs := delay_bufs f;
     delay_buf_length := delay_buf_length f;
     delay_buf_pos := delay_buf_pos f; delay_last := delay_last f;
     lfo := lfo f; lfo_length := lfo_length f; lfo_pos := lfo_pos f;
     in_gain := in_gain f |}.

Definition set_channel_phase (x : D) (f : flanger D) : flanger D :=
  {| delay_min := delay_min f; delay_depth := delay_depth f;
     feedback_gain := feedback_gain f; delay_gain := delay_gain f;
     speed := speed f; wave_shape := wave_shape f; channel_phase := x;
     interpolation := interpolation f; delay_bufs := delay_bufs f;
     delay_buf_length := delay_buf_length f;
     delay_buf_pos := delay_buf_pos f; delay_last := delay_last f;
     lfo := lfo f; lfo_length := lfo_length f; lfo_pos := lfo_pos f;
     in_gain := in_gain f |}.

Definition set_in_gain (x : D) (f : flanger D) : flanger D :=
  {| delay_min := delay_min f; delay_depth := delay_depth f;
     feedback_gain := feedback_gain f; delay_gain := delay_gain f;
     speed := speed f; wave_shape := wave_shape f;
     channel_phase := channel_phase f;
     interpolation := interpolation f; delay_bufs := delay_bufs f;
     delay_buf_length := delay_buf_length f;
     delay_buf_pos := delay_buf_pos f; delay_last := delay_last f;
     lfo := lfo f; lfo_length := lfo_length f; lfo_pos := lfo_pos f;
     in_gain := x |}.

Definition set_delay_bufs (x : list (list D)) (f : flanger D) : flanger D :=
  {| delay_min := delay_min f; delay_depth := delay_depth f;
     feedback_gain := feedback_gain f; delay_gain := delay_gain f;
     speed := speed f; wave_shape := wave_shape f;
     channel_phase := channel_phase f;
     interpolation := interpolation f; delay_bufs := x;
     delay_buf_length := delay_buf_length f;
     delay_buf_pos := delay_buf_pos f; delay_last := delay_last f;
     lfo := lfo f; lfo_length := lfo_length f; lfo_pos := lfo_pos f;
     in_gain := in_gain f |}.

Definition set_delay_buf_length (x : Z) (f : flanger D) : flanger D :=
  {| delay_min := delay_min f; delay_depth := delay_depth f;
     feedback_gain := feedback_gain f; delay_gain := delay_gain f;
     speed := speed f; wave_shape := wave_shape f;
     channel_phase := channel_phase f;
     interpolation := interpolation f; delay_bufs := delay_bufs f;
     delay_buf_length := x;
     delay_buf_pos := delay_buf_pos f; delay_last := delay_last f;
     lfo := lfo f; lfo_length := lfo_length f; lfo_pos := lfo_pos f;
     in_gain := in_gain f |}.

Definition set_delay_buf_pos (x : Z) (f : flanger D) : flanger D :=
  {| delay_min := delay_min f; delay_depth := delay_depth f;
     feedback_gain := feedback_gain f; delay_gain := delay_gain f;
     speed := speed f; wave_shape := wave_shape f;
     channel_phase := channel_phase f;
     interpolation := interpolation f; delay_bufs := delay_bufs f;
     delay_buf_length := delay_buf_length f;
     delay_buf_pos := x; delay_last := delay_last f;
     lfo := lfo f; lfo_length := lfo_length f; lfo_pos := lfo_pos f;
     in_gain := in_gain f |}.

Definition set_delay_last (x : list D) (f : flanger D) : flanger D :=
  {| delay_min := delay_min f; delay_depth := delay_depth f;
     feedback_gain := feedback_gain f; delay_gain := delay_gain f;
     speed := speed f; wave_shape := wave_shape f;
     channel_phase := channel_phase f;
     interpolation := interpolation f; delay_bufs := delay_bufs f;
     delay_buf_length := delay_buf_length f;
     delay_buf_pos := delay_buf_pos f; delay_last := x;
     lfo := lfo f; lfo_length := lfo_length f; lfo_pos := lfo_pos f;
     in_gain := in_gain f |}.

Definition set_lfo (x : list D) (f : flanger D) : flanger D :=
  {| delay_min := delay_min f; delay_depth := delay_depth f;
     feedback_gain := feedback_gain f; delay_gain := delay_gain f;
     speed := speed f; wave_shape := wave_shape f;
     channel_phase := channel_phase f;
     interpolation := interpolation f; delay_bufs := delay_bufs f;
     delay_buf_length := delay_buf_length f;
     delay_buf_pos := delay_buf_pos f; delay_last := delay_last f;
     lfo := x; lfo_length := lfo_length f; lfo_pos := lfo_pos f;
     in_gain := in_gain f |}.

Definition set_lfo_length (x : Z) (f : flanger D) : flanger D :=
  {| delay_min := delay_min f; delay_depth := delay_depth f;
     feedback_gain := feedback_gain f; delay_gain := delay_gain f;
     speed := speed f; wave_shape := wave_shape f;
     channel_phase := channel_phase f;
     interpolation := interpolation f; delay_bufs := delay_bufs f;
     delay_buf_length := delay_buf_length f;
     delay_buf_pos := delay_buf_pos f; delay_last := delay_last f;
     lfo := lfo f; lfo_length := x; lfo_pos := lfo_pos f;
     in_gain := in_gain f |}.

Definition set_lfo_pos (x : Z) (f : flanger D) : flanger D :=
  {| delay_min := delay_min f; delay_depth := delay_depth f;
     feedback_gain := feedback_gain f; delay_gain := delay_gain f;
     speed := speed f; wave_shape := wave_shape f;
     channel_phase := channel_phase f;
     interpolation := interpolation f; delay_bufs := delay_bufs f;
     delay_buf_length := delay_buf_length f;
     delay_buf_pos := delay_buf_pos f; delay_last := delay_last f;
     lfo := lfo f; lfo_length := lfo_length f; lfo_pos := x;
     in_gain := in_gain f |}.

Definition set_priv (f : flanger D) (e : sox_effect D) : sox_effect D :=
  {| ininfo_rate := ininfo_rate e; ininfo_channels := ininfo_channels e;
     clips := clips e; priv := f |}.

Definition set_clips (n : Z) (e : sox_effect D) : sox_effect D :=
  {| ininfo_rate := ininfo_rate e; ininfo_channels := ininfo_channels e;
     clips := n; priv := priv e |}.
End Setters.

(** ** The effect *)

Section Flanger.
Context {D : Type} `{!DoubleOps D}.

(** [sox_generate_wave_table] fills the LFO table; flanger.c only calls it.
    It is a parameter here: [sox_generate_wave_table shape size lo hi t] is
    the value written to entry [t] of a table of [size] entries for the
    range [lo .. hi], at the initial phase [3 * M_PI_2] of the one call. *)
Variable sox_generate_wave_table : sox_wave_t → Z → D → D → Z → D.

Definition half : D := d_div (d_of_Z 1) (d_of_Z 2).

(** Conversion of a double to an unsigned integer of [bits] bits: the
    fraction is dropped, and the value must then fit the type. *)
Definition to_unsigned (bits : Z) (x : D) : outcome Z :=
  match d_trunc x with
  | Some z => if decide (0 ≤ z < 2 ^ bits) then Done z
              else Fault ConversionOutOfRange
  | None => Fault ConversionOutOfRange
  end.

Definition to_sox_size : D → outcome Z := to_unsigned 32.
Definition to_size_t : D → outcome Z := to_unsigned 64.

(** Conversion of a double to [sox_ssample_t]. *)
Definition to_sox_ssample (x : D) : outcome Z :=
  match d_trunc x with
  | Some z => if decide (SOX_SAMPLE_MIN ≤ z ≤ SOX_SAMPLE_MAX) then Done z
              else Fault ConversionOutOfRange
  | None => Fault ConversionOutOfRange
  end.

(** Modelled from the spec: the macro [SOX_ROUND_CLIP_COUNT] of sox.h, which
    is not among the sources.  The spec has it clip and round a double to the
    output sample representation and count a clip on saturation: a value
    beyond half a step outside the sample range saturates and is counted,
    any other is rounded to the nearest sample.  The result is the sample
    and the new value of the counter. *)
Definition SOX_ROUND_CLIP_COUNT (d : D) (clips : Z) : outcome (Z * Z) :=
  if d_ltb d (d_of_Z 0) then
    if d_leb d (d_sub (d_of_Z SOX_SAMPLE_MIN) half)
    then Done (SOX_SAMPLE_MIN, wrap32 (clips + 1))
    else (λ z, (z, clips)) <$> to_sox_ssample (d_sub d half)
  else
    if d_leb (d_add (d_of_Z SOX_SAMPLE_MAX) half) d
    then Done (SOX_SAMPLE_MAX, wrap32 (clips + 1))
    else (λ z, (z, clips)) <$> to_sox_ssample (d_add d half).

(** *** Configuration *)

(** The eight positional arguments, once converted. *)
Record flanger_args := {
  arg_delay : D;
  arg_depth : D;
  arg_regen : D;
  arg_width : D;
  arg_speed : D;
  arg_shape : sox_wave_t;
  arg_phase : D;
  arg_interp : interp_t
}.

Definition between (lo x hi : D) : bool := d_leb lo x && d_leb x hi.

(** The ranges of the NUMERIC_PARAMETER lines. *)
Definition args_in_range (a : flanger_args) : bool :=
  between (d_of_Z 0) (arg_delay a) (d_of_Z 10)
  && between (d_of_Z 0) (arg_depth a) (d_of_Z 10)
  && between (d_of_Z (-95)) (arg_regen a) (d_of_Z 95)
  && between (d_of_Z 0) (arg_width a) (d_of_Z 100)
  && between (d_div (d_of_Z 1) (d_of_Z 10)) (arg_speed a) (d_of_Z 10)
  && between (d_of_Z 0) (arg_phase a) (d_of_Z 100).

(** Arguments with the default shape and interpolation. *)
Definition sine_linear_args (delay depth regen width speed phase : D)
  : flanger_args :=
  {| arg_delay := delay; arg_depth := depth; arg_regen := regen;
     arg_width := width; arg_speed := speed; arg_shape := SOX_WAVE_SINE;
     arg_phase := phase; arg_interp := INTERP_LINEAR |}.

(** The defaults: the non-zero ones of [sox_flanger_getopts], zero for the
    others. *)
Definition default_args : flanger_args :=
  sine_linear_args (d_of_Z 0) (d_of_Z 2) (d_of_Z 0) (d_of_Z 71) half
                   (d_of_Z 25).

(** The private state once the eight values are stored: its other fields
    are still zero. *)
Definition flanger_of_args (a : flanger_args) : flanger D :=
  {| delay_min := arg_delay a; delay_depth := arg_depth a;
     feedback_gain := arg_regen a; delay_gain := arg_width a;
     speed := arg_speed a; wave_shape := arg_shape a;
     channel_phase := arg_phase a; interpolation := arg_interp a;
     delay_bufs := replicate (Z.to_nat MAX_CHANNELS) [];
     delay_buf_length := 0; delay_buf_pos := 0;
     delay_last := replicate (Z.to_nat MAX_CHANNELS) (d_of_Z 0);
     lfo := []; lfo_length := 0; lfo_pos := 0;
     in_gain := d_of_Z 0 |}.

(** Modelled from the spec: NUMERIC_PARAMETER and TEXTUAL_PARAMETER are
    macros of sox_i.h, which is not among the sources.  The arguments
    arrive converted; a numeric one outside its range fails the
    configuration, otherwise the eight values are stored in the private
    state. *)
Definition sox_flanger_getopts (a : flanger_args) : option (flanger D) :=
  if args_in_range a then Some (flanger_of_args a) else None.

(** *** Start *)

(** [for (c = 0; c < channels; ++c) f->delay_bufs[c] = xcalloc(...)] *)
Definition alloc_delay_bufs (channels len : Z) (bufs : list (list D))
  : list (list D) :=
  foldl (λ b c, <[c := replicate (Z.to_nat len) (d_of_Z 0)]> b)
        bufs (seq 0 (Z.to_nat channels)).

(** The table [xcalloc]ed and then filled by the generator. *)
Definition wave_table (shape : sox_wave_t) (size : Z) (lo hi : D) : list D :=
  map (λ t, sox_generate_wave_table shape size lo hi (Z.of_nat t))
      (seq 0 (Z.to_nat size)).

(** The result is the status, the message given to [sox_fail] when there is
    one, and the effect. *)
Definition sox_flanger_start (e : sox_effect D)
  : outcome (Z * option string * sox_effect D) :=
  let f := priv e in
  let channels := ininfo_channels e in
  let rate := d_of_Z (ininfo_rate e) in
  if decide (channels > MAX_CHANNELS) then
    Done (SOX_EOF, Some "Can not operate with more than 4 channels"%string, e)
  else
    (* Scale percentages to unity: *)
    let f := set_feedback_gain (d_div (feedback_gain f) (d_of_Z 100)) f in
    let f := set_delay_gain (d_div (delay_gain f) (d_of_Z 100)) f in
    let f := set_channel_phase (d_div (channel_phase f) (d_of_Z 100)) f in
    (* Balance output: *)
    let f := set_in_gain (d_div (d_of_Z 1) (d_add (d_of_Z 1) (delay_gain f))) f in
    let f := set_delay_gain
               (d_div (delay_gain f) (d_add (d_of_Z 1) (delay_gain f))) f in
    (* Balance feedback loop: *)
    let f := set_delay_gain
               (d_mul (delay_gain f)
                      (d_sub (d_of_Z 1) (d_fabs (feedback_gain f)))) f in
    (* Create the delay buffers, one for each channel: *)
    n ← to_sox_size
          (d_add (d_mul (d_div (d_add (delay_min f) (delay_depth f))
                               (d_of_Z 1000)) rate) half);
    let f := set_delay_buf_length n f in
    let f := set_delay_buf_length (wrap32 (delay_buf_length f + 1)) f in
    let f := set_delay_buf_length (wrap32 (delay_buf_length f + 1)) f in
    let f := set_delay_bufs
               (alloc_delay_bufs channels (delay_buf_length f) (delay_bufs f))
               f in
    (* Create the LFO lookup table: *)
    l ← to_sox_size (d_div rate (speed f));
    let f := set_lfo_length l f in
    lo ← to_sox_size
           (d_add (d_mul (d_div (delay_min f) (d_of_Z 1000)) rate) half);
    let f := set_lfo
               (wave_table (wave_shape f) (lfo_length f) (d_of_Z lo)
                           (d_of_Z (wrap32 (delay_buf_length f - 2)))) f in
    Done (SOX_SUCCESS, None, set_priv f e).

(** *** Flow *)

(** [c * f->lfo_length * f->channel_phase + .5], as a [sox_size_t]. *)
Definition lfo_channel_phase (f : flanger D) (c : Z) : outcome Z :=
  to_sox_size
    (d_add (d_mul (d_of_Z (wrap32 (c * lfo_length f))) (channel_phase f))
           half).

(** [(f->lfo_pos + channel_phase) % f->lfo_length], the index at which
    channel [c] reads the LFO table. *)
Definition lfo_index (f : flanger D) (c : Z) : outcome Z :=
  channel_phase ← lfo_channel_phase f c;
  umod (wrap32 (lfo_pos f + channel_phase)) (lfo_length f).

(** What the loops carry: the effect, the input not yet read and the output
    written so far. *)
Record flow_state := {
  fs_effp : sox_effect D;
  fs_ibuf : list Z;
  fs_obuf : list Z
}.

(** The body of the loop over the channels. *)
Definition flow_channel (c : Z) (s : flow_state) : outcome flow_state :=
  let e := fs_effp s in
  let f := priv e in
  i ← lfo_index f c;
  delay ← index (lfo f) i;
  let '(frac_delay, delay) := d_modf delay in
  int_delay ← wrap32 <$> to_size_t delay;
  '(in_, ibuf) ← next (fs_ibuf s);
  let in_ := d_of_Z in_ in
  last ← index (delay_last f) c;
  buf ← index (delay_bufs f) c;
  buf ← store buf (delay_buf_pos f) (d_add in_ (d_mul last (feedback_gain f)));
  i0 ← umod (wrap32 (delay_buf_pos f + int_delay)) (delay_buf_length f);
  delayed_0 ← index buf i0;
  let int_delay := wrap32 (int_delay + 1) in
  i1 ← umod (wrap32 (delay_buf_pos f + int_delay)) (delay_buf_length f);
  delayed_1 ← index buf i1;
  let int_delay := wrap32 (int_delay + 1) in
  delayed ←
    match interpolation f with
    | INTERP_LINEAR =>
        Done (d_add delayed_0 (d_mul (d_sub delayed_1 delayed_0) frac_delay))
    | INTERP_QUADRATIC =>
        i2 ← umod (wrap32 (delay_buf_pos f + int_delay)) (delay_buf_length f);
        delayed_2 ← index buf i2;
        let delayed_2 := d_sub delayed_2 delayed_0 in
        let delayed_1 := d_sub delayed_1 delayed_0 in
        let a := d_sub (d_mul delayed_2 half) delayed_1 in
        let b := d_sub (d_mul delayed_1 (d_of_Z 2)) (d_mul delayed_2 half) in
        Done (d_add delayed_0
                    (d_mul (d_add (d_mul a frac_delay) b) frac_delay))
    end;
  bufs ← store (delay_bufs f) c buf;
  lasts ← store (delay_last f) c delayed;
  let out := d_add (d_mul in_ (in_gain f)) (d_mul delayed (delay_gain f)) in
  '(o, n) ← SOX_ROUND_CLIP_COUNT out (clips e);
  Done {| fs_effp := set_clips n
                       (set_priv (set_delay_last lasts (set_delay_bufs bufs f))
                                 e);
          fs_ibuf := ibuf;
          fs_obuf := fs_obuf s ++ [o] |}.

(** [for (c = ...; c < channels; ++c)] with [n] iterations left. *)
Fixpoint flow_channels (n : nat) (c : Z) (s : flow_state)
  : outcome flow_state :=
  match n with
  | O => Done s
  | S n' => s' ← flow_channel c s; flow_channels n' (c + 1) s'
  end.

(** The body of [while (len--)]: one frame. *)
Definition flow_frame (s : flow_state) : outcome flow_state :=
  let e := fs_effp s in
  let f := priv e in
  pos ← umod (wrap32 (delay_buf_pos f + delay_buf_length f - 1))
             (delay_buf_length f);
  let s := {| fs_effp := set_priv (set_delay_buf_pos pos f) e;
              fs_ibuf := fs_ibuf s; fs_obuf := fs_obuf s |} in
  s ← flow_channels (Z.to_nat (ininfo_channels e)) 0 s;
  let e := fs_effp s in
  let f := priv e in
  pos ← umod (wrap32 (lfo_pos f + 1)) (lfo_length f);
  Done {| fs_effp := set_priv (set_lfo_pos pos f) e;
          fs_ibuf := fs_ibuf s; fs_obuf := fs_obuf s |}.

Fixpoint flow_frames (len : nat) (s : flow_state) : outcome flow_state :=
  match len with
  | O => Done s
  | S len' => s' ← flow_frame s; flow_frames len' s'
  end.

(** What a call of the flow function leaves: the status, the effect, the
    samples written to [obuf], and the new [*isamp] and [*osamp]. *)
Record flow_result := {
  fr_status : Z;
  fr_effp : sox_effect D;
  fr_obuf : list Z;
  fr_isamp : Z;
  fr_osamp : Z
}.

Definition sox_flanger_flow (e : sox_effect D) (ibuf : list Z)
    (isamp osamp : Z) : outcome flow_result :=
  let channels := ininfo_channels e in
  len ← udiv (if decide (isamp > osamp) then osamp else isamp)
             (wrap32 channels);
  let n := wrap32 (len * wrap32 channels) in
  s ← flow_frames (Z.to_nat len)
                  {| fs_effp := e; fs_ibuf := ibuf; fs_obuf := [] |};
  Done {| fr_status := SOX_SUCCESS; fr_effp := fs_effp s;
          fr_obuf := fs_obuf s; fr_isamp := n; fr_osamp := n |}.

End Flanger.

Arguments flanger_args : clear implicits.
Arguments flow_state : clear implicits.
Arguments flow_result : clear implicits.

(** ** Exact arithmetic: [double] read as a rational

    An idealisation of the doubles: no result is rounded, and there is no
    infinity and no NaN.  Equality of two values is [Qeq], written [==].  A
    division by zero gives 0 here, where the machine gives an infinity or a
    NaN; no divisor is zero when the arguments are in their ranges. *)

Module Exact.

(** The integral part, towards zero. *)
Definition trunc (x : Q) : Z := Z.quot (Qnum x) (Z.pos (Qden x)).

Definition ltb (x y : Q) : bool := negb (Qle_bool y x).

#[global] Instance exact_ops : DoubleOps Q := {|
  d_of_Z := inject_Z;
  d_add := Qplus;
  d_sub := Qminus;
  d_mul := Qmult;
  d_div := Qdiv;
  d_fabs := Qabs;
  d_ltb := ltb;
  d_leb := Qle_bool;
  d_trunc := λ x, Some (trunc x);
  d_modf := λ x, (x - inject_Z (trunc x), inject_Z (trunc x))%Q
|}.

End Exact.

(** ** IEEE 754 binary64: [double] as the machine has it *)

Module Binary64.

(** Conversion of an integer, rounded to the nearest double. *)
Definition of_Z (z : Z) : float :=
  SF2Prim (SpecFloat.binary_normalize prec emax z 0 false).

(** The integral part of a finite double, towards zero. *)
Definition trunc (x : float) : option Z :=
  match Prim2SF x with
  | S754_zero _ => Some 0
  | S754_finite s m e =>
      let v := if decide (0 ≤ e) then Z.pos m * 2 ^ e
               else Z.pos m / 2 ^ (- e) in
      Some (if s then - v else v)
  | S754_infinity _ | S754_nan => None
  end.

Definition sign_bit (x : float) : bool :=
  match Prim2SF x with
  | S754_zero s | S754_infinity s | S754_finite s _ _ => s
  | S754_nan => false
  end.

(** [modf]: both parts carry the sign of the argument. *)
Definition modf (x : float) : float * float :=
  let signed (y : float) : float :=
    if sign_bit x then PrimFloat.opp (PrimFloat.abs y)
    else PrimFloat.abs y in
  match trunc x with
  | Some z => (signed (PrimFloat.sub x (of_Z z)), signed (of_Z z))
  | None => if PrimFloat.is_nan x then (x, x)
            else (signed PrimFloat.zero, x)
  end.

#[global] Instance binary64_ops : DoubleOps float := {|
  d_of_Z := of_Z;
  d_add := PrimFloat.add;
  d_sub := PrimFloat.sub;
  d_mul := PrimFloat.mul;
  d_div := PrimFloat.div;
  d_fabs := PrimFloat.abs;
  d_ltb := PrimFloat.ltb;
  d_leb := PrimFloat.leb;
  d_trunc := trunc;
  d_modf := modf
|}.

End Binary64.

(** ** Configured effects and streams *)

Section Host.
Context {D : Type} `{!DoubleOps D}.

(** An effect around a private state, for a signal of the given rate and
    channel count, with the clip counter at zero. *)
Definition effect_of (f : flanger D) (rate channels : Z) : sox_effect D :=
  {| ininfo_rate := rate; ininfo_channels := channels; clips := 0;
     priv := f |}.

(** The effect the host hands to [sox_flanger_start]: the private state as
    [sox_flanger_getopts] left it. *)
Definition configured (a : flanger_args D) (rate channels : Z)
  : option (sox_effect D) :=
  f ← sox_flanger_getopts a; Some (effect_of f rate channels).

(** The effect as start leaves it. *)
Definition started (gen : sox_wave_t → Z → D → D → Z → D) (e : sox_effect D)
  : sox_effect D :=
  match sox_flanger_start gen e with
  | Done (_, _, e') => e'
  | Fault _ => e
  end.

(** The host streams block after block through the flow function, each
    block offered whole and with as much room for the output. *)
Fixpoint flow_blocks (e : sox_effect D) (blocks : list (list Z))
  : outcome (sox_effect D * list (list Z)) :=
  match blocks with
  | [] => Done (e, [])
  | b :: bs =>
      r ← sox_flanger_flow e b (Z.of_nat (length b)) (Z.of_nat (length b));
      '(e', outs) ← flow_blocks (fr_effp r) bs;
      Done (e', fr_obuf r :: outs)
  end.

(** The fields set at configuration time and by start. *)
Definition same_configuration (f g : flanger D) : Prop :=
  delay_min f = delay_min g ∧ delay_depth f = delay_depth g
  ∧ feedback_gain f = feedback_gain g ∧ delay_gain f = delay_gain g
  ∧ in_gain f = in_gain g ∧ speed f = speed g
  ∧ wave_shape f = wave_shape g ∧ channel_phase f = channel_phase g
  ∧ interpolation f = interpolation g
  ∧ delay_buf_length f = delay_buf_length g ∧ lfo_length f = lfo_length g.

(** Everything a call of the flow function has no business changing: the
    signal, the configuration, the LFO table, and the sizes of the delay
    buffers and of the array of last delayed values. *)
Definition untouched (e e' : sox_effect D) : Prop :=
  ininfo_rate e = ininfo_rate e' ∧ ininfo_channels e = ininfo_channels e'
  ∧ same_configuration (priv e) (priv e')
  ∧ lfo (priv e) = lfo (priv e')
  ∧ length <$> delay_bufs (priv e) = length <$> delay_bufs (priv e')
  ∧ length (delay_last (priv e)) = length (delay_last (priv e')).

(** The layout of a started effect: from one to four channels; a delay
    buffer per channel, of the recorded length; an LFO table of the recorded
    length, whose values are delays that fit the buffers; a channel phase
    between 0 and 1. *)
Definition layout_ready (e : sox_effect D) : bool :=
  let f := priv e in
  bool_decide (1 ≤ ininfo_channels e ≤ MAX_CHANNELS)
  && bool_decide (0 < delay_buf_length f < 2 ^ 32)
  && bool_decide (length (delay_bufs f) = Z.to_nat MAX_CHANNELS)
  && bool_decide (take (Z.to_nat (ininfo_channels e))
                       (length <$> delay_bufs f)
                  = replicate (Z.to_nat (ininfo_channels e))
                              (Z.to_nat (delay_buf_length f)))
  && bool_decide (length (delay_last f) = Z.to_nat MAX_CHANNELS)
  && bool_decide (0 < lfo_length f < 2 ^ 32)
  && bool_decide (Z.of_nat (length (lfo f)) = lfo_length f)
  && forallb (λ v, between (d_of_Z 0) v (d_of_Z (delay_buf_length f - 2)))
             (lfo f)
  && between (d_of_Z 0) (channel_phase f) (d_of_Z 1).

(** Both cursors are inside their arrays. *)
Definition cursors_ready (e : sox_effect D) : bool :=
  let f := priv e in
  bool_decide (0 ≤ delay_buf_pos f < delay_buf_length f)
  && bool_decide (0 ≤ lfo_pos f < lfo_length f).

(** The state of a started effect. *)
Definition flanger_ready (e : sox_effect D) : bool :=
  layout_ready e && cursors_ready e.

(** Between two states of the loops, [n] samples went from the input to the
    output, and nothing changed that has no business changing. *)
Definition transfers (n : nat) (s s' : flow_state D) : Prop :=
  untouched (fs_effp s) (fs_effp s')
  ∧ ∃ ins outs, fs_ibuf s = ins ++ fs_ibuf s'
                ∧ fs_obuf s' = fs_obuf s ++ outs
                ∧ length ins = n ∧ length outs = n.

(** Between two states of the loops, [n] samples went from the input to the
    output as they were, and no clip was counted. *)
Definition passes (n : nat) (s s' : flow_state D) : Prop :=
  clips (fs_effp s') = clips (fs_effp s)
  ∧ ∃ ins, fs_ibuf s = ins ++ fs_ibuf s'
           ∧ fs_obuf s' = fs_obuf s ++ ins ∧ length ins = n.

(** What the caller of the flow function owes: the two counts are
    [sox_size_t] values, and [ibuf] holds [isamp] samples. *)
Definition call_ready (ibuf : list Z) (isamp osamp : Z) : bool :=
  bool_decide (0 ≤ isamp < 2 ^ 32) && bool_decide (0 ≤ osamp < 2 ^ 32)
  && bool_decide (isamp ≤ Z.of_nat (length ibuf)).

(** The samples of a block are [sox_ssample_t] values. *)
Definition samples (b : list Z) : bool :=
  forallb (λ x, bool_decide (SOX_SAMPLE_MIN ≤ x ≤ SOX_SAMPLE_MAX)) b.

(** A block the host may offer: samples, fewer than [2 ^ 32] of them. *)
Definition block_ready (b : list Z) : bool :=
  samples b && bool_decide (Z.of_nat (length b) < 2 ^ 32).

(** The whole frames at the head of a block of interleaved samples. *)
Definition whole_frames (channels : Z) (b : list Z) : list Z :=
  take (Z.to_nat (Z.of_nat (length b) / channels * channels)) b.

End Host.

(** ** Examples *)

(** A wave table generator: the flat sweep that stays at the lower end of
    its range. *)
Definition flat_wave {D} (shape : sox_wave_t) (size : Z) (lo hi : D) (t : Z)
  : D := lo.

(** The effect configured with the default shape and interpolation. *)
Definition example_effect {D} `{!DoubleOps D}
    (delay depth regen width speed phase : D) (rate channels : Z)
  : sox_effect D :=
  effect_of
    (flanger_of_args (sine_linear_args delay depth regen width speed phase))
    rate channels.

(** A started effect written by hand: two channels, delay buffers of four
    entries, and a table of eight entries that sweeps the delay from 0 to 2
    and back in steps of a half. *)
Definition sweep_example {D} `{!DoubleOps D} (interp : interp_t)
  : sox_effect D :=
  let zero := d_of_Z 0 in
  let one := d_of_Z 1 in
  let two := d_of_Z 2 in
  effect_of
    {| delay_min := zero; delay_depth := d_of_Z 250;
       feedback_gain := half; delay_gain := d_div one (d_of_Z 4);
       speed := one; wave_shape := SOX_WAVE_TRIANGLE;
       channel_phase := d_div one (d_of_Z 4); interpolation := interp;
       delay_bufs := [replicate 4 zero; replicate 4 zero; []; []];
       delay_buf_length := 4; delay_buf_pos := 0;
       delay_last := replicate 4 zero;
       lfo := [zero; half; one; d_add one half; two; d_add one half; one;
               half];
       lfo_length := 8; lfo_pos := 0;
       in_gain := half |}
    8 2.

(** ** Rounding, as the specification words it *)

(** [z] is an integer nearest to [q]. *)
Definition nearest_integer (q : Q) (z : Z) : Prop :=
  (Qabs (q - inject_Z z) <= 1 # 2)%Q.

(** [z] is [q] rounded to the nearest integer, a tie going up. *)
Definition rounded (q : Q) (z : Z) : Prop :=
  (inject_Z z - (1 # 2) <= q < inject_Z z + (1 # 2))%Q.

(** [z] is [q] without its fraction, for [q] not negative. *)
Definition floored (q : Q) (z : Z) : Prop :=
  (inject_Z z <= q < inject_Z z + 1)%Q.

(** ** Stop *)

Section Stop.
Context {D : Type} `{!DoubleOps D}.

(** The private state after the [memset] that zeroes it: every number is
    zero, every pointer is null and both enumerations are at their first
    value: INTERP_LINEAR for the interpolation, and for the shape, whose type
    sox.h declares, the sine, which getopts leaves at zero as the default
    that the usage text names. *)
Definition flanger_zero : flanger D :=
  {| delay_min := d_of_Z 0; delay_depth := d_of_Z 0;
     feedback_gain := d_of_Z 0; delay_gain := d_of_Z 0;
     speed := d_of_Z 0; wave_shape := SOX_WAVE_SINE;
     channel_phase := d_of_Z 0; interpolation := INTERP_LINEAR;
     delay_bufs := replicate (Z.to_nat MAX_CHANNELS) [];
     delay_buf_length := 0; delay_buf_pos := 0;
     delay_last := replicate (Z.to_nat MAX_CHANNELS) (d_of_Z 0);
     lfo := []; lfo_length := 0; lfo_pos := 0;
     in_gain := d_of_Z 0 |}.

(** [for (c = ...; c < channels; ++c) free (f->delay_bufs[c])], with [n]
    iterations left: each one reads a pointer of the array. *)
Fixpoint free_delay_bufs (n : nat) (c : Z) (bufs : list (list D))
  : outcome unit :=
  match n with
  | O => Done ()
  | S n' => _ ← index bufs c; free_delay_bufs n' (c + 1) bufs
  end.

Definition sox_flanger_stop (e : sox_effect D) : outcome (Z * sox_effect D) :=
  let f := priv e in
  let channels := ininfo_channels e in
  _ ← free_delay_bufs (Z.to_nat channels) 0 (delay_bufs f);
  Done (SOX_SUCCESS, set_priv flanger_zero e).

End Stop.

(** ** Streams of any samples *)


(** ** A stream handed over in two blocks *)

Section Blocks.
Context {D : Type} `{!DoubleOps D}.

(** A state of the loops with more samples behind those still to read. *)
Definition more_input (extra : list Z) (s : flow_state D) : flow_state D :=
  {| fs_effp := fs_effp s; fs_ibuf := fs_ibuf s ++ extra;
     fs_obuf := fs_obuf s |}.

(** A state of the loops with samples written before those it wrote. *)
Definition earlier_output (pre : list Z) (s : flow_state D) : flow_state D :=
  {| fs_effp := fs_effp s; fs_ibuf := fs_ibuf s;
     fs_obuf := pre ++ fs_obuf s |}.

(** Two calls of the flow function, the first on the block [b1] and the
    second on the block [b2] with the effect as the first left it, each with
    as much room for output as there is input; read as one result: the
    outputs joined and the counts added. *)
Definition flow_twice (e : sox_effect D) (b1 b2 : list Z)
  : outcome (flow_result D) :=
  let n1 := Z.of_nat (length b1) in
  let n2 := Z.of_nat (length b2) in
  r1 ← sox_flanger_flow e b1 n1 n1;
  r2 ← sox_flanger_flow (fr_effp r1) b2 n2 n2;
  Done {| fr_status := fr_status r2; fr_effp := fr_effp r2;
          fr_obuf := fr_obuf r1 ++ fr_obuf r2;
          fr_isamp := fr_isamp r1 + fr_isamp r2;
          fr_osamp := fr_osamp r1 + fr_osamp r2 |}.

End Blocks.

(** ** The clip counter *)


(** ** What a channel reads and holds *)

Section Taps.
Context {D : Type} `{!DoubleOps D}.

(** The taps behind the write cursor between which a channel interpolates,
    for a delay of [k] whole entries. *)
Definition taps_read (f : flanger D) (buf : list D) (k : Z) (d0 d1 : D)
  : Prop :=
  let tap j := wrap32 (delay_buf_pos f + j) mod delay_buf_length f in
  index buf (tap (wrap32 k)) = Done d0
  ∧ index buf (tap (wrap32 (wrap32 k + 1))) = Done d1.

End Taps.

(** The delay buffers and the last delayed values hold nothing but zeros:
    the state in which start leaves them. *)
Definition silent (e : sox_effect Q) : bool :=
  forallb (forallb (Qeq_bool 0)) (delay_bufs (priv e))
  && forallb (Qeq_bool 0) (delay_last (priv e)).

(** ** A fixed delay: the comb filter *)

(** Every entry of the LFO table is the whole delay [d]: the flanger does not
    sweep. *)
Definition fixed_delay (e : sox_effect Q) (d : Z) : bool :=
  forallb (λ v, Qeq_bool v (inject_Z d)) (lfo (priv e)).

(** The sample at index [i] of a stream as a double, with silence before the
    stream. *)
Definition sample_at (ibuf : list Z) (i : Z) : Q :=
  if decide (0 ≤ i) then inject_Z (default 0 (ibuf !! Z.to_nat i))
  else inject_Z 0.

(** The sample that [SOX_ROUND_CLIP_COUNT] makes of a value. *)
Definition round_clip (q : Q) : Z :=
  match SOX_ROUND_CLIP_COUNT q 0 with
  | Done (o, _) => o
  | Fault _ => 0
  end.

(** Sample [i] of the output of a comb filter on the interleaved stream
    [ibuf]: the input sample times the input gain, plus the sample of the
    same channel [d] frames earlier times the delay gain, clipped and
    rounded. *)
Definition comb (e : sox_effect Q) (d : Z) (ibuf : list Z) (i : nat) : Z :=
  let f := priv e in
  round_clip
    (sample_at ibuf (Z.of_nat i) * in_gain f
     + sample_at ibuf (Z.of_nat i - d * ininfo_channels e) * delay_gain f)%Q.

(** From the slot [q] on, round the buffer, [buf] holds [h 0], [h 1], ... *)
Definition window (buf : list Q) (q : Z) (h : Z → Q) : Prop :=
  let len := Z.of_nat (length buf) in
  ∀ j, 0 ≤ j < len →
    ∃ v, buf !! Z.to_nat ((q + j) mod len) = Some v ∧ (v == h j)%Q.

(** The samples of channel [c] from frame [t] back. *)
Definition history (ibuf : list Z) (channels t c : Z) (j : Z) : Q :=
  sample_at ibuf ((t - j) * channels + c).

(** The state of the loops in frame [t] of a call on the effect [e0] and the
    stream [ibuf0], when the channels below [c] are done: the samples before
    are read and their outputs written, and the delay buffers hold the past
    of their channels from the write cursor on; the buffer of a channel yet to
    do still has the cursor as its oldest slot. *)
Definition comb_invariant (e0 : sox_effect Q) (d : Z) (ibuf0 : list Z)
    (t c : Z) (s : flow_state Q) : Prop :=
  let e := fs_effp s in
  let f := priv e in
  let channels := ininfo_channels e0 in
  let done := Z.to_nat (t * channels + c) in
  untouched e0 e
  ∧ fs_ibuf s = drop done ibuf0
  ∧ fs_obuf s = comb e0 d ibuf0 <$> seq 0 done
  ∧ 0 ≤ delay_buf_pos f < delay_buf_length f
  ∧ ∀ c', 0 ≤ c' < channels →
      ∃ buf, delay_bufs f !! Z.to_nat c' = Some buf
             ∧ Z.of_nat (length buf) = delay_buf_length f
             ∧ if decide (c' < c)
               then window buf (delay_buf_pos f)
                      (history ibuf0 channels t c')
               else window buf (delay_buf_pos f + 1)
                      (history ibuf0 channels (t - 1) c').

(** ** The delays of start, in samples *)

Section DelaySamples.
Context {D : Type} `{!DoubleOps D}.

(** [ms / 1000 * effp->ininfo.rate + .5], the double that start converts
    to a number of samples, for the delay plus the depth and for the delay
    alone. *)
Definition delay_samples (rate : Z) (ms : D) : D :=
  d_add (d_mul (d_div ms (d_of_Z 1000)) (d_of_Z rate)) half.

End DelaySamples.

(** The number that a finite binary64 double stands for. *)
Definition binary64_value (x : float) : option Q :=
  match Prim2SF x with
  | S754_zero _ => Some 0%Q
  | S754_finite s m e =>
      let v := (inject_Z (Z.pos m) * Qpower 2 e)%Q in
      Some (if s then (- v)%Q else v)
  | S754_infinity _ | S754_nan => None
  end.

(** Sample [i] of the mean of the interleaved stream [ibuf] and the same
    stream [d] frames later: half the input sample plus half the sample of
    the same channel [d] frames earlier, clipped and rounded. *)
Definition mean_with_past (channels d : Z) (ibuf : list Z) (i : nat) : Z :=
  round_clip
    ((sample_at ibuf (Z.of_nat i)
      + sample_at ibuf (Z.of_nat i - d * channels)) / 2)%Q.

(** * Properties *)

(** ** Faulting code, step by step *)

Lemma bind_done {A B} (m : outcome A) (k : A → outcome B) (r : B) :
  m ≫= k = Done r → ∃ a, m = Done a ∧ k a = Done r.
Proof. destruct m as [a | ]; [exists a; auto | discriminate]. Qed.

Lemma umod_done (a b : Z) : b ≠ 0 → umod a b = Done (a mod b).
Proof.
  intros Hb. unfold umod.
  destruct (decide (b = 0)); [contradiction | reflexivity].
Qed.

Lemma umod_inv (a b r : Z) : umod a b = Done r → b ≠ 0 ∧ r = a mod b.
Proof.
  unfold umod.
  destruct (decide (b = 0)); [discriminate | intros [= <-]; auto].
Qed.

Lemma index_done {A} (l : list A) (i : Z) :
  0 ≤ i < Z.of_nat (length l) →
  ∃ x, index l i = Done x ∧ l !! Z.to_nat i = Some x.
Proof.
  intros Hi. unfold index. destruct (decide (0 ≤ i)); [| lia].
  destruct (lookup_lt_is_Some_2 l (Z.to_nat i)) as [x Hx]; [lia |].
  rewrite Hx. exists x; auto.
Qed.

Lemma index_inv {A} (l : list A) (i : Z) (x : A) :
  index l i = Done x → 0 ≤ i ∧ l !! Z.to_nat i = Some x.
Proof.
  unfold index. destruct (decide (0 ≤ i)); [| discriminate].
  destruct (l !! Z.to_nat i); [intros [= <-]; auto | discriminate].
Qed.

Lemma store_done {A} (l : list A) (i : Z) (x : A) :
  0 ≤ i < Z.of_nat (length l) → store l i x = Done (<[Z.to_nat i := x]> l).
Proof. intros Hi. unfold store. destruct (decide _); [reflexivity | lia]. Qed.

Lemma store_inv {A} (l l' : list A) (i : Z) (x : A) :
  store l i x = Done l' →
  0 ≤ i < Z.of_nat (length l) ∧ l' = <[Z.to_nat i := x]> l.
Proof.
  unfold store. destruct (decide _); [intros [= <-]; auto | discriminate].
Qed.

(** Reading a field of an updated record. *)
Ltac fields :=
  unfold set_clips, set_priv, set_feedback_gain, set_delay_gain,
    set_channel_phase, set_in_gain, set_delay_bufs, set_delay_buf_length,
    set_delay_buf_pos, set_delay_last, set_lfo, set_lfo_length, set_lfo_pos
    in *;
  simpl in *.

Tactic Notation "step" hyp(H) "as" ident(a) ident(E) :=
  apply bind_done in H as (a & E & H).

(** ** The streaming loop, whatever the arithmetic *)

Section FlowFacts.
Context {D : Type} `{!DoubleOps D}.

Lemma same_configuration_refl (f : flanger D) : same_configuration f f.
Proof. unfold same_configuration. tauto. Qed.

Lemma same_configuration_trans (f g h : flanger D) :
  same_configuration f g → same_configuration g h → same_configuration f h.
Proof. unfold same_configuration. intuition congruence. Qed.

Lemma untouched_refl (e : sox_effect D) : untouched e e.
Proof. unfold untouched. repeat split; auto using same_configuration_refl. Qed.

Lemma untouched_trans (e1 e2 e3 : sox_effect D) :
  untouched e1 e2 → untouched e2 e3 → untouched e1 e3.
Proof.
  unfold untouched. intros (? & ? & ? & ? & ? & ?) (? & ? & ? & ? & ? & ?).
  split; [congruence |]. split; [congruence |].
  split; [eauto using same_configuration_trans |].
  repeat split; congruence.
Qed.

Lemma transfers_refl (s : flow_state D) : transfers 0 s s.
Proof.
  split; [apply untouched_refl |].
  exists [], []. rewrite app_nil_r. auto.
Qed.

Lemma transfers_trans (n m : nat) (s1 s2 s3 : flow_state D) :
  transfers n s1 s2 → transfers m s2 s3 → transfers (n + m) s1 s3.
Proof.
  intros [U1 (i1 & o1 & Hi1 & Ho1 & Li1 & Lo1)]
         [U2 (i2 & o2 & Hi2 & Ho2 & Li2 & Lo2)].
  split; [eauto using untouched_trans |].
  exists (i1 ++ i2), (o1 ++ o2).
  rewrite Hi1, Hi2, Ho2, Ho1, !length_app, !app_assoc. auto.
Qed.

(** One pass through the body of the channel loop reads one input sample,
    writes one output sample, replaces the delay buffer and the last delayed
    value of its channel, may count a clip, and touches nothing else. *)
Lemma flow_channel_inv (c : Z) (s s' : flow_state D) :
  flow_channel c s = Done s' →
  let e := fs_effp s in
  let f := priv e in
  ∃ x ibuf old new delayed o n,
    fs_ibuf s = x :: ibuf
    ∧ 0 ≤ c
    ∧ delay_bufs f !! Z.to_nat c = Some old
    ∧ length new = length old
    ∧ SOX_ROUND_CLIP_COUNT
        (d_add (d_mul (d_of_Z x) (in_gain f)) (d_mul delayed (delay_gain f)))
        (clips e) = Done (o, n)
    ∧ s' = {| fs_effp :=
                set_clips n
                  (set_priv
                     (set_delay_last (<[Z.to_nat c := delayed]> (delay_last f))
                        (set_delay_bufs (<[Z.to_nat c := new]> (delay_bufs f)) f))
                     e);
              fs_ibuf := ibuf;
              fs_obuf := fs_obuf s ++ [o] |}.
Proof.
  unfold flow_channel. intros H.
  step H as i Ei. step H as v Ev. destruct (d_modf v) as [frac_delay delay].
  step H as int_delay Eint. step H as xi Ex. destruct xi as [x ibuf].
  step H as last Elast. step H as old Eold. step H as new Enew.
  step H as i0 Ei0. step H as delayed_0 E0.
  step H as i1 Ei1. step H as delayed_1 E1.
  step H as delayed Edelayed. step H as bufs Ebufs. step H as lasts Elasts.
  step H as on Eon. destruct on as [o n]. injection H as <-.
  apply index_inv in Eold as [Hc Hold].
  apply store_inv in Enew as [_ ->].
  apply store_inv in Ebufs as [_ ->].
  apply store_inv in Elasts as [_ ->].
  exists x, ibuf, old,
    (<[Z.to_nat (delay_buf_pos (priv (fs_effp s))) :=
         d_add (d_of_Z x) (d_mul last (feedback_gain (priv (fs_effp s))))]>
       old),
    delayed, o, n.
  repeat split; auto.
  - destruct (fs_ibuf s); [discriminate | injection Ex as -> ->; reflexivity].
  - apply length_insert.
Qed.

Lemma flow_channel_transfers (c : Z) (s s' : flow_state D) :
  flow_channel c s = Done s' →
  transfers 1 s s'
  ∧ delay_buf_pos (priv (fs_effp s')) = delay_buf_pos (priv (fs_effp s))
  ∧ lfo_pos (priv (fs_effp s')) = lfo_pos (priv (fs_effp s)).
Proof.
  intros H. apply flow_channel_inv in H.
  destruct H as (x & ibuf & old & new & delayed & o & n
                 & Hi & Hc & Hold & Hlen & _ & ->).
  repeat split; fields; auto.
  - rewrite list_fmap_insert, Hlen. symmetry. apply list_insert_id.
    rewrite list_lookup_fmap, Hold. reflexivity.
  - rewrite length_insert. reflexivity.
  - exists [x], [o]. rewrite Hi. auto.
Qed.

Lemma flow_channels_transfers (n : nat) (c : Z) (s s' : flow_state D) :
  flow_channels n c s = Done s' →
  transfers n s s'
  ∧ delay_buf_pos (priv (fs_effp s')) = delay_buf_pos (priv (fs_effp s))
  ∧ lfo_pos (priv (fs_effp s')) = lfo_pos (priv (fs_effp s)).
Proof.
  revert c s. induction n as [| n IH]; intros c s H; simpl in H.
  - injection H as <-. auto using transfers_refl.
  - step H as s1 E. apply flow_channel_transfers in E as (T1 & P1 & L1).
    apply IH in H as (T2 & P2 & L2).
    split; [apply (transfers_trans 1 n s s1 s'); assumption |].
    split; congruence.
Qed.

(** A frame rotates the delay line by one slot, passes through the channels
    and advances the LFO by one entry. *)
Lemma flow_frame_transfers (s s' : flow_state D) :
  flow_frame s = Done s' →
  let f := priv (fs_effp s) in
  transfers (Z.to_nat (ininfo_channels (fs_effp s))) s s'
  ∧ delay_buf_length f ≠ 0 ∧ lfo_length f ≠ 0
  ∧ delay_buf_pos (priv (fs_effp s'))
    = wrap32 (delay_buf_pos f + delay_buf_length f - 1) mod delay_buf_length f
  ∧ lfo_pos (priv (fs_effp s')) = wrap32 (lfo_pos f + 1) mod lfo_length f.
Proof.
  unfold flow_frame. intros H.
  step H as pos Epos. step H as s1 Es1. step H as lpos Elpos.
  injection H as <-.
  apply umod_inv in Epos as [Hlen ->].
  apply flow_channels_transfers in Es1 as ([U T] & P & L). fields.
  apply umod_inv in Elpos as [HL ->].
  destruct U as (Hr & Hch & Hcfg & Hlfo & Hbufs & Hlast). fields.
  assert (HLeq : lfo_length (priv (fs_effp s1)) = lfo_length (priv (fs_effp s))).
  { destruct Hcfg as (_ & _ & _ & _ & _ & _ & _ & _ & _ & _ & HL'). auto. }
  unfold same_configuration in Hcfg. simpl in Hcfg.
  repeat split; simpl; auto; try tauto; congruence.
Qed.

Lemma flow_frames_transfers (len : nat) (s s' : flow_state D) :
  flow_frames len s = Done s' →
  transfers (len * Z.to_nat (ininfo_channels (fs_effp s))) s s'.
Proof.
  revert s. induction len as [| len IH]; intros s H; simpl in H.
  - injection H as <-. apply transfers_refl.
  - step H as s1 E. apply flow_frame_transfers in E as (T1 & _).
    apply IH in H as T2.
    assert (Hch : ininfo_channels (fs_effp s1) = ininfo_channels (fs_effp s)).
    { destruct T1 as [(_ & Hch & _) _]. auto. }
    rewrite Hch in T2. simpl.
    eapply transfers_trans; eassumption.
Qed.

(** After [len] frames the LFO cursor is [len] entries further round the
    table, and the delay cursor is still inside the buffers. *)
Lemma flow_frames_cursors (len : nat) (s s' : flow_state D) :
  flow_frames len s = Done s' →
  let f := priv (fs_effp s) in
  let f' := priv (fs_effp s') in
  0 ≤ lfo_pos f < lfo_length f → lfo_length f < 2 ^ 32 →
  0 ≤ delay_buf_pos f < delay_buf_length f →
  lfo_pos f' = (lfo_pos f + Z.of_nat len) mod lfo_length f
  ∧ 0 ≤ delay_buf_pos f' < delay_buf_length f.
Proof.
  revert s. induction len as [| len IH]; intros s H; simpl in H.
  - injection H as <-. simpl. intros HL _ Hpos.
    rewrite Z.add_0_r, Z.mod_small by lia. auto.
  - step H as s1 E. intros f f' HL H32 Hpos.
    apply flow_frame_transfers in E as ([U _] & Hlen & HL0 & Epos & Elfo).
    destruct U as (_ & _ & Hcfg & _).
    destruct Hcfg as (_ & _ & _ & _ & _ & _ & _ & _ & _ & Hlen1 & HL1).
    specialize (IH s1 H). simpl in IH.
    rewrite <- Hlen1, <- HL1, Epos, Elfo in IH.
    fold f in IH, Hlen, HL0.
    destruct IH as [IH1 IH2].
    + apply Z.mod_pos_bound. lia.
    + assumption.
    + apply Z.mod_pos_bound. lia.
    + split; [| exact IH2]. subst f'. rewrite IH1.
      unfold wrap32. rewrite (Z.mod_small (lfo_pos f + 1)) by lia.
      rewrite Zplus_mod_idemp_l. f_equal. lia.
Qed.

(** A call that returns has run the frame loop over the whole frames that
    fit both counts, and reports as many samples on either side. *)
Lemma sox_flanger_flow_inv (e : sox_effect D) (ibuf : list Z)
    (isamp osamp : Z) (r : flow_result D) :
  sox_flanger_flow e ibuf isamp osamp = Done r →
  let channels := wrap32 (ininfo_channels e) in
  let len := (if decide (isamp > osamp) then osamp else isamp) / channels in
  channels ≠ 0
  ∧ fr_status r = SOX_SUCCESS
  ∧ fr_isamp r = wrap32 (len * channels)
  ∧ fr_osamp r = wrap32 (len * channels)
  ∧ flow_frames (Z.to_nat len)
                {| fs_effp := e; fs_ibuf := ibuf; fs_obuf := [] |}
    = Done {| fs_effp := fr_effp r;
              fs_ibuf := drop (length (fr_obuf r)) ibuf;
              fs_obuf := fr_obuf r |}.
Proof.
  unfold sox_flanger_flow. intros H.
  step H as len Elen. step H as s' Es'. injection H as <-. simpl.
  unfold udiv in Elen. destruct (decide _) as [| Hch]; [discriminate |].
  injection Elen as <-.
  repeat split; auto.
  rewrite Es'. f_equal.
  apply flow_frames_transfers in Es' as [_ (ins & outs & Hi & Ho & Li & Lo)].
  simpl in *. subst outs.
  destruct s' as [e' ibuf' obuf']. simpl in *. f_equal.
  rewrite Hi, <- Lo in *. rewrite <- Li. rewrite drop_app_length. reflexivity.
Qed.

End FlowFacts.

(** ** Exact arithmetic: conversions and clipping *)

(** Reading the operations at the exact instance, with their constants. *)
Ltac exact_arith :=
  change (@half Q Exact.exact_ops) with (1 # 2)%Q in *;
  cbn [d_add d_sub d_mul d_div d_of_Z d_fabs d_leb d_ltb d_trunc d_modf
       Exact.exact_ops] in *;
  change (inject_Z SOX_SAMPLE_MIN) with (-2147483648)%Q in *;
  change (inject_Z SOX_SAMPLE_MAX) with 2147483647%Q in *;
  change (inject_Z 0) with 0%Q in *;
  change (inject_Z 1) with 1%Q in *.

Section ExactFacts.
Import Exact.
Local Open Scope Q_scope.

Lemma leb_le (x y : Q) : d_leb x y = true ↔ x <= y.
Proof. apply Qle_bool_iff. Qed.

Lemma ltb_lt (x y : Q) : d_ltb x y = true ↔ x < y.
Proof.
  simpl. unfold ltb. rewrite negb_true_iff, <- not_true_iff_false, Qle_bool_iff.
  split; [apply Qnot_le_lt | apply Qlt_not_le].
Qed.

Lemma between_spec (lo x hi : Q) : between lo x hi = true ↔ lo <= x <= hi.
Proof. unfold between. rewrite andb_true_iff, !leb_le. reflexivity. Qed.

(** Dropping the fraction of a value that is not negative rounds down. *)
Lemma trunc_floored (x : Q) : 0 <= x → floored x (trunc x).
Proof.
  destruct x as [n d]. unfold floored, trunc, Qle, Qlt. simpl. intros H.
  rewrite Z.quot_div_nonneg by lia.
  pose proof (Z.div_mod n (Z.pos d)) as E.
  pose proof (Z.mod_pos_bound n (Z.pos d)) as B. lia.
Qed.

(** Dropping the fraction of a value that is not positive rounds up. *)
Lemma trunc_ceiled (x : Q) :
  x <= 0 → inject_Z (trunc x) - 1 < x ∧ x <= inject_Z (trunc x).
Proof.
  destruct x as [n d]. unfold trunc, Qle, Qlt. simpl. intros H.
  replace n with (- - n)%Z by lia.
  rewrite Z.quot_opp_l by lia. rewrite Z.quot_div_nonneg by lia.
  pose proof (Z.div_mod (- n) (Z.pos d)) as E.
  pose proof (Z.mod_pos_bound (- n) (Z.pos d)) as B. lia.
Qed.

Lemma inject_lt_succ (a b : Z) : inject_Z a < inject_Z b + 1 → (a ≤ b)%Z.
Proof.
  intros H.
  assert (a < b + 1)%Z by (rewrite Zlt_Qlt, inject_Z_plus; exact H). lia.
Qed.

Lemma floored_bounds (x : Q) (z lo hi : Z) :
  floored x z → inject_Z lo <= x → x < inject_Z hi → (lo ≤ z < hi)%Z.
Proof.
  intros [H1 H2] Hlo Hhi. split.
  - apply inject_lt_succ. lra.
  - rewrite Zlt_Qlt. lra.
Qed.

Lemma floored_unique (x : Q) (z z' : Z) : floored x z → floored x z' → z = z'.
Proof.
  intros [H1 H2] [H3 H4].
  assert (z ≤ z')%Z by (apply inject_lt_succ; lra).
  assert (z' ≤ z)%Z by (apply inject_lt_succ; lra).
  lia.
Qed.

Lemma rounded_unique (x : Q) (z z' : Z) : rounded x z → rounded x z' → z = z'.
Proof.
  intros [H1 H2] [H3 H4].
  assert (z ≤ z')%Z by (apply inject_lt_succ; lra).
  assert (z' ≤ z)%Z by (apply inject_lt_succ; lra).
  lia.
Qed.

Lemma floored_mono (x y : Q) (z z' : Z) :
  floored x z → floored y z' → x <= y → (z ≤ z')%Z.
Proof.
  intros [H1 H2] [H3 H4] Hxy. apply inject_lt_succ. lra.
Qed.

(** A value that is not negative and below [2 ^ bits] converts to the
    unsigned type, to the integer below it. *)
Lemma to_unsigned_done (bits : Z) (x : Q) :
  0 <= x → x < inject_Z (2 ^ bits) →
  ∃ z, to_unsigned bits x = Done z ∧ floored x z ∧ (0 ≤ z < 2 ^ bits)%Z.
Proof.
  intros H0 Hb. pose proof (trunc_floored x H0) as F.
  pose proof (floored_bounds x (trunc x) 0 (2 ^ bits) F H0 Hb) as B.
  exists (trunc x). unfold to_unsigned. simpl.
  destruct (decide _); [auto | contradiction].
Qed.

(** Clipping and rounding never faults, and gives a sample. *)
Lemma round_clip_done (d : Q) (n : Z) :
  ∃ o n', SOX_ROUND_CLIP_COUNT d n = Done (o, n')
          ∧ (SOX_SAMPLE_MIN ≤ o ≤ SOX_SAMPLE_MAX)%Z.
Proof.
  unfold SOX_ROUND_CLIP_COUNT.
  destruct (d_ltb d (d_of_Z 0)) eqn:Hneg.
  - destruct (d_leb d _) eqn:Hlow.
    + eexists _, _. split; [reflexivity | vm_compute; split; discriminate].
    + apply ltb_lt in Hneg. apply not_true_iff_false in Hlow.
      rewrite leb_le in Hlow. apply Qnot_le_lt in Hlow. exact_arith.
      destruct (trunc_ceiled (d - (1 # 2))) as [T1 T2]; [lra |].
      assert (-2147483648 ≤ trunc (d - (1 # 2)))%Z.
      { apply inject_lt_succ.
        change (inject_Z (-2147483648)) with (-2147483648). lra. }
      assert (trunc (d - (1 # 2)) ≤ 0)%Z.
      { apply inject_lt_succ. change (inject_Z 0) with 0. lra. }
      unfold to_sox_ssample. exact_arith.
      destruct (decide _) as [Hin | Hout].
      * eexists _, _. split; [reflexivity | exact Hin].
      * exfalso. apply Hout. unfold SOX_SAMPLE_MIN, SOX_SAMPLE_MAX. lia.
  - destruct (d_leb _ d) eqn:Hhigh.
    + eexists _, _. split; [reflexivity | vm_compute; split; discriminate].
    + apply not_true_iff_false in Hneg. rewrite ltb_lt in Hneg.
      apply Qnot_lt_le in Hneg. apply not_true_iff_false in Hhigh.
      rewrite leb_le in Hhigh. apply Qnot_le_lt in Hhigh. exact_arith.
      pose proof (trunc_floored (d + (1 # 2))) as F.
      destruct (floored_bounds (d + (1 # 2)) (trunc (d + (1 # 2)))
                  0 2147483648) as [B1 B2];
        [apply F; lra | change (inject_Z 0) with 0; lra
        | change (inject_Z 2147483648) with 2147483648; lra |].
      unfold to_sox_ssample. exact_arith.
      destruct (decide _) as [Hin | Hout].
      * eexists _, _. split; [reflexivity | exact Hin].
      * exfalso. apply Hout. unfold SOX_SAMPLE_MIN, SOX_SAMPLE_MAX. lia.
Qed.

(** A value that is a sample already comes out as it is, and no clip is
    counted. *)
Lemma round_clip_sample (d : Q) (z n : Z) :
  d == inject_Z z → (SOX_SAMPLE_MIN ≤ z ≤ SOX_SAMPLE_MAX)%Z →
  SOX_ROUND_CLIP_COUNT d n = Done (z, n).
Proof.
  intros Hd Hz. unfold SOX_SAMPLE_MIN, SOX_SAMPLE_MAX in Hz.
  assert (Hlo : -2147483648 <= inject_Z z).
  { change (-2147483648) with (inject_Z (-2147483648)).
    rewrite <- Zle_Qle. lia. }
  assert (Hhi : inject_Z z <= 2147483647).
  { change 2147483647 with (inject_Z 2147483647). rewrite <- Zle_Qle. lia. }
  unfold SOX_ROUND_CLIP_COUNT.
  destruct (d_ltb d (d_of_Z 0)) eqn:Hneg.
  - apply ltb_lt in Hneg.
    destruct (d_leb d _) eqn:Hlow.
    + apply leb_le in Hlow. exact_arith. lra.
    + unfold to_sox_ssample. exact_arith.
      destruct (trunc_ceiled (d - (1 # 2))) as [T1 T2]; [lra |].
      assert (trunc (d - (1 # 2)) = z) as ->.
      { apply Z.le_antisymm; apply inject_lt_succ; lra. }
      destruct (decide _) as [Hin | Hout]; [reflexivity |].
      exfalso. apply Hout. unfold SOX_SAMPLE_MIN, SOX_SAMPLE_MAX. lia.
  - apply not_true_iff_false in Hneg. rewrite ltb_lt in Hneg.
    apply Qnot_lt_le in Hneg.
    destruct (d_leb _ d) eqn:Hhigh.
    + apply leb_le in Hhigh. exact_arith. lra.
    + unfold to_sox_ssample. exact_arith.
      assert (trunc (d + (1 # 2)) = z) as ->.
      { apply (floored_unique (d + (1 # 2))); [apply trunc_floored; lra |].
        unfold floored. split; lra. }
      destruct (decide _) as [Hin | Hout]; [reflexivity |].
      exfalso. apply Hout. unfold SOX_SAMPLE_MIN, SOX_SAMPLE_MAX. lia.
Qed.

End ExactFacts.

(** ** The streaming loop never faults on a started effect *)

Lemma done_bind {A B} (a : A) (k : A → outcome B) : Done a ≫= k = k a.
Proof. reflexivity. Qed.

Lemma done_fmap {A B} (g : A → B) (a : A) : g <$> Done a = Done (g a).
Proof. reflexivity. Qed.

Ltac run E := rewrite E, ?done_fmap, done_bind; cbv beta.

Section Layout.
Context {D : Type} `{!DoubleOps D}.

(** The layout only looks at what the flow function leaves alone. *)
Lemma layout_ready_untouched (e e' : sox_effect D) :
  untouched e e' → layout_ready e' = layout_ready e.
Proof.
  intros (_ & Hch & Hcfg & Hlfo & Hbufs & Hlast).
  destruct Hcfg as (_ & _ & _ & _ & _ & _ & _ & Hphase & _ & Hlen & HL).
  unfold layout_ready.
  rewrite <- Hch, <- Hlen, <- HL, <- Hlfo, <- Hbufs, <- Hlast, <- Hphase.
  replace (length (delay_bufs (priv e')))
    with (length (delay_bufs (priv e))); [reflexivity |].
  rewrite <- (length_fmap length (delay_bufs (priv e))), Hbufs.
  apply length_fmap.
Qed.

End Layout.

Section ExactFlow.
Import Exact.
Local Open Scope Q_scope.

(** The layout, spelt out. *)
Lemma layout_ready_spec (e : sox_effect Q) :
  layout_ready e = true →
  let f := priv e in
  (1 ≤ ininfo_channels e ≤ 4)%Z
  ∧ (0 < delay_buf_length f < 2 ^ 32)%Z
  ∧ length (delay_bufs f) = 4%nat
  ∧ (∀ c, (0 ≤ c < ininfo_channels e)%Z →
       ∃ b, delay_bufs f !! Z.to_nat c = Some b
            ∧ Z.of_nat (length b) = delay_buf_length f)
  ∧ length (delay_last f) = 4%nat
  ∧ (0 < lfo_length f < 2 ^ 32)%Z
  ∧ Z.of_nat (length (lfo f)) = lfo_length f
  ∧ (∀ v, v ∈ lfo f → 0 <= v <= inject_Z (delay_buf_length f - 2))
  ∧ 0 <= channel_phase f <= 1.
Proof.
  unfold layout_ready. rewrite !andb_true_iff, !bool_decide_eq_true.
  intros ((((((((Hch & Hlen) & Hbufs) & Htake) & Hlast) & HL) & Hlfo) & Hv)
          & Hphase).
  unfold MAX_CHANNELS in *. simpl.
  repeat split; try tauto; try lia.
  - intros c Hc.
    assert (Hlk : take (Z.to_nat (ininfo_channels e))
                    (length <$> delay_bufs (priv e)) !! Z.to_nat c
                  = Some (Z.to_nat (delay_buf_length (priv e)))).
    { rewrite Htake. apply lookup_replicate_2. lia. }
    rewrite lookup_take_lt in Hlk by lia.
    rewrite list_lookup_fmap in Hlk.
    destruct (delay_bufs (priv e) !! Z.to_nat c) as [b |]; [| discriminate].
    exists b. split; [reflexivity |]. injection Hlk as Hb. lia.
  - rewrite forallb_forall in Hv. apply list_elem_of_In in H.
    apply Hv in H. apply between_spec in H. apply H.
  - rewrite forallb_forall in Hv. apply list_elem_of_In in H.
    apply Hv in H. apply between_spec in H. apply H.
  - apply between_spec in Hphase. apply Hphase.
  - apply between_spec in Hphase. apply Hphase.
Qed.

(** The channel's offset into the LFO table is its share of the table
    length, rounded, and the index it reads at is inside the table. *)
Lemma lfo_index_done (f : flanger Q) (c : Z) :
  (0 < lfo_length f)%Z → 0 <= channel_phase f <= 1 →
  ∃ k, lfo_channel_phase f c = Done k
       ∧ rounded (inject_Z (wrap32 (c * lfo_length f)) * channel_phase f) k
       ∧ (0 ≤ k < 2 ^ 32)%Z
       ∧ lfo_index f c = Done (wrap32 (lfo_pos f + k) mod lfo_length f).
Proof.
  intros HL [Hp0 Hp1]. unfold lfo_index, lfo_channel_phase, to_sox_size.
  set (w := wrap32 (c * lfo_length f)).
  assert (Hw : (0 ≤ w < 2 ^ 32)%Z) by (apply Z.mod_pos_bound; lia).
  assert (Hw0 : 0 <= inject_Z w).
  { change 0 with (inject_Z 0). rewrite <- Zle_Qle. lia. }
  assert (Hw1 : inject_Z w <= 4294967295).
  { change 4294967295 with (inject_Z 4294967295). rewrite <- Zle_Qle. lia. }
  assert (Hm0 : 0 <= inject_Z w * channel_phase f)
    by (apply Qmult_le_0_compat; assumption).
  assert (Hm1 : inject_Z w * channel_phase f <= inject_Z w * 1).
  { rewrite !(Qmult_comm (inject_Z w)). apply Qmult_le_compat_r; assumption. }
  exact_arith.
  destruct (to_unsigned_done 32 (inject_Z w * channel_phase f + (1 # 2)))
    as (k & Ek & [F1 F2] & Hk);
    [lra | change (inject_Z (2 ^ 32)) with 4294967296; lra |].
  exists k. rewrite Ek, done_bind.
  repeat split; try lia; try (unfold rounded; lra).
  apply umod_done. lia.
Qed.

Lemma flow_channel_done (c : Z) (s : flow_state Q) :
  layout_ready (fs_effp s) = true →
  (0 ≤ delay_buf_pos (priv (fs_effp s)) < delay_buf_length (priv (fs_effp s)))%Z →
  (0 ≤ c < ininfo_channels (fs_effp s))%Z →
  fs_ibuf s ≠ [] →
  ∃ s', flow_channel c s = Done s'.
Proof.
  intros Hlay Hpos Hc Hin.
  destruct (layout_ready_spec _ Hlay)
    as (Hch & Hlen & Hbufs & Hbuf & Hlast & HL & Hlfo & Hv & Hphase).
  simpl in *. unfold flow_channel.
  destruct (lfo_index_done (priv (fs_effp s)) c) as (k & _ & _ & Hk & Ei);
    [lia | assumption |].
  run Ei.
  destruct (index_done (lfo (priv (fs_effp s)))
              (wrap32 (lfo_pos (priv (fs_effp s)) + k)
               mod lfo_length (priv (fs_effp s)))) as (v & Ev & Hlk).
  { rewrite Hlfo. apply Z.mod_pos_bound. lia. }
  run Ev. cbn [d_modf exact_ops].
  apply list_elem_of_lookup_2, Hv in Hlk.
  destruct (floored_bounds v (trunc v) 0
              (delay_buf_length (priv (fs_effp s)) - 1)) as [T0 T1].
  { apply trunc_floored, Hlk. }
  { apply Hlk. }
  { replace (delay_buf_length (priv (fs_effp s)) - 1)%Z
      with (delay_buf_length (priv (fs_effp s)) - 2 + 1)%Z by lia.
    rewrite inject_Z_plus. change (inject_Z 1) with 1. lra. }
  destruct (to_unsigned_done 64 (inject_Z (trunc v))) as (z & Ez & _ & Hz).
  { change 0 with (inject_Z 0). rewrite <- Zle_Qle. exact T0. }
  { rewrite <- Zlt_Qlt. lia. }
  unfold to_size_t. run Ez.
  destruct (fs_ibuf s) as [| x ibuf]; [contradiction |].
  cbn [next]. rewrite done_bind.
  destruct (index_done (delay_last (priv (fs_effp s))) c) as (last & El & _);
    [lia |].
  run El.
  destruct (Hbuf c Hc) as (old & Hold & Holdlen).
  destruct (index_done (delay_bufs (priv (fs_effp s))) c) as (old' & Eo & Ho');
    [lia |].
  rewrite Hold in Ho'. injection Ho' as <-.
  run Eo. rewrite store_done by lia. rewrite done_bind.
  set (buf := <[_ := _]> old).
  assert (Hbuflen : Z.of_nat (length buf) = delay_buf_length (priv (fs_effp s))).
  { unfold buf. rewrite length_insert. exact Holdlen. }
  assert (Htap : ∀ i, ∃ d, index buf (i mod delay_buf_length (priv (fs_effp s)))
                           = Done d).
  { intros i. destruct (index_done buf
                          (i mod delay_buf_length (priv (fs_effp s))))
      as (d & Ed & _); [rewrite Hbuflen; apply Z.mod_pos_bound; lia |].
    exists d. exact Ed. }
  rewrite !umod_done by lia. rewrite done_bind.
  destruct (Htap (wrap32 (delay_buf_pos (priv (fs_effp s)) + wrap32 z)))
    as (d0 & E0).
  run E0. rewrite done_bind.
  destruct (Htap (wrap32 (delay_buf_pos (priv (fs_effp s))
                          + wrap32 (wrap32 z + 1)))) as (d1 & E1).
  run E1.
  destruct (Htap (wrap32 (delay_buf_pos (priv (fs_effp s))
                          + wrap32 (wrap32 (wrap32 z + 1) + 1))))
    as (d2 & E2).
  destruct (interpolation (priv (fs_effp s)));
    [| rewrite done_bind; cbv beta; run E2 ];
    repeat first [ rewrite store_done by lia | rewrite done_bind; cbv beta ];
    match goal with
    | |- context [SOX_ROUND_CLIP_COUNT ?d ?n] =>
        destruct (round_clip_done d n) as (o & n' & Eo' & _)
    end;
    run Eo'; eexists; reflexivity.
Qed.

Lemma flow_channels_done (n : nat) (c : Z) (s : flow_state Q) :
  layout_ready (fs_effp s) = true →
  (0 ≤ delay_buf_pos (priv (fs_effp s)) < delay_buf_length (priv (fs_effp s)))%Z →
  (0 ≤ c)%Z → (c + Z.of_nat n ≤ ininfo_channels (fs_effp s))%Z →
  (n ≤ length (fs_ibuf s))%nat →
  ∃ s', flow_channels n c s = Done s'.
Proof.
  revert c s. induction n as [| n IH]; intros c s Hlay Hpos Hc Hn Hin.
  - exists s. reflexivity.
  - destruct (flow_channel_done c s) as (s1 & E1); auto; [lia | |].
    { destruct (fs_ibuf s); [simpl in Hin; lia | discriminate]. }
    simpl. run E1.
    pose proof (flow_channel_transfers c s s1 E1) as ([U T] & P & _).
    destruct T as (ins & outs & Hi & _ & Li & _).
    pose proof U as (_ & Hch & Hcfg & _).
    destruct Hcfg as (_ & _ & _ & _ & _ & _ & _ & _ & _ & Hlen & _).
    apply IH.
    + rewrite (layout_ready_untouched _ _ U). exact Hlay.
    + rewrite P, <- Hlen. exact Hpos.
    + lia.
    + rewrite <- Hch. lia.
    + rewrite Hi, length_app in Hin. lia.
Qed.

Lemma flow_frame_done (s : flow_state Q) :
  layout_ready (fs_effp s) = true →
  (ininfo_channels (fs_effp s) ≤ Z.of_nat (length (fs_ibuf s)))%Z →
  ∃ s', flow_frame s = Done s'.
Proof.
  intros Hlay Hin.
  destruct (layout_ready_spec _ Hlay) as (Hch & Hlen & _ & _ & _ & HL & _).
  simpl in *. unfold flow_frame.
  rewrite umod_done by lia. rewrite done_bind.
  match goal with
  | |- context [flow_channels ?n ?c ?s0] =>
      destruct (flow_channels_done n c s0) as (s1 & E1)
  end; simpl; auto; try lia.
  { apply Z.mod_pos_bound. lia. }
  run E1.
  apply flow_channels_transfers in E1 as ([U _] & _).
  destruct U as (_ & _ & Hcfg & _).
  destruct Hcfg as (_ & _ & _ & _ & _ & _ & _ & _ & _ & _ & HL1).
  simpl in HL1. rewrite umod_done by lia. rewrite done_bind.
  eexists; reflexivity.
Qed.

Lemma flow_frames_done (len : nat) (s : flow_state Q) :
  layout_ready (fs_effp s) = true →
  (Z.of_nat len * ininfo_channels (fs_effp s)
   ≤ Z.of_nat (length (fs_ibuf s)))%Z →
  ∃ s', flow_frames len s = Done s'.
Proof.
  revert s. induction len as [| len IH]; intros s Hlay Hin.
  - exists s. reflexivity.
  - pose proof (layout_ready_spec _ Hlay) as (Hch & _).
    destruct (flow_frame_done s) as (s1 & E1); auto; [nia |].
    simpl. run E1.
    apply flow_frame_transfers in E1 as ([U T] & _).
    destruct T as (ins & outs & Hi & _ & Li & _).
    pose proof U as (_ & Hch1 & _).
    apply IH.
    + rewrite (layout_ready_untouched _ _ U). exact Hlay.
    + rewrite Hi, length_app in Hin. rewrite <- Hch1. nia.
Qed.

(** The flow function returns on every started effect, whatever the counts
    and the samples. *)
Lemma sox_flanger_flow_done (e : sox_effect Q) (ibuf : list Z)
    (isamp osamp : Z) :
  layout_ready e = true → call_ready ibuf isamp osamp = true →
  ∃ r, sox_flanger_flow e ibuf isamp osamp = Done r.
Proof.
  intros Hlay Hcall.
  pose proof (layout_ready_spec _ Hlay) as (Hch & _).
  unfold call_ready in Hcall.
  rewrite !andb_true_iff, !bool_decide_eq_true in Hcall.
  destruct Hcall as [[Hi Ho] Hbuf].
  unfold sox_flanger_flow, udiv.
  set (m := if decide (isamp > osamp)%Z then osamp else isamp).
  assert (Hm : (0 ≤ m ≤ isamp)%Z) by (subst m; destruct (decide _); lia).
  clearbody m.
  assert (Hw : wrap32 (ininfo_channels e) = ininfo_channels e)
    by (apply Z.mod_small; lia).
  rewrite Hw. destruct (decide (ininfo_channels e = 0%Z)); [lia |].
  rewrite done_bind.
  match goal with
  | |- context [flow_frames ?n ?s0] =>
      destruct (flow_frames_done n s0) as (s1 & E1)
  end; simpl; auto.
  - rewrite Z2Nat.id by (apply Z.div_pos; lia).
    pose proof (Z.mul_div_le m (ininfo_channels e)). lia.
  - run E1. eexists; reflexivity.
Qed.

End ExactFlow.

(** ** Start, in exact arithmetic *)

Section ExactStart.
Import Exact.
Local Open Scope Q_scope.

Variable gen : sox_wave_t → Z → Q → Q → Z → Q.

(** The ranges of the arguments, spelt out. *)
Lemma args_in_range_spec (a : flanger_args Q) :
  args_in_range a = true →
  0 <= arg_delay a <= 10 ∧ 0 <= arg_depth a <= 10
  ∧ -95 <= arg_regen a <= 95 ∧ 0 <= arg_width a <= 100
  ∧ 1 # 10 <= arg_speed a <= 10 ∧ 0 <= arg_phase a <= 100.
Proof.
  unfold args_in_range. rewrite !andb_true_iff, !between_spec.
  intros (((((H1 & H2) & H3) & H4) & H5) & H6).
  repeat split; first [apply H1 | apply H2 | apply H3 | apply H4 | apply H5
                      | apply H6].
Qed.

Lemma scaled_bounds (x r : Q) (hi : Q) :
  0 <= x <= hi → 0 <= r → 0 <= x / 1000 * r ∧ x / 1000 * r <= hi * r * (1 # 1000).
Proof.
  intros [H0 H1] Hr.
  assert (E : x / 1000 * r == x * r * (1 # 1000)) by field.
  assert (0 <= x * r) by (apply Qmult_le_0_compat; assumption).
  assert (x * r <= hi * r) by (apply Qmult_le_compat_r; assumption).
  rewrite E. split; lra.
Qed.

Lemma start_done (a : flanger_args Q) (rate channels : Z) (e : sox_effect Q) :
  configured a rate channels = Some e →
  (0 ≤ rate < 2 ^ 32)%Z → (channels ≤ 4)%Z →
  inject_Z rate / arg_speed a < inject_Z (2 ^ 32) →
  ∃ n l lo,
    rounded ((arg_delay a + arg_depth a) / 1000 * inject_Z rate) n
    ∧ floored (inject_Z rate / arg_speed a) l
    ∧ rounded (arg_delay a / 1000 * inject_Z rate) lo
    ∧ (0 ≤ lo ≤ n)%Z ∧ (n + 2 < 2 ^ 32)%Z ∧ (0 ≤ l < 2 ^ 32)%Z
    ∧ sox_flanger_start gen e
      = Done (SOX_SUCCESS, None,
              {| ininfo_rate := rate; ininfo_channels := channels; clips := 0%Z;
                 priv :=
                   {| delay_min := arg_delay a; delay_depth := arg_depth a;
                      feedback_gain := arg_regen a / 100;
                      delay_gain :=
                        arg_width a / 100 / (1 + arg_width a / 100)
                        * (1 - Qabs (arg_regen a / 100));
                      speed := arg_speed a; wave_shape := arg_shape a;
                      channel_phase := arg_phase a / 100;
                      interpolation := arg_interp a;
                      delay_bufs :=
                        alloc_delay_bufs channels (n + 2)
                          (replicate (Z.to_nat MAX_CHANNELS) []);
                      delay_buf_length := (n + 2)%Z; delay_buf_pos := 0%Z;
                      delay_last := replicate (Z.to_nat MAX_CHANNELS) 0;
                      lfo := wave_table gen (arg_shape a) l
                                        (inject_Z lo) (inject_Z n);
                      lfo_length := l; lfo_pos := 0%Z;
                      in_gain := 1 / (1 + arg_width a / 100) |} |}).
Proof.
  intros Hcfg Hrate Hch Hspeed.
  unfold configured, sox_flanger_getopts, effect_of, flanger_of_args in Hcfg.
  destruct (args_in_range a) eqn:Hargs; [| discriminate].
  injection Hcfg as <-.
  apply args_in_range_spec in Hargs
    as ((D0 & D1) & (P0 & P1) & _ & _ & (S0 & S1) & _).
  assert (R0 : 0 <= inject_Z rate).
  { change 0 with (inject_Z 0). rewrite <- Zle_Qle. lia. }
  assert (R1 : inject_Z rate <= 4294967295).
  { change 4294967295 with (inject_Z 4294967295). rewrite <- Zle_Qle. lia. }
  destruct (scaled_bounds (arg_delay a + arg_depth a) (inject_Z rate) 20)
    as [X0 X1]; [lra | lra |].
  destruct (scaled_bounds (arg_delay a) (inject_Z rate) 10)
    as [Y0 Y1]; [lra | lra |].
  unfold sox_flanger_start. cbn [priv ininfo_channels ininfo_rate].
  destruct (decide (channels > MAX_CHANNELS)%Z) as [Hgt | _];
    [unfold MAX_CHANNELS in Hgt; lia |].
  cbn [set_clips set_priv set_feedback_gain set_delay_gain set_channel_phase
       set_in_gain set_delay_bufs set_delay_buf_length set_delay_buf_pos
       set_delay_last set_lfo set_lfo_length set_lfo_pos
       delay_min delay_depth feedback_gain delay_gain speed wave_shape
       channel_phase interpolation delay_bufs delay_buf_length delay_buf_pos
       delay_last lfo lfo_length lfo_pos in_gain
       priv ininfo_rate ininfo_channels clips].
  exact_arith. change (inject_Z 1000) with 1000. change (inject_Z 100) with 100.
  unfold to_sox_size.
  set (x := (arg_delay a + arg_depth a) / 1000 * inject_Z rate) in *.
  set (y := arg_delay a / 1000 * inject_Z rate) in *.
  assert (Hyx : y <= x).
  { destruct (scaled_bounds (arg_depth a) (inject_Z rate) 10) as [Z0 _];
      [lra | lra |].
    assert (E : x == y + arg_depth a / 1000 * inject_Z rate)
      by (unfold x, y; field).
    lra. }
  destruct (to_unsigned_done 32 (x + (1 # 2))) as (n & En & Fn & Hn);
    [lra | change (inject_Z (2 ^ 32)) with 4294967296; lra |].
  destruct (to_unsigned_done 32 (y + (1 # 2))) as (lo & Elo & Flo & Hlo);
    [lra | change (inject_Z (2 ^ 32)) with 4294967296; lra |].
  destruct (to_unsigned_done 32 (inject_Z rate / arg_speed a))
    as (l & El & Fl & Hl); [apply Qle_shift_div_l; lra | assumption |].
  assert (Hn2 : (n < 4294967294)%Z).
  { apply (floored_bounds (x + (1 # 2)) n 0 4294967294 Fn).
    - change (inject_Z 0) with 0. lra.
    - change (inject_Z 4294967294) with 4294967294. lra. }
  assert (Hlon : (lo ≤ n)%Z)
    by (apply (floored_mono (y + (1 # 2)) (x + (1 # 2))); auto; lra).
  exists n, l, lo.
  split; [destruct Fn; unfold rounded; lra |].
  split; [exact Fl |].
  split; [destruct Flo; unfold rounded; lra |].
  split; [lia |]. split; [lia |]. split; [lia |].
  rewrite En, done_bind, El, done_bind, Elo, done_bind.
  unfold wrap32. rewrite (Z.mod_small (n + 1)) by lia.
  rewrite (Z.mod_small (n + 1 + 1)) by lia.
  rewrite (Z.mod_small (n + 1 + 1 - 2)) by lia.
  replace (n + 1 + 1 - 2)%Z with n by lia.
  replace (n + 1 + 1)%Z with (n + 2)%Z by lia.
  reflexivity.
Qed.

(** The buffers start allocates: one per channel, of the given length. *)
Lemma alloc_delay_bufs_layout (channels len : Z) :
  (0 ≤ channels ≤ 4)%Z →
  let bufs := alloc_delay_bufs (D := Q) channels len
                (replicate (Z.to_nat MAX_CHANNELS) []) in
  length bufs = 4%nat
  ∧ take (Z.to_nat channels) (length <$> bufs)
    = replicate (Z.to_nat channels) (Z.to_nat len).
Proof.
  intros Hch.
  assert (Hc : channels = 0%Z ∨ channels = 1%Z ∨ channels = 2%Z
               ∨ channels = 3%Z ∨ channels = 4%Z) by lia.
  destruct Hc as [-> | [-> | [-> | [-> | ->]]]];
    unfold alloc_delay_bufs; simpl; rewrite ?length_replicate; auto.
Qed.

(** What start leaves is ready for the flow function, provided the table is
    not empty and the generator keeps to the range it is given. *)
Lemma started_ready (a : flanger_args Q) (rate channels n l lo : Z) :
  (∀ shape size lo hi t, lo <= hi → lo <= gen shape size lo hi t <= hi) →
  0 <= arg_phase a <= 100 →
  (1 ≤ channels ≤ 4)%Z → (0 ≤ lo ≤ n)%Z → (n + 2 < 2 ^ 32)%Z →
  (0 < l < 2 ^ 32)%Z →
  flanger_ready
    {| ininfo_rate := rate; ininfo_channels := channels; clips := 0%Z;
       priv :=
         {| delay_min := arg_delay a; delay_depth := arg_depth a;
            feedback_gain := arg_regen a / 100;
            delay_gain :=
              arg_width a / 100 / (1 + arg_width a / 100)
              * (1 - Qabs (arg_regen a / 100));
            speed := arg_speed a; wave_shape := arg_shape a;
            channel_phase := arg_phase a / 100;
            interpolation := arg_interp a;
            delay_bufs :=
              alloc_delay_bufs channels (n + 2)
                (replicate (Z.to_nat MAX_CHANNELS) []);
            delay_buf_length := (n + 2)%Z; delay_buf_pos := 0%Z;
            delay_last := replicate (Z.to_nat MAX_CHANNELS) 0;
            lfo := wave_table gen (arg_shape a) l (inject_Z lo) (inject_Z n);
            lfo_length := l; lfo_pos := 0%Z;
            in_gain := 1 / (1 + arg_width a / 100) |} |} = true.
Proof.
  intros Hgen [Hp0 Hp1] Hch Hlo Hn Hl.
  destruct (alloc_delay_bufs_layout channels (n + 2)) as [Hlen Htake]; [lia |].
  unfold flanger_ready, layout_ready, cursors_ready.
  cbn [priv ininfo_channels delay_bufs delay_buf_length delay_buf_pos
       delay_last lfo lfo_length lfo_pos channel_phase].
  rewrite !andb_true_iff, !bool_decide_eq_true.
  repeat split; try (unfold MAX_CHANNELS; lia); try assumption.
  - unfold wave_table. rewrite length_map, length_seq. lia.
  - apply forallb_forall. intros v Hv. unfold wave_table in Hv.
    apply in_map_iff in Hv as (t & <- & _).
    apply between_spec. exact_arith.
    replace (n + 2 - 2)%Z with n by lia.
    assert (L0 : 0 <= inject_Z lo).
    { change 0 with (inject_Z 0). rewrite <- Zle_Qle. lia. }
    assert (L1 : inject_Z lo <= inject_Z n) by (rewrite <- Zle_Qle; lia).
    destruct (Hgen (arg_shape a) l (inject_Z lo) (inject_Z n) (Z.of_nat t) L1).
    split; lra.
  - apply between_spec. exact_arith.
    split; [apply Qle_shift_div_l | apply Qle_shift_div_r]; lra.
Qed.

End ExactStart.

(** ** Passing the input through *)

Section ExactPassthrough.
Import Exact.
Local Open Scope Q_scope.

Lemma samples_cons (x : Z) (b : list Z) :
  samples (x :: b) = true →
  (SOX_SAMPLE_MIN ≤ x ≤ SOX_SAMPLE_MAX)%Z ∧ samples b = true.
Proof.
  unfold samples. simpl. rewrite andb_true_iff, bool_decide_eq_true. auto.
Qed.

Lemma samples_app (b1 b2 : list Z) :
  samples (b1 ++ b2) = true → samples b2 = true.
Proof.
  unfold samples. rewrite forallb_app, andb_true_iff. tauto.
Qed.

Lemma passes_refl (s : flow_state Q) : passes 0 s s.
Proof. split; [reflexivity |]. exists []. rewrite app_nil_r. auto. Qed.

Lemma passes_trans (n m : nat) (s1 s2 s3 : flow_state Q) :
  passes n s1 s2 → passes m s2 s3 → passes (n + m) s1 s3.
Proof.
  intros [C1 (i1 & Hi1 & Ho1 & L1)] [C2 (i2 & Hi2 & Ho2 & L2)].
  split; [congruence |]. exists (i1 ++ i2).
  rewrite Hi1, Hi2, Ho2, Ho1, length_app, !app_assoc. auto.
Qed.

(** With an input gain of one and a delay gain of zero, the channel body
    writes the sample it read. *)
Lemma flow_channel_passes (c : Z) (s s' : flow_state Q) :
  flow_channel c s = Done s' →
  in_gain (priv (fs_effp s)) == 1 → delay_gain (priv (fs_effp s)) == 0 →
  samples (fs_ibuf s) = true →
  passes 1 s s'.
Proof.
  intros H Hin Hdelay Hs. apply flow_channel_inv in H.
  destruct H as (x & ibuf & old & new & delayed & o & n
                 & Hi & _ & _ & _ & Hclip & ->).
  rewrite Hi in Hs. apply samples_cons in Hs as [Hx _].
  rewrite (round_clip_sample _ x (clips (fs_effp s))) in Hclip; auto.
  - injection Hclip as <- <-. split; [reflexivity |].
    exists [x]. rewrite Hi. auto.
  - exact_arith. rewrite Hin, Hdelay. ring.
Qed.

Lemma flow_channels_passes (n : nat) (c : Z) (s s' : flow_state Q) :
  flow_channels n c s = Done s' →
  in_gain (priv (fs_effp s)) == 1 → delay_gain (priv (fs_effp s)) == 0 →
  samples (fs_ibuf s) = true →
  passes n s s'.
Proof.
  revert c s. induction n as [| n IH]; intros c s H Hin Hdelay Hs; simpl in H.
  - injection H as <-. apply passes_refl.
  - step H as s1 E.
    pose proof (flow_channel_passes c s s1 E Hin Hdelay Hs) as P1.
    apply flow_channel_transfers in E as ([U _] & _).
    destruct U as (_ & _ & Hcfg & _).
    destruct Hcfg as (_ & _ & _ & Hdg & Hig & _).
    apply (passes_trans 1 n s s1 s'); [exact P1 |].
    apply (IH (c + 1)%Z); [exact H | congruence | congruence |].
    destruct P1 as [_ (ins & Hi & _)]. rewrite Hi in Hs.
    apply samples_app in Hs. exact Hs.
Qed.

Lemma flow_frame_passes (s s' : flow_state Q) :
  flow_frame s = Done s' →
  in_gain (priv (fs_effp s)) == 1 → delay_gain (priv (fs_effp s)) == 0 →
  samples (fs_ibuf s) = true →
  passes (Z.to_nat (ininfo_channels (fs_effp s))) s s'.
Proof.
  unfold flow_frame. intros H Hin Hdelay Hs.
  step H as pos Epos. step H as s1 Es1. step H as lpos Elpos.
  injection H as <-.
  apply flow_channels_passes in Es1; auto.
Qed.

Lemma flow_frames_passes (len : nat) (s s' : flow_state Q) :
  flow_frames len s = Done s' →
  in_gain (priv (fs_effp s)) == 1 → delay_gain (priv (fs_effp s)) == 0 →
  samples (fs_ibuf s) = true →
  passes (len * Z.to_nat (ininfo_channels (fs_effp s))) s s'.
Proof.
  revert s. induction len as [| len IH]; intros s H Hin Hdelay Hs; simpl in H.
  - injection H as <-. apply passes_refl.
  - step H as s1 E.
    pose proof (flow_frame_passes s s1 E Hin Hdelay Hs) as P1.
    apply flow_frame_transfers in E as ([U _] & _).
    destruct U as (_ & Hch & Hcfg & _).
    destruct Hcfg as (_ & _ & _ & Hdg & Hig & _).
    simpl. eapply passes_trans; [exact P1 |].
    rewrite Hch. apply IH; [exact H | congruence | congruence |].
    destruct P1 as [_ (ins & Hi & _)]. rewrite Hi in Hs.
    apply samples_app in Hs. exact Hs.
Qed.

(** A call on an effect with an input gain of one and a delay gain of zero
    writes the samples it consumed, and counts no clip. *)
Lemma sox_flanger_flow_passes (e : sox_effect Q) (ibuf : list Z)
    (isamp osamp : Z) (r : flow_result Q) :
  sox_flanger_flow e ibuf isamp osamp = Done r →
  in_gain (priv e) == 1 → delay_gain (priv e) == 0 →
  samples ibuf = true →
  fr_obuf r = take (length (fr_obuf r)) ibuf ∧ clips (fr_effp r) = clips e.
Proof.
  intros H Hin Hdelay Hs.
  apply sox_flanger_flow_inv in H as (_ & _ & _ & _ & H).
  apply flow_frames_passes in H as [Hc (ins & Hi & Ho & _)]; auto.
  simpl in *. split; [| exact Hc].
  rewrite Ho in *. simpl in *. rewrite Hi, take_app_length. reflexivity.
Qed.

End ExactPassthrough.

(** ** A call of the flow function on a started effect *)

Section ExactCall.
Import Exact.

Lemma flanger_ready_spec (e : sox_effect Q) :
  flanger_ready e = true →
  layout_ready e = true
  ∧ 0 ≤ delay_buf_pos (priv e) < delay_buf_length (priv e)
  ∧ 0 ≤ lfo_pos (priv e) < lfo_length (priv e).
Proof.
  unfold flanger_ready, cursors_ready.
  rewrite !andb_true_iff, !bool_decide_eq_true. tauto.
Qed.

(** Everything the call does that does not depend on the sample values. *)
Lemma sox_flanger_flow_ready (e : sox_effect Q) (ibuf : list Z)
    (isamp osamp : Z) :
  flanger_ready e = true → call_ready ibuf isamp osamp = true →
  let channels := ininfo_channels e in
  let frames := Z.min isamp osamp / channels in
  ∃ r, sox_flanger_flow e ibuf isamp osamp = Done r
       ∧ fr_status r = SOX_SUCCESS
       ∧ fr_isamp r = frames * channels
       ∧ fr_osamp r = frames * channels
       ∧ Z.of_nat (length (fr_obuf r)) = frames * channels
       ∧ lfo_pos (priv (fr_effp r))
         = (lfo_pos (priv e) + frames) mod lfo_length (priv e)
       ∧ untouched e (fr_effp r)
       ∧ flanger_ready (fr_effp r) = true.
Proof.
  intros Hready Hcall channels frames.
  destruct (flanger_ready_spec e Hready) as (Hlay & Hpos & Hlpos).
  destruct (sox_flanger_flow_done e ibuf isamp osamp Hlay Hcall) as (r & E).
  exists r. split; [exact E |].
  destruct (layout_ready_spec e Hlay) as (Hch & Hlen & _ & _ & _ & HL & _).
  simpl in Hlen, HL.
  unfold call_ready in Hcall.
  rewrite !andb_true_iff, !bool_decide_eq_true in Hcall.
  destruct Hcall as [[Hi Ho] _].
  apply sox_flanger_flow_inv in E as (_ & Hst & Ei & Eo & Hframes).
  assert (Hw : wrap32 (ininfo_channels e) = channels)
    by (apply Z.mod_small; unfold channels; lia).
  assert (Hm : (if decide (isamp > osamp) then osamp else isamp)
               = Z.min isamp osamp) by (destruct (decide _); lia).
  rewrite Hw, Hm in Ei, Eo, Hframes. fold frames in Ei, Eo, Hframes.
  assert (Hf : 0 ≤ frames) by (apply Z.div_pos; unfold channels; lia).
  assert (Hfc : frames * channels ≤ Z.min isamp osamp).
  { rewrite Z.mul_comm. apply Z.mul_div_le. unfold channels. lia. }
  assert (Hwf : wrap32 (frames * channels) = frames * channels).
  { apply Z.mod_small. unfold channels in *. nia. }
  rewrite Hwf in Ei, Eo.
  pose proof (flow_frames_transfers _ _ _ Hframes)
    as [U (ins & outs & _ & Houts & _ & Louts)].
  pose proof (flow_frames_cursors _ _ _ Hframes) as Hcur.
  simpl in U, Houts, Louts, Hcur.
  destruct Hcur as [Hlfo Hdpos]; [lia | lia | lia |].
  rewrite Z2Nat.id in Hlfo by exact Hf.
  split; [exact Hst |]. split; [exact Ei |]. split; [exact Eo |].
  split; [subst outs; rewrite Louts; unfold channels; nia |].
  split; [exact Hlfo |]. split; [exact U |].
  pose proof U as (_ & _ & Hcfg & _).
  destruct Hcfg as (_ & _ & _ & _ & _ & _ & _ & _ & _ & Hlen' & HL').
  unfold flanger_ready, cursors_ready.
  rewrite !andb_true_iff, !bool_decide_eq_true.
  split; [| split].
  - rewrite (layout_ready_untouched e); [exact Hlay | exact U].
  - rewrite <- Hlen'. exact Hdpos.
  - rewrite Hlfo, <- HL'. apply Z.mod_pos_bound. lia.
Qed.

End ExactCall.

(** ** Start, whatever the arithmetic *)

Section StartAny.
Context {D : Type} `{!DoubleOps D}.
Variable gen : sox_wave_t → Z → D → D → Z → D.

Lemma to_sox_size_inv (x : D) (n : Z) :
  to_sox_size x = Done n ↔ d_trunc x = Some n ∧ 0 ≤ n < 2 ^ 32.
Proof.
  unfold to_sox_size, to_unsigned. destruct (d_trunc x) as [z |].
  - destruct (decide (0 ≤ z < 2 ^ 32)) as [Hz | Hz]; split.
    + intros [= <-]. auto.
    + intros [[= <-] _]. reflexivity.
    + discriminate.
    + intros [[= <-] Hn]. contradiction.
  - split; [discriminate | intros [? _]; discriminate].
Qed.

(** Start returns as soon as its three conversions of a double to
    [sox_size_t] are defined, and stores what they give. *)
Lemma start_returns (a : flanger_args D) (rate channels : Z)
    (e : sox_effect D) (n l lo : Z) :
  configured a rate channels = Some e → channels ≤ MAX_CHANNELS →
  to_sox_size (delay_samples rate (d_add (arg_delay a) (arg_depth a)))
  = Done n →
  to_sox_size (d_div (d_of_Z rate) (arg_speed a)) = Done l →
  to_sox_size (delay_samples rate (arg_delay a)) = Done lo →
  ∃ e', sox_flanger_start gen e = Done (SOX_SUCCESS, None, e')
        ∧ delay_buf_length (priv e') = wrap32 (n + 2)
        ∧ lfo_length (priv e') = l
        ∧ lfo (priv e')
          = wave_table gen (arg_shape a) l (d_of_Z lo)
              (d_of_Z (wrap32 (wrap32 (n + 2) - 2)))
        ∧ ininfo_channels e' = channels.
Proof.
  intros Hcfg Hch Hn Hl Hlo.
  unfold configured, sox_flanger_getopts, effect_of, flanger_of_args in Hcfg.
  destruct (args_in_range a); [| discriminate].
  injection Hcfg as <-.
  assert (Hw : wrap32 (wrap32 (n + 1) + 1) = wrap32 (n + 2)).
  { unfold wrap32. rewrite Zplus_mod_idemp_l. f_equal. lia. }
  unfold delay_samples in Hn, Hlo.
  unfold sox_flanger_start. cbn [priv ininfo_channels ininfo_rate].
  destruct (decide (channels > MAX_CHANNELS)) as [? | _]; [lia |].
  cbn [set_clips set_priv set_feedback_gain set_delay_gain set_channel_phase
       set_in_gain set_delay_bufs set_delay_buf_length set_delay_buf_pos
       set_delay_last set_lfo set_lfo_length set_lfo_pos
       delay_min delay_depth feedback_gain delay_gain speed wave_shape
       channel_phase interpolation delay_bufs delay_buf_length delay_buf_pos
       delay_last lfo lfo_length lfo_pos in_gain
       priv ininfo_rate ininfo_channels clips].
  rewrite Hn, done_bind, Hl, done_bind, Hlo, done_bind, Hw.
  eexists. split; [reflexivity |].
  cbn [priv delay_buf_length lfo_length lfo ininfo_channels]. auto.
Qed.

End StartAny.

(** * The specification, statement by statement *)

Section Statements.
Import Exact.

(** ** Streaming is not total (C1) *)

(** C1: the flow function is meant to return SOX_SUCCESS on every validated
    configuration, and the code misses a case.  At a sample rate of 5 Hz
    with a sweep of 10 Hz every argument is in its range and start succeeds,
    but the LFO table gets rate / speed = 0 entries, and the first frame of
    the flow function takes a remainder modulo that length: a division by
    zero.  Evaluated with binary64 doubles, whatever the table generator. *)
Theorem flow_divides_by_empty_table (gen : sox_wave_t → Z → float → float → Z → float) :
  let a := sine_linear_args (d_of_Z 0) (d_of_Z 2) (d_of_Z 0) (d_of_Z 71)
                            (d_of_Z 10) (d_of_Z 25) in
  ∃ e e',
    configured a 5 1 = Some e
    ∧ sox_flanger_start gen e = Done (SOX_SUCCESS, None, e')
    ∧ lfo_length (priv e') = 0%Z
    ∧ sox_flanger_flow e' [0] 1 1 = Fault DivisionByZero.
Proof.
  intros a. eexists _, _.
  split; [vm_compute; reflexivity |].
  split; [vm_compute; reflexivity |].
  split; vm_compute; reflexivity.
Qed.

(** The same run in exact arithmetic. *)
Example exact_empty_table_fault (gen : sox_wave_t → Z → Q → Q → Z → Q) :
  sox_flanger_flow (started gen (example_effect 0 2 0 71 10 25 5 1)%Q) [0] 1 1
  = Fault DivisionByZero.
Proof. vm_compute. reflexivity. Qed.

(** Any rate below the speed does it: the table start builds is empty. *)
Lemma empty_table_below_speed (gen : sox_wave_t → Z → Q → Q → Z → Q)
    (a : flanger_args Q) (rate channels : Z) (e : sox_effect Q) :
  configured a rate channels = Some e →
  0 ≤ rate → channels ≤ 4 → (inject_Z rate < arg_speed a)%Q →
  ∃ e', sox_flanger_start gen e = Done (SOX_SUCCESS, None, e')
        ∧ lfo_length (priv e') = 0.
Proof.
  intros Hcfg Hrate Hch Hslow.
  pose proof Hcfg as Hargs. unfold configured, sox_flanger_getopts in Hargs.
  destruct (args_in_range a) eqn:Hr; [| discriminate]. clear Hargs.
  apply args_in_range_spec in Hr as (_ & _ & _ & _ & (S0 & S1) & _).
  assert (Hq : (inject_Z rate / arg_speed a < 1)%Q)
    by (apply Qlt_shift_div_r; lra).
  assert (R0 : (0 <= inject_Z rate)%Q).
  { change 0%Q with (inject_Z 0). rewrite <- Zle_Qle. exact Hrate. }
  assert (R1 : rate < 10)
    by (rewrite Zlt_Qlt; change (inject_Z 10) with 10%Q; lra).
  destruct (start_done gen a rate channels e Hcfg) as
    (n & l & lo & _ & Fl & _ & _ & _ & _ & E);
    [lia | exact Hch | change (inject_Z (2 ^ 32)) with 4294967296%Q; lra |].
  eexists. split; [exact E |]. simpl.
  assert (0 ≤ l < 1); [| lia].
  apply (floored_bounds _ l 0 1 Fl); [| exact Hq].
  change (inject_Z 0) with 0%Q. apply Qle_shift_div_l; lra.
Qed.

(** A call that asks for no frame returns even then. *)
Example no_frame_no_fault (gen : sox_wave_t → Z → float → float → Z → float) :
  is_done (sox_flanger_flow
             (started gen (example_effect (d_of_Z 0) (d_of_Z 2) (d_of_Z 0)
                             (d_of_Z 71) (d_of_Z 10) (d_of_Z 25) 5 1))
             [] 0 1) = true.
Proof. vm_compute. reflexivity. Qed.

(** ** The sizes start computes (C2, C3, C8) *)

(** C3, as the specification words it, does not hold of binary64 doubles:
    the length of the delay buffers is not always the delay plus the depth,
    in samples, rounded to the nearest integer, plus 2.  With a depth of
    0.7 ms, the double nearest to 0.7, at 5000 Hz, the buffers have 6
    entries; the delay in samples is a little less than 3.5, which rounds
    to 3 whichever way a tie goes. *)
Lemma delay_buf_length_not_rounded :
  ¬ (∀ (gen : sox_wave_t → Z → float → float → Z → float)
       (a : flanger_args float) (rate channels : Z)
       (e e' : sox_effect float) (delay depth : Q),
       binary64_value (arg_delay a) = Some delay →
       binary64_value (arg_depth a) = Some depth →
       configured a rate channels = Some e →
       sox_flanger_start gen e = Done (SOX_SUCCESS, None, e') →
       nearest_integer ((delay + depth) / 1000 * inject_Z rate)
                       (delay_buf_length (priv e') - 2)).
Proof.
  intros H.
  set (a := sine_linear_args (D := float) (d_of_Z 0)
              (d_div (d_of_Z 7) (d_of_Z 10)) (d_of_Z 0) (d_of_Z 71) half
              (d_of_Z 25)).
  assert (Hcfg : configured a 5000 1
                 = Some (effect_of (flanger_of_args a) 5000 1))
    by reflexivity.
  destruct (start_returns flat_wave a 5000 1 _ 4 10000 0 Hcfg)
    as (e' & E & Hlen & _);
    [by vm_compute | by vm_compute | by vm_compute | by vm_compute |].
  specialize (H flat_wave a 5000 1 _ e' _ _ eq_refl eq_refl Hcfg E).
  rewrite Hlen in H. revert H. unfold nearest_integer.
  vm_compute. intros H. apply H. reflexivity.
Qed.

(** C3, amended: whatever the arithmetic of [double], when the three
    conversions of start are defined, start succeeds and the length of the
    delay buffers is 2 more than the double
    (delay + depth) / 1000 * rate + 0.5 without its fraction.  The sum, the
    quotient and the product are doubles, each rounded, before the half is
    added. *)
Theorem delay_buf_length_from_doubles {D : Type} `{!DoubleOps D}
    (gen : sox_wave_t → Z → D → D → Z → D) (a : flanger_args D)
    (rate channels : Z) (e : sox_effect D) (n lo l : Z) :
  configured a rate channels = Some e → channels ≤ 4 →
  d_trunc (d_add (d_mul (d_div (d_add (arg_delay a) (arg_depth a))
                               (d_of_Z 1000))
                        (d_of_Z rate))
                 half) = Some n →
  0 ≤ n → n + 2 < 2 ^ 32 →
  to_sox_size (d_div (d_of_Z rate) (arg_speed a)) = Done l →
  to_sox_size (delay_samples rate (arg_delay a)) = Done lo →
  ∃ e', sox_flanger_start gen e = Done (SOX_SUCCESS, None, e')
        ∧ delay_buf_length (priv e') = n + 2.
Proof.
  intros Hcfg Hch Hn Hn0 Hn32 Hl Hlo.
  assert (En : to_sox_size
                 (delay_samples rate (d_add (arg_delay a) (arg_depth a)))
               = Done n)
    by (apply to_sox_size_inv; split; [exact Hn | lia]).
  destruct (start_returns gen a rate channels e n l lo Hcfg Hch En Hl Hlo)
    as (e' & E & Hlen & _).
  exists e'. split; [exact E |].
  rewrite Hlen. apply Z.mod_small. lia.
Qed.

(** The scenario of C3 with binary64 doubles: 44100 Hz, no delay, a depth
    of 2 ms. *)
Lemma default_delay_buf_length_90 :
  ∃ e', sox_flanger_start flat_wave
          (effect_of (flanger_of_args (D := float) default_args) 44100 2)
        = Done (SOX_SUCCESS, None, e')
        ∧ delay_buf_length (priv e') = 88 + 2.
Proof.
  apply (delay_buf_length_from_doubles flat_wave default_args 44100 2 _
           88 0 88200);
    [reflexivity | lia | by vm_compute | lia | lia | by vm_compute
    | by vm_compute].
Defined.

(** The same scenario computed, the table length included. *)
Example binary64_default_lengths :
  let e' := started flat_wave
              (effect_of (flanger_of_args (D := float) default_args) 44100 2) in
  delay_buf_length (priv e') = 90 ∧ lfo_length (priv e') = 88200.
Proof. split; lazy; reflexivity. Qed.

(** Where the delay in samples is a half-integer, rounding the quotient by
    1000 may decide.  With a depth of 9 ms at 1500 Hz, 13.5 samples, binary64
    doubles give buffers of 15 entries and exact arithmetic gives 16. *)
Example binary64_fifteen_entry_buffers :
  delay_buf_length
    (priv (started flat_wave
             (example_effect (D := float) (d_of_Z 0) (d_of_Z 9) (d_of_Z 0)
                (d_of_Z 71) half (d_of_Z 25) 1500 1)))
  = 15
  ∧ delay_buf_length
      (priv (started flat_wave
               (example_effect 0 9 0 71 (1 # 2) 25 1500 1)%Q))
    = 16.
Proof. split; lazy; reflexivity. Qed.

(** C2, as the specification words it, does not hold: the length of the LFO
    table is not the quotient rate / speed rounded to the nearest integer.
    At 8000 Hz and 3 sweeps per second the table has 2666 entries, and
    8000 / 3 = 2666.67 is nearer to 2667. *)
Lemma lfo_length_not_rounded :
  ¬ (∀ (gen : sox_wave_t → Z → Q → Q → Z → Q) (a : flanger_args Q)
       (rate channels : Z) (e e' : sox_effect Q),
       configured a rate channels = Some e →
       sox_flanger_start gen e = Done (SOX_SUCCESS, None, e') →
       nearest_integer (inject_Z rate / arg_speed a) (lfo_length (priv e'))).
Proof.
  intros H.
  assert (Hcfg : configured (sine_linear_args 0 2 0 71 3 25)%Q 8000 1
                 = Some (example_effect 0 2 0 71 3 25 8000 1)%Q)
    by reflexivity.
  destruct (start_done flat_wave _ _ _ _ Hcfg)
    as (n & l & lo & _ & Fl & _ & _ & _ & _ & E);
    [lia | lia | reflexivity |].
  specialize (H _ _ _ _ _ _ Hcfg E). simpl in H.
  assert (l = 2666) as ->.
  { eapply floored_unique; [exact Fl |]. split; [by vm_compute | reflexivity]. }
  revert H. unfold nearest_integer. vm_compute. intros H. apply H. reflexivity.
Qed.

(** C2, amended: whatever the arithmetic of [double], when the three
    conversions of start are defined, start succeeds and the length of the
    LFO table is the quotient rate / speed, a double, without its fraction:
    truncated, not rounded to the nearest integer. *)
Theorem lfo_length_truncated {D : Type} `{!DoubleOps D}
    (gen : sox_wave_t → Z → D → D → Z → D) (a : flanger_args D)
    (rate channels : Z) (e : sox_effect D) (n lo l : Z) :
  configured a rate channels = Some e → channels ≤ 4 →
  to_sox_size (delay_samples rate (d_add (arg_delay a) (arg_depth a)))
  = Done n →
  to_sox_size (delay_samples rate (arg_delay a)) = Done lo →
  d_trunc (d_div (d_of_Z rate) (arg_speed a)) = Some l → 0 ≤ l < 2 ^ 32 →
  ∃ e', sox_flanger_start gen e = Done (SOX_SUCCESS, None, e')
        ∧ lfo_length (priv e') = l.
Proof.
  intros Hcfg Hch Hn Hlo Hl Hl32.
  assert (El : to_sox_size (d_div (d_of_Z rate) (arg_speed a)) = Done l)
    by (apply to_sox_size_inv; auto).
  destruct (start_returns gen a rate channels e n l lo Hcfg Hch Hn El Hlo)
    as (e' & E & _ & HL & _).
  exists e'. auto.
Qed.

(** With binary64 doubles, 8000 Hz and 3 sweeps per second: 2666 entries,
    where 8000 / 3 = 2666.67 is nearer to 2667. *)
Lemma lfo_length_2666 :
  ∃ e', sox_flanger_start flat_wave
          (example_effect (D := float) (d_of_Z 0) (d_of_Z 2) (d_of_Z 0)
             (d_of_Z 71) (d_of_Z 3) (d_of_Z 25) 8000 1)
        = Done (SOX_SUCCESS, None, e')
        ∧ lfo_length (priv e') = 2666.
Proof.
  apply (lfo_length_truncated flat_wave
           (sine_linear_args (d_of_Z 0) (d_of_Z 2) (d_of_Z 0) (d_of_Z 71)
              (d_of_Z 3) (d_of_Z 25)) 8000 1 _ 16 0 2666);
    [reflexivity | lia | by vm_compute | by vm_compute | by vm_compute | lia].
Defined.

(** The quotient is a double before it is truncated.  At 10 Hz and a speed
    of a tenth, the double nearest to 0.1, the double quotient is 100 and so
    is the length of the table, while the quotient of the two numbers is a
    little less than 100. *)
Example binary64_table_of_100 :
  let speed := d_div (D := float) (d_of_Z 1) (d_of_Z 10) in
  lfo_length
    (priv (started flat_wave
             (example_effect (d_of_Z 0) (d_of_Z 2) (d_of_Z 0) (d_of_Z 71)
                speed (d_of_Z 25) 10 1)))
  = 100
  ∧ ∃ q, binary64_value speed = Some q ∧ floored (10 / q) 99.
Proof.
  split; [lazy; reflexivity |].
  eexists. split; [vm_compute; reflexivity |].
  split; [by vm_compute | reflexivity].
Qed.

(** C8, as the specification words it, does not hold: with no delay and no
    depth the delay buffers have two entries, not three. *)
Lemma delay_buf_length_two :
  ¬ (∀ (gen : sox_wave_t → Z → Q → Q → Z → Q) (a : flanger_args Q)
       (rate channels : Z) (e e' : sox_effect Q),
       configured a rate channels = Some e →
       sox_flanger_start gen e = Done (SOX_SUCCESS, None, e') →
       3 ≤ delay_buf_length (priv e')).
Proof.
  intros H.
  assert (Hcfg : configured (sine_linear_args 0 0 0 71 (1 # 2) 25)%Q 44100 1
                 = Some (example_effect 0 0 0 71 (1 # 2) 25 44100 1)%Q)
    by reflexivity.
  destruct (start_done flat_wave _ _ _ _ Hcfg)
    as (n & l & lo & Rn & _ & _ & _ & _ & _ & E);
    [lia | lia | reflexivity |].
  specialize (H _ _ _ _ _ _ Hcfg E). simpl in H.
  assert (n = 0); [| lia].
  eapply rounded_unique; [exact Rn |]. split; [by vm_compute | reflexivity].
Qed.

(** C8, amended: for arguments in their ranges, start succeeds and the delay
    buffers have at least two entries. *)
Theorem delay_buf_length_at_least_two (gen : sox_wave_t → Z → Q → Q → Z → Q)
    (a : flanger_args Q) (rate channels : Z) (e : sox_effect Q) :
  configured a rate channels = Some e →
  0 ≤ rate < 2 ^ 32 → channels ≤ 4 →
  (inject_Z rate / arg_speed a < inject_Z (2 ^ 32))%Q →
  ∃ e', sox_flanger_start gen e = Done (SOX_SUCCESS, None, e')
        ∧ 2 ≤ delay_buf_length (priv e').
Proof.
  intros Hcfg Hrate Hch Hspeed.
  destruct (start_done gen a rate channels e Hcfg Hrate Hch Hspeed)
    as (n & l & lo & _ & _ & _ & Hn & _ & _ & E).
  eexists. split; [exact E |]. simpl. lia.
Qed.

(** The buffers of the example above, by the amended statement. *)
Lemma delay_buf_length_exactly_two :
  ∃ e', sox_flanger_start flat_wave
          (example_effect 0 0 0 71 (1 # 2) 25 44100 1)%Q
        = Done (SOX_SUCCESS, None, e')
        ∧ 2 ≤ delay_buf_length (priv e').
Proof.
  apply (delay_buf_length_at_least_two flat_wave
           (sine_linear_args 0 0 0 71 (1 # 2) 25)%Q 44100 1);
    [reflexivity | lia | lia | reflexivity].
Defined.

(** The same buffers with binary64 doubles. *)
Example binary64_two_entry_buffers :
  delay_buf_length
    (priv (started flat_wave
             (example_effect (D := float) (d_of_Z 0) (d_of_Z 0) (d_of_Z 0)
                (d_of_Z 71) half (d_of_Z 25) 44100 1)))
  = 2.
Proof. lazy. reflexivity. Qed.

(** ** The gains start derives (C4) *)

(** C4: for arguments in their ranges, start succeeds and leaves the
    feedback, the mix and the channel phase scaled from percentages to
    unity, the input gain 1 / (1 + mix), and the delay gain
    mix / (1 + mix) scaled by 1 - |feedback|. *)
Theorem start_gains (gen : sox_wave_t → Z → Q → Q → Z → Q)
    (a : flanger_args Q) (rate channels : Z) (e : sox_effect Q) :
  configured a rate channels = Some e →
  0 ≤ rate < 2 ^ 32 → channels ≤ 4 →
  (inject_Z rate / arg_speed a < inject_Z (2 ^ 32))%Q →
  ∃ e', sox_flanger_start gen e = Done (SOX_SUCCESS, None, e')
        ∧ let feedbackGain := (arg_regen a / 100)%Q in
          let mixGain0 := (arg_width a / 100)%Q in
          feedback_gain (priv e') = feedbackGain
          ∧ channel_phase (priv e') = (arg_phase a / 100)%Q
          ∧ in_gain (priv e') = (1 / (1 + mixGain0))%Q
          ∧ delay_gain (priv e')
            = (mixGain0 / (1 + mixGain0) * (1 - Qabs feedbackGain))%Q.
Proof.
  intros Hcfg Hrate Hch Hspeed.
  destruct (start_done gen a rate channels e Hcfg Hrate Hch Hspeed)
    as (n & l & lo & _ & _ & _ & _ & _ & _ & E).
  eexists. split; [exact E |]. simpl. auto.
Qed.

(** The scenario of C4: a feedback of 50% and a mix of 71%. *)
Lemma gains_at_50_and_71 :
  ∃ e', sox_flanger_start flat_wave
          (example_effect 0 2 50 71 (1 # 2) 25 44100 2)%Q
        = Done (SOX_SUCCESS, None, e')
        ∧ (in_gain (priv e') == 1 / (171 # 100)
           ∧ delay_gain (priv e')
             == (71 # 100) / (171 # 100) * (1 - (1 # 2)))%Q.
Proof.
  destruct (start_gains flat_wave (sine_linear_args 0 2 50 71 (1 # 2) 25)%Q
              44100 2 (example_effect 0 2 50 71 (1 # 2) 25 44100 2)%Q)
    as (e' & E & _ & _ & Hin & Hdelay);
    [reflexivity | lia | lia | reflexivity |].
  exists e'. split; [exact E |]. rewrite Hin, Hdelay. split; reflexivity.
Defined.

(** The same gains with binary64 doubles. *)
#[warnings="-inexact-float"]
Example binary64_gains :
  let e' := started flat_wave
              (example_effect (D := float) (d_of_Z 0) (d_of_Z 2) (d_of_Z 50)
                 (d_of_Z 71) half (d_of_Z 25) 44100 2) in
  in_gain (priv e') = (1 / 1.71)%float
  ∧ delay_gain (priv e') = ((0.71 / 1.71) * (1 - 0.5))%float.
Proof. split; lazy; reflexivity. Qed.

(** ** Start: the channel limit (C9) *)

(** C9: with more than MAX_CHANNELS = 4 channels, start reports the channel
    limit through sox_fail and returns SOX_EOF, and the effect is returned as
    it was given: no gain is rescaled, no delay buffer and no LFO table is
    allocated.  This holds whatever the arithmetic.  (What the host does
    with a failed start is outside flanger.c.) *)
Theorem start_rejects_more_than_four_channels
    {D} `{!DoubleOps D} (gen : sox_wave_t → Z → D → D → Z → D)
    (e : sox_effect D) :
  ininfo_channels e > MAX_CHANNELS →
  sox_flanger_start gen e
  = Done (SOX_EOF, Some "Can not operate with more than 4 channels"%string, e).
Proof.
  intros Hc. unfold sox_flanger_start.
  destruct (decide (ininfo_channels e > MAX_CHANNELS)) as [_ | Hn];
    [reflexivity | contradiction].
Qed.

(** The scenario of C9: five channels, default arguments, binary64 doubles. *)
Lemma start_rejects_five_channels :
  let e := effect_of (flanger_of_args (D := float) default_args) 44100 5 in
  configured default_args 44100 5 = Some e
  ∧ sox_flanger_start flat_wave e
    = Done (SOX_EOF, Some "Can not operate with more than 4 channels"%string,
            e).
Proof.
  split; [reflexivity |].
  apply (start_rejects_more_than_four_channels flat_wave). reflexivity.
Defined.

(** ** The flow function (C5, C10) *)

(** What start leaves is a started effect in the sense of [flanger_ready],
    provided the table has an entry and the generator keeps to the range it
    is given. *)
Lemma start_ready (gen : sox_wave_t → Z → Q → Q → Z → Q)
    (a : flanger_args Q) (rate channels : Z) (e : sox_effect Q) :
  (∀ shape size lo hi t, (lo <= hi → lo <= gen shape size lo hi t <= hi)%Q) →
  configured a rate channels = Some e →
  1 ≤ channels ≤ 4 → 0 ≤ rate < 2 ^ 32 →
  (arg_speed a <= inject_Z rate)%Q →
  (inject_Z rate / arg_speed a < inject_Z (2 ^ 32))%Q →
  ∃ e', sox_flanger_start gen e = Done (SOX_SUCCESS, None, e')
        ∧ flanger_ready e' = true.
Proof.
  intros Hgen Hcfg Hch Hrate Hspeed Hfit.
  destruct (start_done gen a rate channels e Hcfg Hrate ltac:(lia) Hfit)
    as (n & l & lo & _ & Fl & _ & Hlo & Hn & Hl & E).
  unfold configured, sox_flanger_getopts in Hcfg.
  destruct (args_in_range a) eqn:Hargs; [| discriminate].
  apply args_in_range_spec in Hargs as (_ & _ & _ & _ & (S0 & S1) & Hphase).
  assert (Hl1 : 1 ≤ l).
  { apply (floored_bounds _ l 1 (2 ^ 32) Fl); [| exact Hfit].
    change (inject_Z 1) with 1%Q. apply Qle_shift_div_l; lra. }
  eexists. split; [exact E |]. apply started_ready; auto; lia.
Qed.

(** A call on the hand-written effect, with binary64 doubles. *)
Example binary64_three_frames :
  (λ r, (fr_status r, fr_obuf r, fr_isamp r, fr_osamp r,
         lfo_pos (priv (fr_effp r))))
  <$> sox_flanger_flow (sweep_example (D := float) INTERP_LINEAR)
        [1000; 2000; 3000; -4000; 5000; 6000; 7000; 8000; 9000; 10000; 11000]
        11 7
  = Done (SOX_SUCCESS, [750; 1000; 2063; -1750; 3375; 3500], 6, 6, 3).
Proof. vm_compute. reflexivity. Qed.

(** C5: a call on a started effect returns SOX_SUCCESS after processing the
    whole frames that fit both counts, min (isamp, osamp) / channels of
    them: it reports that many frames times channels as consumed and as
    produced, has written as many samples, and has advanced the LFO by as
    many entries. *)
Theorem flow_whole_frames (e : sox_effect Q) (ibuf : list Z)
    (isamp osamp : Z) :
  flanger_ready e = true → call_ready ibuf isamp osamp = true →
  let channels := ininfo_channels e in
  let frames := Z.min isamp osamp / channels in
  ∃ r, sox_flanger_flow e ibuf isamp osamp = Done r
       ∧ fr_status r = SOX_SUCCESS
       ∧ fr_isamp r = frames * channels
       ∧ fr_osamp r = frames * channels
       ∧ Z.of_nat (length (fr_obuf r)) = frames * channels
       ∧ lfo_pos (priv (fr_effp r))
         = (lfo_pos (priv e) + frames) mod lfo_length (priv e).
Proof.
  intros Hready Hcall channels frames.
  destruct (sox_flanger_flow_ready e ibuf isamp osamp Hready Hcall)
    as (r & E & Hst & Hi & Ho & Hlen & Hlfo & _).
  exists r. auto 10.
Qed.

(** Eleven samples offered, room for seven, two channels: three frames. *)
Lemma eleven_samples_three_frames :
  ∃ r, sox_flanger_flow (sweep_example (D := Q) INTERP_QUADRATIC)
         [1000; 2000; 3000; -4000; 5000; 6000; 7000; 8000; 9000; 10000; 11000]
         11 7 = Done r
       ∧ fr_isamp r = 6 ∧ fr_osamp r = 6
       ∧ Z.of_nat (length (fr_obuf r)) = 6
       ∧ lfo_pos (priv (fr_effp r)) = 3.
Proof.
  destruct (flow_whole_frames (sweep_example INTERP_QUADRATIC)
              [1000; 2000; 3000; -4000; 5000; 6000; 7000; 8000; 9000; 10000;
               11000] 11 7)
    as (r & E & _ & Hi & Ho & Hlen & Hlfo); [reflexivity | reflexivity |].
  exists r. auto.
Defined.

(** C10: a call on a started effect returns, and leaves every field set at
    configuration time or by start as it was; so it does the LFO table and
    the size of every buffer.  What may differ afterwards is the contents of
    the delay buffers, the two cursors, the last delayed values and the clip
    counter. *)
Theorem flow_keeps_configuration (e : sox_effect Q) (ibuf : list Z)
    (isamp osamp : Z) :
  flanger_ready e = true → call_ready ibuf isamp osamp = true →
  ∃ r, sox_flanger_flow e ibuf isamp osamp = Done r
       ∧ same_configuration (priv e) (priv (fr_effp r))
       ∧ lfo (priv e) = lfo (priv (fr_effp r))
       ∧ length <$> delay_bufs (priv e)
         = length <$> delay_bufs (priv (fr_effp r))
       ∧ length (delay_last (priv e)) = length (delay_last (priv (fr_effp r))).
Proof.
  intros Hready Hcall.
  destruct (sox_flanger_flow_ready e ibuf isamp osamp Hready Hcall)
    as (r & E & _ & _ & _ & _ & _ & U & _).
  exists r. split; [exact E |]. apply U.
Qed.

(** Three frames through the hand-written effect. *)
Lemma sweep_keeps_its_configuration :
  ∃ r, sox_flanger_flow (sweep_example (D := Q) INTERP_LINEAR)
         [1000; 2000; 3000; -4000; 5000; 6000] 6 6 = Done r
       ∧ same_configuration (priv (sweep_example INTERP_LINEAR))
                            (priv (fr_effp r)).
Proof.
  destruct (flow_keeps_configuration (sweep_example INTERP_LINEAR)
              [1000; 2000; 3000; -4000; 5000; 6000] 6 6)
    as (r & E & Hcfg & _); [reflexivity | reflexivity |].
  exists r. auto.
Defined.

(** The frame property needs no arithmetic: it holds of every call that
    returns, with binary64 doubles as well. *)
Lemma flow_untouched {D} `{!DoubleOps D} (e : sox_effect D) (ibuf : list Z)
    (isamp osamp : Z) (r : flow_result D) :
  sox_flanger_flow e ibuf isamp osamp = Done r → untouched e (fr_effp r).
Proof.
  intros H. apply sox_flanger_flow_inv in H as (_ & _ & _ & _ & H).
  apply flow_frames_transfers in H as [U _]. exact U.
Qed.

(** ** The phase between the channels (C7) *)

(** C7, as the specification words it, does not hold: at a channel phase of
    one half, the second channel does not always read the LFO table half a
    table away from the first.  A table of five entries (50 Hz, 10 sweeps
    per second) has no entry half a table away, and the second channel reads
    three entries further. *)
Lemma odd_table_offset_not_half :
  ¬ (∀ (gen : sox_wave_t → Z → Q → Q → Z → Q) (a : flanger_args Q)
       (rate : Z) (e e' : sox_effect Q) (i0 i1 : Z),
       configured a rate 2 = Some e →
       (arg_phase a == 50)%Q →
       sox_flanger_start gen e = Done (SOX_SUCCESS, None, e') →
       lfo_index (priv e') 0 = Done i0 →
       lfo_index (priv e') 1 = Done i1 →
       2 * ((i1 - i0) mod lfo_length (priv e')) = lfo_length (priv e')).
Proof.
  intros H.
  specialize (H flat_wave (sine_linear_args 0 2 0 71 10 50)%Q 50
                (example_effect 0 2 0 71 10 50 50 2)%Q
                (started flat_wave (example_effect 0 2 0 71 10 50 50 2)%Q)
                0 3).
  vm_compute in H. specialize (H eq_refl eq_refl eq_refl eq_refl eq_refl).
  discriminate H.
Qed.

(** In exact arithmetic, on a table that is not empty and short enough for
    the 32-bit products not to wrap, the offset of channel [c] is [c] times
    the length times the channel phase, rounded, a tie going up.  With
    doubles the product is rounded first: see [binary64_offset_of_14].  At
    a channel phase of one half the first channel reads at the cursor and
    the second (length + 1) / 2 entries further. *)
Lemma exact_channel_offsets (f : flanger Q) :
  0 < lfo_length f → 4 * lfo_length f ≤ 2 ^ 32 →
  0 ≤ lfo_pos f < lfo_length f →
  (0 <= channel_phase f <= 1)%Q →
  (∀ c, 0 ≤ c < MAX_CHANNELS →
     ∃ k, lfo_channel_phase f c = Done k
          ∧ rounded (inject_Z c * inject_Z (lfo_length f) * channel_phase f) k
          ∧ lfo_index f c = Done ((lfo_pos f + k) mod lfo_length f))
  ∧ ((channel_phase f == 1 # 2)%Q →
       lfo_index f 0 = Done (lfo_pos f)
       ∧ lfo_index f 1
         = Done ((lfo_pos f + (lfo_length f + 1) / 2) mod lfo_length f)
       ∧ (Z.even (lfo_length f) = true →
            lfo_index f 1
            = Done ((lfo_pos f + lfo_length f / 2) mod lfo_length f))).
Proof.
  intros HL H32 Hpos Hphase.
  assert (Hall : ∀ c, 0 ≤ c < MAX_CHANNELS →
     ∃ k, lfo_channel_phase f c = Done k
          ∧ rounded (inject_Z c * inject_Z (lfo_length f) * channel_phase f) k
          ∧ lfo_index f c = Done ((lfo_pos f + k) mod lfo_length f)).
  { intros c Hc. unfold MAX_CHANNELS in Hc.
    destruct (lfo_index_done f c HL Hphase) as (k & Ek & Rk & Hk & Ei).
    assert (Hw : wrap32 (c * lfo_length f) = c * lfo_length f)
      by (apply Z.mod_small; nia).
    rewrite Hw in Rk. rewrite inject_Z_mult in Rk.
    assert (Hprod : (0 <= inject_Z c * inject_Z (lfo_length f))%Q).
    { rewrite <- inject_Z_mult. change 0%Q with (inject_Z 0).
      rewrite <- Zle_Qle. nia. }
    assert (Hle : (inject_Z c * inject_Z (lfo_length f) * channel_phase f
                   <= inject_Z c * inject_Z (lfo_length f) * 1)%Q).
    { rewrite !(Qmult_comm (inject_Z c * inject_Z (lfo_length f))).
      apply Qmult_le_compat_r; [apply Hphase | exact Hprod]. }
    assert (Hkc : k ≤ c * lfo_length f).
    { apply inject_lt_succ. rewrite inject_Z_mult. destruct Rk. lra. }
    exists k. split; [exact Ek |]. split; [exact Rk |].
    rewrite Ei. unfold wrap32. rewrite (Z.mod_small (lfo_pos f + k)) by nia.
    reflexivity. }
  split; [exact Hall |]. intros Hhalf.
  assert (H0 : lfo_index f 0 = Done (lfo_pos f)).
  { destruct (Hall 0) as (k & _ & Rk & Ei); [unfold MAX_CHANNELS; lia |].
    assert (k = 0) as ->.
    { apply (rounded_unique _ _ _ Rk). change (inject_Z 0) with 0%Q.
      split; ring_simplify; [discriminate | reflexivity]. }
    rewrite Ei, Z.add_0_r, Z.mod_small by lia. reflexivity. }
  assert (H1 : lfo_index f 1
               = Done ((lfo_pos f + (lfo_length f + 1) / 2)
                       mod lfo_length f)).
  { destruct (Hall 1) as (k & _ & Rk & Ei); [unfold MAX_CHANNELS; lia |].
    assert (k = (lfo_length f + 1) / 2) as ->; [| exact Ei].
    apply (rounded_unique _ _ _ Rk).
    assert (E : (inject_Z 1 * inject_Z (lfo_length f) * channel_phase f
                 == inject_Z (lfo_length f) * (1 # 2))%Q)
      by (rewrite Hhalf; change (inject_Z 1) with 1%Q; ring).
    set (q := (lfo_length f + 1) / 2).
    assert (B1 : (inject_Z (2 * q) <= inject_Z (lfo_length f) + 1)%Q).
    { change 1%Q with (inject_Z 1). rewrite <- inject_Z_plus, <- Zle_Qle.
      unfold q. pose proof (Z.mul_div_le (lfo_length f + 1) 2). lia. }
    assert (B2 : (inject_Z (lfo_length f) < inject_Z (2 * q) + 1)%Q).
    { change 1%Q with (inject_Z 1). rewrite <- inject_Z_plus, <- Zlt_Qlt.
      unfold q.
      pose proof (Z.mul_succ_div_gt (lfo_length f + 1) 2). lia. }
    rewrite inject_Z_mult in B1, B2. change (inject_Z 2) with 2%Q in B1, B2.
    unfold rounded. rewrite E. split; lra. }
  split; [exact H0 |]. split; [exact H1 |].
  intros Heven. rewrite H1. do 3 f_equal.
  apply Z.even_spec in Heven as [m Hm]. rewrite Hm.
  rewrite (Z.mul_comm 2 m), Z.div_mul by lia.
  replace (m * 2 + 1) with (1 + m * 2) by lia.
  rewrite Z.div_add by lia. reflexivity.
Qed.

(** C7, amended.  Whatever the arithmetic of [double], on a table that is
    not empty channel [c] reads the LFO table at the cursor plus its offset,
    modulo the length, both sums in 32 bits; the offset is the double
    c * length * phase + 0.5 without its fraction, where c * length is a
    32-bit product and the product with the phase is a double, rounded
    before the half is added.  At a channel phase of one half, where the
    product and the sum are exact, the first channel reads at the cursor
    and the second (length + 1) / 2 entries further: half a table when the
    length is even. *)
Theorem lfo_channel_offsets :
  (∀ (D : Type) (ops : DoubleOps D) (f : flanger D) (c k : Z),
     0 < lfo_length f →
     d_trunc (d_add (d_mul (d_of_Z (wrap32 (c * lfo_length f)))
                           (channel_phase f))
                    half) = Some k →
     0 ≤ k < 2 ^ 32 →
     lfo_index f c = Done (wrap32 (lfo_pos f + k) mod lfo_length f)
     ∧ 0 ≤ wrap32 (lfo_pos f + k) mod lfo_length f < lfo_length f)
  ∧ (∀ f : flanger Q,
       0 < lfo_length f → 4 * lfo_length f ≤ 2 ^ 32 →
       0 ≤ lfo_pos f < lfo_length f →
       (channel_phase f == 1 # 2)%Q →
       lfo_index f 0 = Done (lfo_pos f)
       ∧ lfo_index f 1
         = Done ((lfo_pos f + (lfo_length f + 1) / 2) mod lfo_length f)
       ∧ (Z.even (lfo_length f) = true →
            lfo_index f 1
            = Done ((lfo_pos f + lfo_length f / 2) mod lfo_length f))).
Proof.
  split.
  - intros D ops f c k HL Hk Hk32.
    split; [| apply Z.mod_pos_bound; exact HL].
    unfold lfo_index, lfo_channel_phase.
    rewrite (proj2 (to_sox_size_inv _ k) (conj Hk Hk32)), done_bind.
    apply umod_done. lia.
  - intros f HL H32 Hpos Hhalf.
    apply (exact_channel_offsets f HL H32 Hpos); [| exact Hhalf].
    rewrite Hhalf. split; discriminate.
Qed.

(** A table of eight entries (80 Hz, 10 sweeps per second) at a channel
    phase of one half: the second channel reads four entries after the
    first, with binary64 doubles by the first part and in exact arithmetic
    by the second. *)
Lemma even_table_offset_half :
  lfo_index
    (priv (started flat_wave
             (example_effect (D := float) (d_of_Z 0) (d_of_Z 2) (d_of_Z 0)
                (d_of_Z 71) (d_of_Z 10) (d_of_Z 50) 80 2))) 1
  = Done 4
  ∧ (let f := priv (started flat_wave
                      (example_effect 0 2 0 71 10 50 80 2)%Q) in
     lfo_index f 0 = Done 0 ∧ lfo_index f 1 = Done 4).
Proof.
  split.
  - set (f := priv (started flat_wave
                      (example_effect (D := float) (d_of_Z 0) (d_of_Z 2)
                         (d_of_Z 0) (d_of_Z 71) (d_of_Z 10) (d_of_Z 50)
                         80 2))).
    destruct (proj1 lfo_channel_offsets float _ f 1 4) as [E _];
      [by vm_compute | by vm_compute | lia |].
    rewrite E. vm_compute. reflexivity.
  - intros f.
    destruct (proj2 lfo_channel_offsets f) as (H0 & _ & Heven);
      [reflexivity | by vm_compute | by vm_compute | reflexivity |].
    split; [exact H0 | exact (Heven eq_refl)].
Defined.

(** At a channel phase of one half binary64 doubles give the offset
    (length + 1) / 2 as well, here for tables of 5, 8, 88200 and
    2 ^ 31 - 1 entries. *)
Example binary64_half_table_offsets (len : Z) :
  len = 5 ∨ len = 8 ∨ len = 88200 ∨ len = 2 ^ 31 - 1 →
  lfo_channel_phase
    (set_lfo_length len
       (set_channel_phase (d_div (d_of_Z 50) (d_of_Z 100))
          (flanger_of_args (D := float) default_args))) 1
  = Done ((len + 1) / 2).
Proof. intros [-> | [-> | [-> | ->]]]; vm_compute; reflexivity. Qed.

(** At other phases the rounded product may decide.  At a phase of 29% on a
    table of 50 entries, 14.5 entries, binary64 doubles give the second
    channel an offset of 14 and exact arithmetic gives 15. *)
Example binary64_offset_of_14 :
  lfo_channel_phase
    (set_lfo_length 50
       (set_channel_phase (d_div (d_of_Z 29) (d_of_Z 100))
          (flanger_of_args (D := float) default_args))) 1
  = Done 14
  ∧ lfo_channel_phase
      (set_lfo_length 50
         (set_channel_phase (29 # 100)
            (flanger_of_args (D := Q) default_args))) 1
    = Done 15.
Proof. split; vm_compute; reflexivity. Qed.

(** ** Passing the input through (C6) *)

(** On a started effect with an input gain of one and a delay gain of zero,
    every block comes out as it went in, cut to whole frames. *)
Lemma flow_blocks_passes (blocks : list (list Z)) (e : sox_effect Q) :
  flanger_ready e = true →
  (in_gain (priv e) == 1)%Q → (delay_gain (priv e) == 0)%Q →
  forallb block_ready blocks = true →
  ∃ e', flow_blocks e blocks
        = Done (e', map (whole_frames (ininfo_channels e)) blocks)
        ∧ clips e' = clips e.
Proof.
  revert e. induction blocks as [| b blocks IH]; intros e Hready Hin Hdelay Hb.
  - exists e. split; reflexivity.
  - simpl in Hb. apply andb_true_iff in Hb as [Hb Hbs].
    unfold block_ready in Hb.
    apply andb_true_iff in Hb as [Hs Hlen].
    apply bool_decide_eq_true in Hlen.
    assert (Hcall : call_ready b (Z.of_nat (length b)) (Z.of_nat (length b))
                    = true).
    { unfold call_ready. rewrite !andb_true_iff, !bool_decide_eq_true. lia. }
    destruct (sox_flanger_flow_ready e b _ _ Hready Hcall)
      as (r & E & _ & _ & _ & Hout & _ & U & Hready').
    destruct (sox_flanger_flow_passes e b _ _ r E Hin Hdelay Hs)
      as [Hobuf Hclips].
    pose proof U as (_ & Hch & Hcfg & _).
    destruct Hcfg as (_ & _ & _ & Hdg & Hig & _).
    assert (Hin' : (in_gain (priv (fr_effp r)) == 1)%Q)
      by (rewrite <- Hig; exact Hin).
    assert (Hdelay' : (delay_gain (priv (fr_effp r)) == 0)%Q)
      by (rewrite <- Hdg; exact Hdelay).
    destruct (IH (fr_effp r) Hready' Hin' Hdelay' Hbs)
      as (e' & E' & Hclips').
    exists e'. simpl. run E. run E'.
    split; [| congruence].
    rewrite <- Hch.
    replace (fr_obuf r) with (whole_frames (ininfo_channels e) b);
      [reflexivity |].
    rewrite Hobuf. unfold whole_frames. f_equal.
    rewrite Z.min_id in Hout. rewrite <- Hout. apply Nat2Z.id.
Qed.

(** C6: with a depth, a feedback and a mix of zero, whatever the delay, the
    shape and the interpolation, start succeeds and leaves an effect that
    writes every sample of every block as it read it, as far as the whole
    frames of the block go, and counts no clip.  (The table must have an
    entry, that is the speed must not exceed the rate; the generator must
    keep to the range it is given.) *)
Theorem flanger_passthrough (gen : sox_wave_t → Z → Q → Q → Z → Q)
    (a : flanger_args Q) (rate channels : Z) (e : sox_effect Q)
    (blocks : list (list Z)) :
  (∀ shape size lo hi t, (lo <= hi → lo <= gen shape size lo hi t <= hi)%Q) →
  configured a rate channels = Some e →
  (arg_depth a == 0)%Q → (arg_regen a == 0)%Q → (arg_width a == 0)%Q →
  1 ≤ channels ≤ 4 → 0 ≤ rate < 2 ^ 32 →
  (arg_speed a <= inject_Z rate)%Q →
  (inject_Z rate / arg_speed a < inject_Z (2 ^ 32))%Q →
  forallb block_ready blocks = true →
  ∃ e1 e2,
    sox_flanger_start gen e = Done (SOX_SUCCESS, None, e1)
    ∧ flow_blocks e1 blocks = Done (e2, map (whole_frames channels) blocks)
    ∧ clips e2 = 0.
Proof.
  intros Hgen Hcfg Hdepth Hregen Hwidth Hch Hrate Hspeed Hfit Hblocks.
  destruct (start_done gen a rate channels e Hcfg Hrate ltac:(lia) Hfit)
    as (n & l & lo & _ & Fl & _ & Hlo & Hn & Hl & E).
  unfold configured, sox_flanger_getopts in Hcfg.
  destruct (args_in_range a) eqn:Hargs; [| discriminate].
  apply args_in_range_spec in Hargs as (_ & _ & _ & _ & (S0 & S1) & Hphase).
  assert (Hl1 : 0 < l).
  { assert (1 ≤ l); [| lia].
    apply (floored_bounds _ l 1 (2 ^ 32) Fl); [| exact Hfit].
    change (inject_Z 1) with 1%Q. apply Qle_shift_div_l; lra. }
  match type of E with
  | _ = Done (_, _, ?e1) =>
      destruct (flow_blocks_passes blocks e1) as (e2 & E2 & Hclips)
  end.
  - apply started_ready; auto; lia.
  - simpl. rewrite Hwidth. reflexivity.
  - simpl. rewrite Hwidth. reflexivity.
  - exact Hblocks.
  - simpl in E2, Hclips. eexists _, e2. split; [exact E |].
    split; assumption.
Qed.

(** Two blocks through an effect with a delay of 5 ms and nothing else; the
    first block has half a frame too many. *)
Lemma two_blocks_pass_through :
  ∃ e1 e2,
    sox_flanger_start flat_wave
      (example_effect 5 0 0 0 (1 # 2) 25 44100 2)%Q
    = Done (SOX_SUCCESS, None, e1)
    ∧ flow_blocks e1 [[1000; -2000; 3000; -4000; 5000];
                      [2147483647; -2147483648]]
      = Done (e2, [[1000; -2000; 3000; -4000]; [2147483647; -2147483648]])
    ∧ clips e2 = 0.
Proof.
  apply (flanger_passthrough flat_wave (sine_linear_args 5 0 0 0 (1 # 2) 25)%Q
           44100 2 (example_effect 5 0 0 0 (1 # 2) 25 44100 2)%Q
           [[1000; -2000; 3000; -4000; 5000]; [2147483647; -2147483648]]);
    try reflexivity; try lia; try (by vm_compute).
  intros shape size lo hi t Hle. unfold flat_wave.
  split; [apply Qle_refl | exact Hle].
Defined.

(** The same with binary64 doubles, at 1000 Hz and with quadratic
    interpolation. *)
Example binary64_pass_through :
  snd <$> flow_blocks
            (started flat_wave
               (effect_of (D := float)
                  {| delay_min := d_of_Z 5; delay_depth := d_of_Z 0;
                     feedback_gain := d_of_Z 0; delay_gain := d_of_Z 0;
                     speed := half; wave_shape := SOX_WAVE_TRIANGLE;
                     channel_phase := d_of_Z 25;
                     interpolation := INTERP_QUADRATIC;
                     delay_bufs := replicate 4 []; delay_buf_length := 0;
                     delay_buf_pos := 0;
                     delay_last := replicate 4 (d_of_Z 0);
                     lfo := []; lfo_length := 0; lfo_pos := 0;
                     in_gain := d_of_Z 0 |}
                  1000 2))
            [[1000; -2000; 3000; -4000; 5000]; [2147483647; -2147483648]]
  = Done [[1000; -2000; 3000; -4000]; [2147483647; -2147483648]].
Proof. vm_compute. reflexivity. Qed.

End Statements.

(** * Further properties of the code *)

(** ** Calls that have no frame to process *)

Section NoFrame.
Context {D : Type} `{!DoubleOps D}.

(** X1: a call that is offered, or has room for, less than one frame returns
    SOX_SUCCESS with nothing consumed and nothing produced, and leaves the
    effect exactly as it was: so even on an effect that was never started or
    whose LFO table is empty. *)
Theorem flow_without_a_frame (e : sox_effect D) (ibuf : list Z)
    (isamp osamp : Z) :
  0 ≤ isamp → 0 ≤ osamp →
  Z.min isamp osamp < wrap32 (ininfo_channels e) →
  sox_flanger_flow e ibuf isamp osamp
  = Done {| fr_status := SOX_SUCCESS; fr_effp := e; fr_obuf := [];
            fr_isamp := 0; fr_osamp := 0 |}.
Proof.
  intros Hi Ho Hlt. unfold sox_flanger_flow, udiv.
  set (m := if decide (isamp > osamp) then osamp else isamp).
  assert (Hm : m = Z.min isamp osamp) by (subst m; destruct (decide _); lia).
  destruct (decide (wrap32 (ininfo_channels e) = 0)) as [H0 | _]; [lia |].
  rewrite done_bind, Hm, Z.div_small by lia. reflexivity.
Qed.

End NoFrame.

Lemma three_samples_four_channels :
  sox_flanger_flow (example_effect (D := float) (d_of_Z 0) (d_of_Z 2)
                      (d_of_Z 0) (d_of_Z 71) (d_of_Z 10) (d_of_Z 25) 5 4)
                   [1; 2; 3] 3 8
  = Done {| fr_status := SOX_SUCCESS;
            fr_effp := example_effect (d_of_Z 0) (d_of_Z 2) (d_of_Z 0)
                         (d_of_Z 71) (d_of_Z 10) (d_of_Z 25) 5 4;
            fr_obuf := []; fr_isamp := 0; fr_osamp := 0 |}.
Proof.
  apply flow_without_a_frame; [lia | lia | by vm_compute].
Defined.

(** ** Stop *)

Section StopFacts.
Context {D : Type} `{!DoubleOps D}.

Lemma free_delay_bufs_done (n : nat) (c : Z) (bufs : list (list D)) :
  0 ≤ c → c + Z.of_nat n ≤ Z.of_nat (length bufs) →
  free_delay_bufs n c bufs = Done ().
Proof.
  revert c. induction n as [| n IH]; intros c Hc Hn; [reflexivity |].
  simpl. destruct (index_done bufs c) as (b & E & _); [lia |].
  run E. apply IH; lia.
Qed.

Lemma free_delay_bufs_beyond (n : nat) (c : Z) (bufs : list (list D)) :
  0 ≤ c ≤ Z.of_nat (length bufs) →
  Z.of_nat (length bufs) < c + Z.of_nat n →
  free_delay_bufs n c bufs = Fault OutOfBounds.
Proof.
  revert c. induction n as [| n IH]; intros c Hc Hn; [lia |].
  simpl. unfold index. destruct (decide (0 ≤ c)); [| lia].
  destruct (bufs !! Z.to_nat c) as [b |] eqn:Hb.
  - rewrite done_bind. apply lookup_lt_Some in Hb. apply IH; lia.
  - reflexivity.
Qed.

(** X2: stop succeeds when the effect has no more channels than buffer
    pointers, and leaves the private state zeroed: the parameters are gone
    with the buffers.  A flow call on the stopped effect that has a frame to
    process then divides by the zero length of the delay buffers. *)
Theorem flow_after_stop (e : sox_effect D) (ibuf : list Z) (isamp osamp : Z) :
  ininfo_channels e ≤ Z.of_nat (length (delay_bufs (priv e))) →
  0 < wrap32 (ininfo_channels e) ≤ Z.min isamp osamp →
  ∃ e', sox_flanger_stop e = Done (SOX_SUCCESS, e')
        ∧ priv e' = flanger_zero
        ∧ ininfo_channels e' = ininfo_channels e
        ∧ sox_flanger_flow e' ibuf isamp osamp = Fault DivisionByZero.
Proof.
  intros Hch Hframe. unfold sox_flanger_stop.
  rewrite free_delay_bufs_done by lia. rewrite done_bind.
  eexists. split; [reflexivity |]. split; [reflexivity |].
  split; [reflexivity |].
  unfold sox_flanger_flow, udiv. cbn [ininfo_channels set_priv].
  set (m := if decide (isamp > osamp) then osamp else isamp).
  assert (Hm : m = Z.min isamp osamp) by (subst m; destruct (decide _); lia).
  destruct (decide (wrap32 (ininfo_channels e) = 0)) as [H0 | _]; [lia |].
  rewrite done_bind.
  assert (Hlen : 1 ≤ m / wrap32 (ininfo_channels e)).
  { apply Z.div_le_lower_bound; lia. }
  destruct (Z.to_nat (m / wrap32 (ininfo_channels e))) as [| k] eqn:Hk; [lia |].
  reflexivity.
Qed.

(** X3: stop frees one buffer per channel: on an effect with more channels
    than the MAX_CHANNELS pointers of the private state, as start refuses, it
    reads past the array. *)
Theorem stop_beyond_the_buffers (e : sox_effect D) :
  Z.of_nat (length (delay_bufs (priv e))) < ininfo_channels e →
  sox_flanger_stop e = Fault OutOfBounds.
Proof.
  intros Hch. unfold sox_flanger_stop.
  rewrite free_delay_bufs_beyond by lia. reflexivity.
Qed.

End StopFacts.

(** Stop after the hand-written effect, then a call with three frames. *)
Lemma sweep_stopped :
  ∃ e', sox_flanger_stop (sweep_example (D := float) INTERP_LINEAR)
        = Done (SOX_SUCCESS, e')
        ∧ priv e' = flanger_zero
        ∧ ininfo_channels e' = 2
        ∧ sox_flanger_flow e' [1; 2; 3; 4; 5; 6] 6 6 = Fault DivisionByZero.
Proof.
  apply (flow_after_stop (sweep_example INTERP_LINEAR));
    [by vm_compute | by vm_compute].
Defined.

(** Five channels, refused by start, then stopped. *)
Lemma five_channels_stopped :
  sox_flanger_stop
    (effect_of (flanger_of_args (D := float) default_args) 44100 5)
  = Fault OutOfBounds.
Proof. apply stop_beyond_the_buffers. by vm_compute. Defined.

(** ** The state of a started effect is kept *)

Section Readiness.
Import Exact.

Lemma zeros_silent (n : nat) :
  forallb (Qeq_bool 0) (replicate n (inject_Z 0)) = true.
Proof. induction n as [| n IH]; [reflexivity | exact IH]. Qed.

Lemma alloc_delay_bufs_silent (channels len : Z) :
  (0 ≤ channels ≤ 4)%Z →
  forallb (forallb (Qeq_bool 0))
    (alloc_delay_bufs (D := Q) channels len
       (replicate (Z.to_nat MAX_CHANNELS) [])) = true.
Proof.
  intros Hch.
  assert (Hc : channels = 0%Z ∨ channels = 1%Z ∨ channels = 2%Z
               ∨ channels = 3%Z ∨ channels = 4%Z) by lia.
  pose proof (zeros_silent (Z.to_nat len)) as Hz.
  destruct Hc as [-> | [-> | [-> | [-> | ->]]]];
    unfold alloc_delay_bufs; cbn [exact_ops d_of_Z]; simpl;
    rewrite ?Hz; reflexivity.
Qed.

(** X4: start on arguments in their ranges, at a rate that is no less than the
    speed, for one to four channels, returns SOX_SUCCESS without a message and
    leaves a started effect: buffers and table allocated as recorded, both
    cursors at 0, the table values delays that fit the buffers (as long as the
    generator keeps to the range it is given), and the delay buffers and last
    delayed values all zero. *)
Theorem start_leaves_a_fresh_flanger (gen : sox_wave_t → Z → Q → Q → Z → Q)
    (a : flanger_args Q) (rate channels : Z) (e : sox_effect Q) :
  (∀ shape size lo hi t, (lo <= hi → lo <= gen shape size lo hi t <= hi)%Q) →
  configured a rate channels = Some e →
  1 ≤ channels ≤ 4 → 0 ≤ rate < 2 ^ 32 →
  (arg_speed a <= inject_Z rate)%Q →
  (inject_Z rate / arg_speed a < inject_Z (2 ^ 32))%Q →
  ∃ e', sox_flanger_start gen e = Done (SOX_SUCCESS, None, e')
        ∧ flanger_ready e' = true
        ∧ silent e' = true
        ∧ delay_buf_pos (priv e') = 0
        ∧ lfo_pos (priv e') = 0
        ∧ ininfo_channels e' = channels.
Proof.
  intros Hgen Hcfg Hch Hrate Hspeed Hfit.
  destruct (start_done gen a rate channels e Hcfg Hrate ltac:(lia) Hfit)
    as (n & l & lo & _ & Fl & _ & Hlo & Hn & Hl & E).
  unfold configured, sox_flanger_getopts in Hcfg.
  destruct (args_in_range a) eqn:Hargs; [| discriminate].
  apply args_in_range_spec in Hargs as (_ & _ & _ & _ & (S0 & S1) & Hphase).
  assert (Hl1 : 1 ≤ l).
  { apply (floored_bounds _ l 1 (2 ^ 32) Fl); [| exact Hfit].
    change (inject_Z 1) with 1%Q. apply Qle_shift_div_l; lra. }
  eexists. split; [exact E |].
  split; [apply started_ready; auto; lia |].
  split; [| auto].
  unfold silent. cbn [priv delay_bufs delay_last].
  rewrite alloc_delay_bufs_silent by lia. reflexivity.
Qed.

(** Start on the default arguments at 44100 Hz, two channels. *)
Lemma default_start_fresh :
  ∃ e', sox_flanger_start flat_wave
          (example_effect 0 2 0 71 (1 # 2) 25 44100 2)%Q
        = Done (SOX_SUCCESS, None, e')
        ∧ flanger_ready e' = true
        ∧ silent e' = true
        ∧ delay_buf_pos (priv e') = 0
        ∧ lfo_pos (priv e') = 0
        ∧ ininfo_channels e' = 2.
Proof.
  apply (start_leaves_a_fresh_flanger flat_wave default_args 44100 2);
    try reflexivity; try lia; try (by vm_compute).
  intros shape size lo hi t Hle. unfold flat_wave.
  split; [apply Qle_refl | exact Hle].
Defined.



(** ** An empty table *)

(** X6: whenever the sample rate is below the sweep speed, start succeeds on
    arguments in their ranges, and every flow call that has a frame to process
    then divides by the zero length of the LFO table, before it has read a
    sample. *)
Theorem flow_faults_below_speed (gen : sox_wave_t → Z → Q → Q → Z → Q)
    (a : flanger_args Q) (rate channels : Z) (e : sox_effect Q)
    (ibuf : list Z) (isamp osamp : Z) :
  configured a rate channels = Some e →
  0 ≤ rate → 1 ≤ channels ≤ 4 → (inject_Z rate < arg_speed a)%Q →
  channels ≤ Z.min isamp osamp →
  ∃ e', sox_flanger_start gen e = Done (SOX_SUCCESS, None, e')
        ∧ sox_flanger_flow e' ibuf isamp osamp = Fault DivisionByZero.
Proof.
  intros Hcfg Hrate Hch Hslow Hframe.
  pose proof Hcfg as Hargs. unfold configured, sox_flanger_getopts in Hargs.
  destruct (args_in_range a) eqn:Hr; [| discriminate]. clear Hargs.
  apply args_in_range_spec in Hr as (_ & _ & _ & _ & (S0 & S1) & (P0 & P1)).
  assert (Hq : (inject_Z rate / arg_speed a < 1)%Q)
    by (apply Qlt_shift_div_r; lra).
  assert (R0 : (0 <= inject_Z rate)%Q).
  { change 0%Q with (inject_Z 0). rewrite <- Zle_Qle. exact Hrate. }
  assert (R1 : rate < 10)
    by (rewrite Zlt_Qlt; change (inject_Z 10) with 10%Q; lra).
  destruct (start_done gen a rate channels e Hcfg) as
    (n & l & lo & _ & Fl & _ & Hlo & _ & _ & E);
    [lia | lia | change (inject_Z (2 ^ 32)) with 4294967296%Q; lra |].
  assert (Hl : l = 0).
  { assert (0 ≤ l < 1); [| lia].
    apply (floored_bounds _ l 0 1 Fl); [| exact Hq].
    change (inject_Z 0) with 0%Q. apply Qle_shift_div_l; lra. }
  subst l. eexists. split; [exact E |].
  unfold sox_flanger_flow, udiv. cbn [ininfo_channels].
  set (m := if decide (isamp > osamp) then osamp else isamp).
  assert (Hm : m = Z.min isamp osamp) by (subst m; destruct (decide _); lia).
  assert (Hw : wrap32 channels = channels) by (apply Z.mod_small; lia).
  rewrite Hw. destruct (decide (channels = 0)) as [H0 | _]; [lia |].
  rewrite done_bind.
  assert (Hlen : 1 ≤ m / channels) by (apply Z.div_le_lower_bound; lia).
  destruct (Z.to_nat (m / channels)) as [| k] eqn:Hk; [lia |].
  cbn [flow_frames]. unfold flow_frame at 1.
  cbn [fs_effp priv delay_buf_pos delay_buf_length ininfo_channels].
  rewrite umod_done by lia. rewrite done_bind.
  destruct (Z.to_nat channels) as [| j] eqn:Hj; [lia |].
  cbn [flow_channels]. unfold flow_channel at 1.
  unfold lfo_index, lfo_channel_phase, to_sox_size, set_priv,
    set_delay_buf_pos.
  cbn [fs_effp priv lfo_length channel_phase lfo_pos]. exact_arith.
  change (inject_Z 100) with 100%Q.
  assert (Hphase : (0 <= arg_phase a / 100 <= 1)%Q)
    by (split; [apply Qle_shift_div_l | apply Qle_shift_div_r]; lra).
  destruct (to_unsigned_done 32
              (inject_Z (wrap32 (0 * 0)) * (arg_phase a / 100) + (1 # 2))%Q)
    as (k0 & Ek & _); [| | rewrite Ek; reflexivity].
  - change (inject_Z (wrap32 (0 * 0))) with 0%Q. lra.
  - change (inject_Z (wrap32 (0 * 0))) with 0%Q.
    change (inject_Z (2 ^ 32)) with 4294967296%Q. lra.
Qed.

(** 8 Hz, 10 sweeps per second, one frame of one channel. *)
Lemma eight_hertz_faults :
  ∃ e', sox_flanger_start flat_wave (example_effect 0 2 0 71 10 25 8 1)%Q
        = Done (SOX_SUCCESS, None, e')
        ∧ sox_flanger_flow e' [0] 1 1 = Fault DivisionByZero.
Proof.
  apply (flow_faults_below_speed flat_wave
           (sine_linear_args 0 2 0 71 10 25)%Q 8 1);
    try reflexivity; try lia.
Defined.

End Readiness.

(** ** The bounds of the gains *)

Section GainBounds.
Import Exact.
Local Open Scope Q_scope.

(** X7: the gains start derives are bounded: the input gain lies between
    one half and one, the delay gain between zero and one half and below the
    input gain, and the feedback gain is at most 0.95 in magnitude.  The
    bounds are doubles and every operation is monotone, so that rounding
    keeps them. *)
Theorem start_bounds_gains (gen : sox_wave_t → Z → Q → Q → Z → Q)
    (a : flanger_args Q) (rate channels : Z) (e : sox_effect Q) :
  configured a rate channels = Some e →
  (0 ≤ rate < 2 ^ 32)%Z → (channels ≤ 4)%Z →
  inject_Z rate / arg_speed a < inject_Z (2 ^ 32) →
  ∃ e', sox_flanger_start gen e = Done (SOX_SUCCESS, None, e')
        ∧ (1 # 2 <= in_gain (priv e') <= 1
           ∧ 0 <= delay_gain (priv e') <= 1 # 2
           ∧ delay_gain (priv e') <= in_gain (priv e')
           ∧ Qabs (feedback_gain (priv e')) <= 19 # 20).
Proof.
  intros Hcfg Hrate Hch Hspeed.
  destruct (start_done gen a rate channels e Hcfg Hrate Hch Hspeed)
    as (n & l & lo & _ & _ & _ & _ & _ & _ & E).
  unfold configured, sox_flanger_getopts in Hcfg.
  destruct (args_in_range a) eqn:Hargs; [| discriminate].
  apply args_in_range_spec in Hargs as (_ & _ & (F0 & F1) & (W0 & W1) & _).
  eexists. split; [exact E |]. cbn [priv in_gain delay_gain feedback_gain].
  set (m := arg_width a / 100).
  assert (Hm : 0 <= m <= 1)
    by (split; [apply Qle_shift_div_l | apply Qle_shift_div_r]; lra).
  set (u := 1 / (1 + m)).
  assert (Hu : 1 # 2 <= u <= 1)
    by (split; [apply Qle_shift_div_l | apply Qle_shift_div_r]; lra).
  assert (Hp : m / (1 + m) == 1 - u) by (unfold u; field; lra).
  set (t := Qabs (arg_regen a / 100)).
  assert (Ht0 : 0 <= t) by apply Qabs_nonneg.
  assert (Ht1 : t <= 19 # 20).
  { apply Qabs_Qle_condition.
    split; [apply Qle_shift_div_l | apply Qle_shift_div_r]; lra. }
  assert (Hq : 0 <= (1 - u) * t) by (apply Qmult_le_0_compat; lra).
  assert (Hr : 0 <= (1 - u) * (1 - t)) by (apply Qmult_le_0_compat; lra).
  assert (Hd : m / (1 + m) * (1 - t) == (1 - u) - (1 - u) * t)
    by (rewrite Hp; ring).
  split; [exact Hu |].
  split; [split; [rewrite Hp; exact Hr | rewrite Hd; lra] |].
  split; [rewrite Hd; lra | exact Ht1].
Qed.

(** A feedback of -95% and a mix of 100%, the extremes of both ranges. *)
Lemma extreme_gains_bounded :
  ∃ e', sox_flanger_start flat_wave
          (example_effect 0 2 (-95) 100 (1 # 2) 25 44100 2)
        = Done (SOX_SUCCESS, None, e')
        ∧ delay_gain (priv e') <= in_gain (priv e').
Proof.
  destruct (start_bounds_gains flat_wave
              (sine_linear_args 0 2 (-95) 100 (1 # 2) 25) 44100 2
              (example_effect 0 2 (-95) 100 (1 # 2) 25 44100 2))
    as (e' & E & _ & _ & Hle & _); [reflexivity | lia | lia | reflexivity |].
  exists e'. auto.
Defined.

End GainBounds.

(** The same bounds on the doubles that start stores at a mix of 25% and of
    71%. *)
Example binary64_gains_bounded (width : Z) :
  width = 25 ∨ width = 71 →
  let f := priv (started flat_wave
                   (example_effect (D := float) (d_of_Z 0) (d_of_Z 2)
                      (d_of_Z 0) (d_of_Z width) half (d_of_Z 25) 1000 1)) in
  between half (in_gain f) (d_of_Z 1) = true
  ∧ between (d_of_Z 0) (delay_gain f) half = true
  ∧ d_leb (delay_gain f) (in_gain f) = true.
Proof.
  intros [-> | ->]; cbv zeta; repeat split; lazy; reflexivity.
Qed.

(** The two doubles need not add up to one, even without feedback: at a mix
    of 25% the numbers they stand for add up to more than one, at 71% to
    less. *)
Example binary64_gains_off_balance :
  let gains width :=
    let f := priv (started flat_wave
                     (example_effect (D := float) (d_of_Z 0) (d_of_Z 2)
                        (d_of_Z 0) (d_of_Z width) half (d_of_Z 25)
                        1000 1)) in
    (binary64_value (in_gain f), binary64_value (delay_gain f)) in
  (∃ p q, gains 25 = (Some p, Some q) ∧ (1 < p + q)%Q)
  ∧ (∃ p q, gains 71 = (Some p, Some q) ∧ (p + q < 1)%Q).
Proof.
  split; eexists _, _; (split; [vm_compute; reflexivity | reflexivity]).
Qed.

(** ** Channels in unison *)

Section Unison.
Import Exact.

(** X8: at a channel phase of 0 and at one of 100% alike, every channel reads
    the LFO table at the cursor: the sweep is the same on each channel. *)
Theorem channels_in_unison (f : flanger Q) (c : Z) :
  0 < lfo_length f → 4 * lfo_length f ≤ 2 ^ 32 →
  0 ≤ lfo_pos f < lfo_length f →
  (channel_phase f == 0 ∨ channel_phase f == 1)%Q →
  0 ≤ c < MAX_CHANNELS →
  lfo_index f c = Done (lfo_pos f).
Proof.
  intros HL H32 Hpos Hphase Hc. unfold MAX_CHANNELS in Hc.
  assert (Hrange : (0 <= channel_phase f <= 1)%Q)
    by (destruct Hphase; split; lra).
  destruct (lfo_index_done f c HL Hrange) as (k & _ & Rk & _ & Ei).
  assert (Hw : wrap32 (c * lfo_length f) = c * lfo_length f)
    by (apply Z.mod_small; nia).
  rewrite Hw in Rk. rewrite Ei.
  assert (Hk : k = 0 ∨ k = c * lfo_length f).
  { destruct Hphase as [Hp | Hp]; [left | right];
      apply (rounded_unique _ _ _ Rk); unfold rounded; rewrite Hp;
      change (inject_Z 0) with 0%Q; split; lra. }
  f_equal. unfold wrap32.
  destruct Hk as [-> | ->].
  - rewrite Z.add_0_r, (Z.mod_small (lfo_pos f)) by lia.
    apply Z.mod_small. lia.
  - rewrite (Z.mod_small (lfo_pos f + c * lfo_length f)) by nia.
    rewrite Z.mod_add by lia. apply Z.mod_small. lia.
Qed.

(** The table of eight entries at a channel phase of 100%. *)
Lemma full_phase_in_unison :
  let f := priv (started flat_wave
                   (example_effect 0 2 0 71 10 100 80 4)%Q) in
  lfo_index f 3 = Done 0.
Proof.
  intros f. change (@Done Z 0) with (@Done Z (lfo_pos f)).
  apply (channels_in_unison f); try (by vm_compute). right. reflexivity.
Defined.

End Unison.

(** ** The delay cursor *)

Section DelayCursor.
Context {D : Type} `{!DoubleOps D}.

Lemma flow_frames_delay_cursor (len : nat) (s s' : flow_state D) :
  flow_frames len s = Done s' →
  let f := priv (fs_effp s) in
  0 ≤ delay_buf_pos f < delay_buf_length f → delay_buf_length f ≤ 2 ^ 31 →
  delay_buf_pos (priv (fs_effp s'))
  = (delay_buf_pos f - Z.of_nat len) mod delay_buf_length f.
Proof.
  revert s. induction len as [| len IH]; intros s H; simpl in H.
  - injection H as <-. simpl. intros Hpos _.
    rewrite Z.sub_0_r, Z.mod_small by lia. reflexivity.
  - step H as s1 E. intros f Hpos H31.
    apply flow_frame_transfers in E as ([U _] & Hlen & _ & Epos & _).
    destruct U as (_ & _ & Hcfg & _).
    destruct Hcfg as (_ & _ & _ & _ & _ & _ & _ & _ & _ & Hlen1 & _).
    specialize (IH s1 H). simpl in IH. fold f in Epos, Hlen1.
    rewrite <- Hlen1, Epos in IH.
    rewrite IH; [| apply Z.mod_pos_bound; lia | lia].
    unfold wrap32.
    rewrite (Z.mod_small (delay_buf_pos f + delay_buf_length f - 1)) by lia.
    rewrite Zminus_mod_idemp_l.
    replace (delay_buf_pos f + delay_buf_length f - 1 - Z.of_nat len)
      with (delay_buf_pos f - Z.of_nat (S len) + 1 * delay_buf_length f)
      by lia.
    apply Z.mod_add. lia.
Qed.

End DelayCursor.

Section DelayCursorExact.
Import Exact.

(** X9: every frame moves the write cursor of the delay buffers one entry
    down, round the buffer: after a call it is as many entries down as frames
    were processed, as long as the buffers are not longer than [2 ^ 31]
    entries, beyond which the 32-bit sum in the rotation would wrap. *)
Theorem delay_cursor_rotates (e : sox_effect Q) (ibuf : list Z)
    (isamp osamp : Z) :
  flanger_ready e = true → call_ready ibuf isamp osamp = true →
  delay_buf_length (priv e) ≤ 2 ^ 31 →
  let frames := Z.min isamp osamp / ininfo_channels e in
  ∃ r, sox_flanger_flow e ibuf isamp osamp = Done r
       ∧ delay_buf_pos (priv (fr_effp r))
         = (delay_buf_pos (priv e) - frames) mod delay_buf_length (priv e).
Proof.
  intros Hready Hcall H31 frames.
  destruct (sox_flanger_flow_ready e ibuf isamp osamp Hready Hcall)
    as (r & E & _).
  destruct (flanger_ready_spec e Hready) as (Hlay & Hpos & _).
  destruct (layout_ready_spec e Hlay) as (Hch & _).
  exists r. split; [exact E |].
  apply sox_flanger_flow_inv in E as (_ & _ & _ & _ & Hframes).
  assert (Hw : wrap32 (ininfo_channels e) = ininfo_channels e)
    by (apply Z.mod_small; lia).
  assert (Hm : (if decide (isamp > osamp) then osamp else isamp)
               = Z.min isamp osamp) by (destruct (decide _); lia).
  rewrite Hw, Hm in Hframes. fold frames in Hframes.
  apply flow_frames_delay_cursor in Hframes; simpl in Hframes; auto.
  rewrite Hframes, Z2Nat.id; [reflexivity |].
  unfold call_ready in Hcall.
  rewrite !andb_true_iff, !bool_decide_eq_true in Hcall.
  apply Z.div_pos; lia.
Qed.

(** Five frames on buffers of four entries: one entry down. *)
Lemma sweep_cursor_after_five_frames :
  ∃ r, sox_flanger_flow (sweep_example (D := Q) INTERP_LINEAR)
         [1; 2; 3; 4; 5; 6; 7; 8; 9; 10] 10 10 = Done r
       ∧ delay_buf_pos (priv (fr_effp r)) = 3.
Proof.
  apply (delay_cursor_rotates (sweep_example INTERP_LINEAR)
           [1; 2; 3; 4; 5; 6; 7; 8; 9; 10] 10 10);
    [reflexivity | reflexivity | by vm_compute].
Defined.

End DelayCursorExact.

(** ** A stream handed over in two blocks *)

Section BlocksFacts.
Context {D : Type} `{!DoubleOps D}.

Ltac bind_cases :=
  repeat (match goal with
          | |- context [mbind _ ?m] => destruct m
          | |- context [let '(_, _) := ?p in _] => destruct p
          | |- context [match interpolation ?f with _ => _ end] =>
              destruct (interpolation f)
          end;
          cbn [mbind outcome_bind fmap outcome_fmap]);
  try reflexivity.

Lemma flow_channel_more_input (c : Z) (s : flow_state D) (extra : list Z) :
  fs_ibuf s ≠ [] →
  flow_channel c (more_input extra s)
  = more_input extra <$> flow_channel c s.
Proof.
  intros Hs. unfold flow_channel, more_input.
  destruct (fs_ibuf s) as [| x rest]; [congruence |].
  cbn [fs_effp fs_ibuf fs_obuf app next].
  bind_cases.
Qed.

Lemma flow_channel_earlier_output (c : Z) (s : flow_state D) (pre : list Z) :
  flow_channel c (earlier_output pre s)
  = earlier_output pre <$> flow_channel c s.
Proof.
  unfold flow_channel, earlier_output.
  cbn [fs_effp fs_ibuf fs_obuf].
  bind_cases; cbn [fs_effp fs_ibuf fs_obuf]; rewrite app_assoc; reflexivity.
Qed.

Lemma transfers_input (n : nat) (s s' : flow_state D) :
  transfers n s s' →
  length (fs_ibuf s) = (n + length (fs_ibuf s'))%nat
  ∧ ininfo_channels (fs_effp s') = ininfo_channels (fs_effp s).
Proof.
  intros [(_ & Hch & _) (ins & outs & Hi & _ & Hn & _)].
  rewrite Hi, length_app, Hn. auto.
Qed.

Lemma flow_channels_more_input (n : nat) (c : Z) (s : flow_state D)
    (extra : list Z) :
  (n ≤ length (fs_ibuf s))%nat →
  flow_channels n c (more_input extra s)
  = more_input extra <$> flow_channels n c s.
Proof.
  revert c s. induction n as [| n IH]; intros c s Hn; [reflexivity |].
  cbn [flow_channels].
  rewrite flow_channel_more_input
    by (destruct (fs_ibuf s); [simpl in Hn; lia | discriminate]).
  destruct (flow_channel c s) as [s1 |] eqn:E; [| reflexivity].
  cbn [mbind outcome_bind fmap outcome_fmap].
  apply flow_channel_transfers in E as (T & _).
  apply transfers_input in T as [T _].
  apply IH. lia.
Qed.

Lemma flow_channels_earlier_output (n : nat) (c : Z) (s : flow_state D)
    (pre : list Z) :
  flow_channels n c (earlier_output pre s)
  = earlier_output pre <$> flow_channels n c s.
Proof.
  revert c s. induction n as [| n IH]; intros c s; [reflexivity |].
  cbn [flow_channels]. rewrite flow_channel_earlier_output.
  destruct (flow_channel c s) as [s1 |]; [| reflexivity].
  cbn [mbind outcome_bind fmap outcome_fmap]. apply IH.
Qed.

Lemma flow_frame_more_input (s : flow_state D) (extra : list Z) :
  (Z.to_nat (ininfo_channels (fs_effp s)) ≤ length (fs_ibuf s))%nat →
  flow_frame (more_input extra s) = more_input extra <$> flow_frame s.
Proof.
  intros Hn. unfold flow_frame.
  cbn [more_input fs_effp fs_ibuf fs_obuf].
  destruct (umod _ _) as [pos |]; [| reflexivity].
  cbn [mbind outcome_bind].
  change {| fs_effp := ?e; fs_ibuf := fs_ibuf s ++ extra;
            fs_obuf := fs_obuf s |}
    with (more_input extra {| fs_effp := e; fs_ibuf := fs_ibuf s;
                              fs_obuf := fs_obuf s |}).
  rewrite flow_channels_more_input by exact Hn.
  destruct (flow_channels _ _ _) as [s1 |]; [| reflexivity].
  cbn [mbind outcome_bind fmap outcome_fmap more_input fs_effp fs_ibuf fs_obuf].
  destruct (umod _ _); reflexivity.
Qed.

Lemma flow_frame_earlier_output (s : flow_state D) (pre : list Z) :
  flow_frame (earlier_output pre s) = earlier_output pre <$> flow_frame s.
Proof.
  unfold flow_frame.
  cbn [earlier_output fs_effp fs_ibuf fs_obuf].
  destruct (umod _ _) as [pos |]; [| reflexivity].
  cbn [mbind outcome_bind].
  change {| fs_effp := ?e; fs_ibuf := fs_ibuf s;
            fs_obuf := pre ++ fs_obuf s |}
    with (earlier_output pre {| fs_effp := e; fs_ibuf := fs_ibuf s;
                                fs_obuf := fs_obuf s |}).
  rewrite flow_channels_earlier_output.
  destruct (flow_channels _ _ _) as [s1 |]; [| reflexivity].
  cbn [mbind outcome_bind fmap outcome_fmap earlier_output
       fs_effp fs_ibuf fs_obuf].
  destruct (umod _ _); reflexivity.
Qed.

Lemma flow_frames_more_input (len : nat) (s : flow_state D)
    (extra : list Z) :
  (len * Z.to_nat (ininfo_channels (fs_effp s)) ≤ length (fs_ibuf s))%nat →
  flow_frames len (more_input extra s)
  = more_input extra <$> flow_frames len s.
Proof.
  revert s. induction len as [| len IH]; intros s Hn; [reflexivity |].
  cbn [flow_frames]. rewrite flow_frame_more_input by lia.
  destruct (flow_frame s) as [s1 |] eqn:E; [| reflexivity].
  cbn [mbind outcome_bind fmap outcome_fmap].
  apply flow_frame_transfers in E as (T & _).
  apply transfers_input in T as [T Hch].
  apply IH. rewrite Hch. lia.
Qed.

Lemma flow_frames_earlier_output (len : nat) (s : flow_state D)
    (pre : list Z) :
  flow_frames len (earlier_output pre s)
  = earlier_output pre <$> flow_frames len s.
Proof.
  revert s. induction len as [| len IH]; intros s; [reflexivity |].
  cbn [flow_frames]. rewrite flow_frame_earlier_output.
  destruct (flow_frame s) as [s1 |]; [| reflexivity].
  cbn [mbind outcome_bind fmap outcome_fmap]. apply IH.
Qed.

Lemma flow_frames_add (n m : nat) (s : flow_state D) :
  flow_frames (n + m) s = flow_frames n s ≫= flow_frames m.
Proof.
  revert s. induction n as [| n IH]; intros s; [reflexivity |].
  cbn [Nat.add flow_frames].
  destruct (flow_frame s) as [s1 |]; [| reflexivity].
  cbn [mbind outcome_bind]. apply IH.
Qed.

(** X10: the caller may cut a stream wherever a frame ends: one call on the
    whole stream and two calls on its two parts leave the same effect, write
    the same samples and report the same counts, or stop on the same fault.
    The first part is a whole number of frames; the second may end in a broken
    frame, which neither way of calling reads. *)
Theorem flow_in_two_blocks (e : sox_effect D) (b1 b2 : list Z) :
  let channels := ininfo_channels e in
  let n1 := Z.of_nat (length b1) in
  let n2 := Z.of_nat (length b2) in
  0 < channels < 2 ^ 32 → n1 mod channels = 0 → n1 + n2 < 2 ^ 32 →
  sox_flanger_flow e (b1 ++ b2) (n1 + n2) (n1 + n2) = flow_twice e b1 b2.
Proof.
  intros channels n1 n2 Hch Hmod Hlen.
  assert (Hn1 : 0 ≤ n1) by apply Nat2Z.is_nonneg.
  assert (Hn2 : 0 ≤ n2) by apply Nat2Z.is_nonneg.
  assert (Hw : wrap32 channels = channels) by (apply Z.mod_small; lia).
  apply Z.mod_divide in Hmod as [k Hk]; [| lia].
  assert (Hk0 : 0 ≤ k) by nia.
  set (m := n2 / channels).
  assert (Hm : 0 ≤ m) by (apply Z.div_pos; lia).
  assert (Hmc : m * channels ≤ n2)
    by (rewrite Z.mul_comm; apply Z.mul_div_le; lia).
  assert (Hdiv : (n1 + n2) / channels = k + m).
  { rewrite Hk, Z.add_comm, Z.div_add by lia. unfold m. lia. }
  unfold flow_twice, sox_flanger_flow. fold channels n1 n2.
  rewrite Hw.
  assert (Hif : ∀ n, (if decide (n > n) then n else n) = n)
    by (intros n; destruct (decide _); reflexivity).
  rewrite !Hif. unfold udiv.
  destruct (decide (channels = 0)) as [? | _]; [lia |].
  cbn [mbind outcome_bind].
  rewrite Hdiv, Z2Nat.inj_add, flow_frames_add by lia.
  replace (n1 / channels) with k by (rewrite Hk, Z.div_mul; lia).
  change {| fs_effp := e; fs_ibuf := b1 ++ b2; fs_obuf := [] |}
    with (more_input b2 {| fs_effp := e; fs_ibuf := b1; fs_obuf := [] |}).
  rewrite flow_frames_more_input
    by (cbn [fs_effp fs_ibuf]; fold channels; nia).
  destruct (flow_frames (Z.to_nat k) _) as [s1 |] eqn:E1; [| reflexivity].
  cbn [mbind outcome_bind fmap outcome_fmap fr_effp].
  apply flow_frames_transfers in E1.
  destruct (transfers_input _ _ _ E1) as [Hin Hch1].
  cbn [fs_effp fs_ibuf] in Hin, Hch1. fold channels in Hin, Hch1.
  assert (Hnil : fs_ibuf s1 = []).
  { apply length_zero_iff_nil. nia. }
  rewrite Hch1, Hw.
  destruct (decide (channels = 0)) as [? | _]; [lia |].
  cbn [mbind outcome_bind]. fold m.
  replace (more_input b2 s1)
    with (earlier_output (fs_obuf s1)
            {| fs_effp := fs_effp s1; fs_ibuf := b2; fs_obuf := [] |})
    by (unfold more_input, earlier_output; cbn [fs_effp fs_ibuf fs_obuf];
        rewrite Hnil, app_nil_r; reflexivity).
  rewrite flow_frames_earlier_output.
  destruct (flow_frames (Z.to_nat m) _) as [s2 |]; [| reflexivity].
  cbn [mbind outcome_bind fmap outcome_fmap earlier_output
       fr_status fr_effp fr_obuf fr_isamp fr_osamp fs_effp fs_obuf].
  assert (Hn : wrap32 ((k + m) * channels)
               = wrap32 (k * channels) + wrap32 (m * channels)).
  { unfold wrap32. rewrite !Z.mod_small by nia. lia. }
  rewrite Hn. reflexivity.
Qed.

End BlocksFacts.

(** Ten stereo samples: four, then six. *)
Lemma sweep_in_two_blocks :
  sox_flanger_flow (sweep_example (D := float) INTERP_QUADRATIC)
    ([1; 2; 3; 4] ++ [5; 6; 7; 8; 9; 10]) (4 + 6) (4 + 6)
  = flow_twice (sweep_example INTERP_QUADRATIC) [1; 2; 3; 4]
      [5; 6; 7; 8; 9; 10].
Proof.
  apply (flow_in_two_blocks (sweep_example INTERP_QUADRATIC) [1; 2; 3; 4]
           [5; 6; 7; 8; 9; 10]);
    [by vm_compute | reflexivity | reflexivity].
Defined.

(** ** The range of the output and the clip counter *)

Section Clips.
Context {D : Type} `{!DoubleOps D}.









End Clips.

Section ClipsExact.
Import Exact.



End ClipsExact.

(** ** What a channel computes *)

Section Values.
Context {D : Type} `{!DoubleOps D}.

Lemma flow_channel_values (c : Z) (s s' : flow_state D) :
  flow_channel c s = Done s' →
  let e := fs_effp s in
  let f := priv e in
  ∃ x ibuf i v k last old d0 d1 delayed o n,
    let new := <[Z.to_nat (delay_buf_pos f) :=
                   d_add (d_of_Z x) (d_mul last (feedback_gain f))]> old in
    fs_ibuf s = x :: ibuf
    ∧ lfo_index f c = Done i
    ∧ index (lfo f) i = Done v
    ∧ to_size_t (d_modf v).2 = Done k
    ∧ index (delay_last f) c = Done last
    ∧ index (delay_bufs f) c = Done old
    ∧ 0 ≤ delay_buf_pos f < Z.of_nat (length old)
    ∧ taps_read f new k d0 d1
    ∧ match interpolation f with
      | INTERP_LINEAR =>
          delayed = d_add d0 (d_mul (d_sub d1 d0) (d_modf v).1)
      | INTERP_QUADRATIC =>
          ∃ d2,
            index new (wrap32 (delay_buf_pos f
                               + wrap32 (wrap32 (wrap32 k + 1) + 1))
                       mod delay_buf_length f) = Done d2
            ∧ delayed
              = d_add d0
                  (d_mul
                     (d_add
                        (d_mul (d_sub (d_mul (d_sub d2 d0) half)
                                      (d_sub d1 d0))
                               (d_modf v).1)
                        (d_sub (d_mul (d_sub d1 d0) (d_of_Z 2))
                               (d_mul (d_sub d2 d0) half)))
                     (d_modf v).1)
      end
    ∧ SOX_ROUND_CLIP_COUNT
        (d_add (d_mul (d_of_Z x) (in_gain f)) (d_mul delayed (delay_gain f)))
        (clips e) = Done (o, n)
    ∧ s' = {| fs_effp :=
                set_clips n
                  (set_priv
                     (set_delay_last (<[Z.to_nat c := delayed]> (delay_last f))
                        (set_delay_bufs (<[Z.to_nat c := new]> (delay_bufs f)) f))
                     e);
              fs_ibuf := ibuf;
              fs_obuf := fs_obuf s ++ [o] |}.
Proof.
  unfold flow_channel. intros H.
  step H as i Ei. step H as v Ev.
  destruct (d_modf v) as [frac_delay delay] eqn:Emodf.
  step H as int_delay Eint.
  destruct (to_size_t delay) as [k |] eqn:Ek; [| discriminate].
  rewrite done_fmap in Eint. injection Eint as <-.
  step H as xi Ex. destruct xi as [x ibuf].
  step H as last Elast. step H as old Eold. step H as new Enew.
  step H as i0 Ei0. step H as d0 E0.
  step H as i1 Ei1. step H as d1 E1.
  step H as delayed Edelayed. step H as bufs Ebufs. step H as lasts Elasts.
  step H as on Eon. destruct on as [o n]. injection H as <-.
  apply umod_inv in Ei0 as [HL ->]. apply umod_inv in Ei1 as [_ ->].
  apply store_inv in Enew as [Hpos ->].
  apply store_inv in Ebufs as [_ ->].
  apply store_inv in Elasts as [_ ->].
  exists x, ibuf, i, v, k, last, old, d0, d1, delayed, o, n.
  rewrite Emodf. cbn [fst snd].
  repeat split; auto; try lia.
  - destruct (fs_ibuf s); [discriminate | injection Ex as -> ->; reflexivity].
  - destruct (interpolation _).
    + injection Edelayed as <-. reflexivity.
    + step Edelayed as i2 Ei2. step Edelayed as d2 E2.
      injection Edelayed as <-.
      apply umod_inv in Ei2 as [_ ->]. exists d2. auto.
Qed.

End Values.

(** ** Silence *)

Section Silence.
Import Exact.

Lemma silent_spec (e : sox_effect Q) :
  silent e = true
  ↔ Forall (Forall (Qeq 0)) (delay_bufs (priv e))
    ∧ Forall (Qeq 0) (delay_last (priv e)).
Proof.
  unfold silent. rewrite andb_true_iff, !forallb_forall, !Forall_forall.
  split; intros [Hb Hl]; split.
  - intros b Hin. apply Forall_forall. intros q Hq.
    apply Qeq_bool_iff. apply list_elem_of_In in Hin, Hq.
    specialize (Hb b Hin). rewrite forallb_forall in Hb. auto.
  - intros q Hq. apply Qeq_bool_iff, Hl, list_elem_of_In, Hq.
  - intros b Hin. apply forallb_forall. intros q Hq.
    apply Qeq_bool_iff. apply list_elem_of_In in Hin, Hq.
    specialize (Hb b Hin). rewrite Forall_forall in Hb. auto.
  - intros q Hq. apply Qeq_bool_iff, Hl, list_elem_of_In, Hq.
Qed.

Lemma index_Forall {A} (P : A → Prop) (l : list A) (i : Z) (x : A) :
  Forall P l → index l i = Done x → P x.
Proof.
  intros Hl Hi. apply index_inv in Hi as [_ Hi].
  eapply Forall_lookup_1; eassumption.
Qed.

Lemma flow_channel_silent (c : Z) (s s' : flow_state Q) :
  flow_channel c s = Done s' →
  silent (fs_effp s) = true → Forall (eq 0%Z) (fs_ibuf s) →
  silent (fs_effp s') = true
  ∧ Forall (eq 0%Z) (fs_ibuf s')
  ∧ fs_obuf s' = fs_obuf s ++ [0%Z]
  ∧ clips (fs_effp s') = clips (fs_effp s).
Proof.
  intros H Hs Hin. apply silent_spec in Hs as [Hbufs Hlasts].
  apply flow_channel_values in H.
  destruct H as (x & ibuf & i & v & k & last & old & d0 & d1 & delayed & o & n
                 & Ex & _ & _ & _ & Elast & Eold & Hpos & [E0 E1] & Ed
                 & Erc & ->).
  rewrite Ex in Hin. apply Forall_cons in Hin as [<- Hin].
  pose proof (index_Forall _ _ _ _ Hlasts Elast) as Hlast.
  pose proof (index_Forall _ _ _ _ Hbufs Eold) as Hold.
  set (f := priv (fs_effp s)) in *.
  set (new := <[Z.to_nat (delay_buf_pos f) :=
                  d_add (d_of_Z 0%Z) (d_mul last (feedback_gain f))]> old)
    in *.
  assert (Hnew : Forall (Qeq 0) new).
  { apply Forall_insert; [exact Hold |].
    exact_arith. rewrite <- Hlast. ring. }
  pose proof (index_Forall _ _ _ _ Hnew E0) as H0.
  pose proof (index_Forall _ _ _ _ Hnew E1) as H1.
  assert (Hd : 0 == delayed).
  { destruct (interpolation f).
    - subst delayed. exact_arith. rewrite <- H0, <- H1. ring.
    - destruct Ed as (d2 & E2 & ->).
      pose proof (index_Forall _ _ _ _ Hnew E2) as H2.
      exact_arith. rewrite <- H0, <- H1, <- H2. ring. }
  rewrite (round_clip_sample _ 0%Z) in Erc.
  - injection Erc as <- <-. fields.
    repeat split; auto.
    apply silent_spec. fields. split.
    + apply Forall_insert; assumption.
    + apply Forall_insert; assumption.
  - exact_arith. rewrite <- Hd. ring.
  - by vm_compute.
Qed.

Lemma flow_channels_silent (n : nat) (c : Z) (s s' : flow_state Q) :
  flow_channels n c s = Done s' →
  silent (fs_effp s) = true → Forall (eq 0%Z) (fs_ibuf s) →
  silent (fs_effp s') = true
  ∧ Forall (eq 0%Z) (fs_ibuf s')
  ∧ fs_obuf s' = fs_obuf s ++ replicate n 0%Z
  ∧ clips (fs_effp s') = clips (fs_effp s).
Proof.
  revert c s. induction n as [| n IH]; intros c s H Hs Hin; simpl in H.
  - injection H as <-. rewrite app_nil_r. auto.
  - step H as s1 E.
    apply flow_channel_silent in E as (Hs1 & Hin1 & Ho1 & Hc1); auto.
    apply IH in H as (Hs2 & Hin2 & Ho2 & Hc2); auto.
    rewrite Ho2, Ho1, Hc2, Hc1, <- app_assoc. auto.
Qed.

Lemma flow_frame_silent (s s' : flow_state Q) :
  flow_frame s = Done s' →
  silent (fs_effp s) = true → Forall (eq 0%Z) (fs_ibuf s) →
  silent (fs_effp s') = true
  ∧ Forall (eq 0%Z) (fs_ibuf s')
  ∧ (∃ n, fs_obuf s' = fs_obuf s ++ replicate n 0%Z)
  ∧ clips (fs_effp s') = clips (fs_effp s).
Proof.
  unfold flow_frame. intros H Hs Hin.
  step H as pos Epos. step H as s1 Es1. step H as lpos Elpos.
  injection H as <-.
  apply flow_channels_silent in Es1 as (Hs1 & Hin1 & Ho1 & Hc1); auto.
  fields. eauto.
Qed.

Lemma flow_frames_silent (len : nat) (s s' : flow_state Q) :
  flow_frames len s = Done s' →
  silent (fs_effp s) = true → Forall (eq 0%Z) (fs_ibuf s) →
  silent (fs_effp s') = true
  ∧ (∃ n, fs_obuf s' = fs_obuf s ++ replicate n 0%Z)
  ∧ clips (fs_effp s') = clips (fs_effp s).
Proof.
  revert s. induction len as [| len IH]; intros s H Hs Hin; simpl in H.
  - injection H as <-. split; [exact Hs |]. split; [| reflexivity].
    exists 0%nat. rewrite app_nil_r. reflexivity.
  - step H as s1 E.
    apply flow_frame_silent in E as (Hs1 & Hin1 & [n1 Ho1] & Hc1); auto.
    apply IH in H as (Hs2 & [n2 Ho2] & Hc2); auto.
    split; [exact Hs2 |]. split; [| congruence].
    exists (n1 + n2)%nat.
    rewrite Ho2, Ho1, <- app_assoc, replicate_add. reflexivity.
Qed.

(** X12: silence in, silence out: while the delay buffers hold nothing but
    zeros, as start leaves them, a block of zeros gives zeros, whatever the
    gains, the table and the interpolation; no clip is counted and the buffers
    still hold nothing but zeros. *)
Theorem silence_stays_silence (e : sox_effect Q) (ibuf : list Z)
    (isamp osamp : Z) :
  flanger_ready e = true → call_ready ibuf isamp osamp = true →
  silent e = true → Forall (eq 0%Z) ibuf →
  ∃ r, sox_flanger_flow e ibuf isamp osamp = Done r
       ∧ fr_obuf r = replicate (Z.to_nat (fr_osamp r)) 0%Z
       ∧ clips (fr_effp r) = clips e
       ∧ silent (fr_effp r) = true.
Proof.
  intros Hready Hcall Hs Hin.
  destruct (sox_flanger_flow_ready e ibuf isamp osamp Hready Hcall)
    as (r & E & _ & _ & Eo & Elen & _).
  exists r. split; [exact E |].
  apply sox_flanger_flow_inv in E as (_ & _ & _ & _ & H).
  apply flow_frames_silent in H as (Hs' & [n Ho] & Hc); auto.
  simpl in *. repeat split; auto.
  rewrite Eo, <- Elen, Nat2Z.id, Ho, length_replicate. reflexivity.
Qed.

(** Five stereo frames of silence through the sweep. *)
Lemma sweep_of_silence :
  ∃ r, sox_flanger_flow (sweep_example (D := Q) INTERP_QUADRATIC)
         (replicate 10 0%Z) 10 10 = Done r
       ∧ fr_obuf r = replicate (Z.to_nat (fr_osamp r)) 0%Z
       ∧ clips (fr_effp r) = 0%Z
       ∧ silent (fr_effp r) = true.
Proof.
  apply (silence_stays_silence (sweep_example INTERP_QUADRATIC)
           (replicate 10 0%Z) 10 10);
    [reflexivity | reflexivity | reflexivity |].
  repeat constructor.
Defined.

End Silence.

(** ** A fixed delay: the comb filter *)

Section Comb.
Import Exact.

Lemma trunc_compat (x y : Q) : x == y → trunc x = trunc y.
Proof.
  unfold Qeq, trunc. intros H.
  rewrite <- (Z.quot_mul_cancel_r (Qnum x) (Z.pos (Qden x)) (Z.pos (Qden y)))
    by lia.
  rewrite H, (Z.mul_comm (Z.pos (Qden x))).
  apply Z.quot_mul_cancel_r; lia.
Qed.

Lemma round_clip_compat (x y : Q) (n : Z) :
  x == y → SOX_ROUND_CLIP_COUNT x n = SOX_ROUND_CLIP_COUNT y n.
Proof.
  intros H. unfold SOX_ROUND_CLIP_COUNT, to_sox_ssample.
  cbn [d_ltb d_leb d_trunc d_add d_sub exact_ops]. unfold ltb.
  assert (Hle : ∀ a b a' b', a == a' → b == b' →
                 Qle_bool a b = Qle_bool a' b').
  { intros a b a' b' Ha Hb. apply eq_true_iff_eq.
    rewrite !Qle_bool_iff, Ha, Hb. reflexivity. }
  rewrite (Hle _ x _ y (Qeq_refl _) H).
  rewrite (Hle x _ y _ H (Qeq_refl _)).
  rewrite (Hle _ x _ y (Qeq_refl _) H).
  rewrite (trunc_compat (x - half) (y - half)) by (rewrite H; reflexivity).
  rewrite (trunc_compat (x + half) (y + half)) by (rewrite H; reflexivity).
  reflexivity.
Qed.

Lemma round_clip_value (q : Q) (n o n' : Z) :
  SOX_ROUND_CLIP_COUNT q n = Done (o, n') → o = round_clip q.
Proof.
  unfold round_clip, SOX_ROUND_CLIP_COUNT.
  destruct (d_ltb _ _); destruct (d_leb _ _);
    try (intros [= <- _]; reflexivity);
    (destruct (to_sox_ssample _) as [z |]; [| discriminate]);
    rewrite !done_fmap; intros [= <- _]; reflexivity.
Qed.

Lemma trunc_inject (z : Z) : trunc (inject_Z z) = z.
Proof. unfold trunc. simpl. apply Z.quot_1_r. Qed.

Lemma window_read (buf : list Q) (q j : Z) (h : Z → Q) (v : Q) :
  window buf q h → (0 ≤ j < Z.of_nat (length buf))%Z →
  index buf ((q + j) mod Z.of_nat (length buf)) = Done v → v == h j.
Proof.
  intros W Hj Hv. destruct (W j Hj) as (v' & Hv' & Hh).
  apply index_inv in Hv as [_ Hv]. congruence.
Qed.

Lemma window_cong (buf : list Q) (q q' : Z) (h : Z → Q) :
  (q mod Z.of_nat (length buf) = q' mod Z.of_nat (length buf))%Z →
  window buf q h → window buf q' h.
Proof.
  intros Hq W j Hj. destruct (W j Hj) as (v & Hv & Hh).
  exists v. split; [| exact Hh].
  rewrite <- Zplus_mod_idemp_l, <- Hq, Zplus_mod_idemp_l. exact Hv.
Qed.

Lemma window_push (old : list Q) (p : Z) (x : Q) (h h' : Z → Q) :
  (0 ≤ p < Z.of_nat (length old))%Z →
  window old (p + 1) h → x == h' 0%Z →
  (∀ j, (0 < j)%Z → h' j = h (j - 1)%Z) →
  window (<[Z.to_nat p := x]> old) p h'.
Proof.
  intros Hp W Hx Hh j. unfold window in *. rewrite length_insert.
  set (len := Z.of_nat (length old)) in *. intros Hj.
  destruct (decide (j = 0%Z)) as [-> | Hj0].
  - exists x. split; [| exact Hx].
    rewrite Z.add_0_r, Z.mod_small by lia.
    apply list_lookup_insert_eq. lia.
  - destruct (W (j - 1)%Z ltac:(lia)) as (v & Hv & Hhv).
    replace (p + 1 + (j - 1))%Z with (p + j)%Z in Hv by lia.
    exists v. split; [| rewrite Hh by lia; exact Hhv].
    rewrite list_lookup_insert_ne; [exact Hv |].
    assert (Hne : ((p + j) mod len ≠ p)%Z).
    { destruct (decide (p + j < len)%Z) as [Hlt | Hge].
      - rewrite Z.mod_small by lia. lia.
      - replace (p + j)%Z with (p + j - len + 1 * len)%Z by lia.
        rewrite Z.mod_add, Z.mod_small by lia. lia. }
    pose proof (Z.mod_pos_bound (p + j) len ltac:(lia)). lia.
Qed.

Lemma drop_head {A} (l rest : list A) (n : nat) (x : A) :
  drop n l = x :: rest → l !! n = Some x ∧ rest = drop (S n) l.
Proof.
  revert l. induction n as [| n IH]; intros [| y l] H; try discriminate.
  - injection H as -> ->. auto.
  - apply IH in H. exact H.
Qed.

End Comb.

Section CombSteps.
Import Exact.
Variables (e0 : sox_effect Q) (d : Z) (ibuf0 : list Z).
Hypothesis Hlayout : layout_ready e0 = true.
Hypothesis Hshort : (delay_buf_length (priv e0) ≤ 2 ^ 31)%Z.
Hypothesis Hfixed : fixed_delay e0 d = true.
Hypothesis Hfeedback : (feedback_gain (priv e0) == 0)%Q.

Lemma fixed_delay_entry (v : Q) : v ∈ lfo (priv e0) → v == inject_Z d.
Proof.
  intros Hv. unfold fixed_delay in Hfixed. rewrite forallb_forall in Hfixed.
  apply Qeq_bool_iff, Hfixed, list_elem_of_In, Hv.
Qed.

Lemma fixed_delay_fits (v : Q) :
  v ∈ lfo (priv e0) → (0 ≤ d ≤ delay_buf_length (priv e0) - 2)%Z.
Proof.
  intros Hv. pose proof (fixed_delay_entry v Hv) as E.
  destruct (layout_ready_spec e0 Hlayout)
    as (_ & _ & _ & _ & _ & _ & _ & Hfit & _).
  apply Hfit in Hv. rewrite E in Hv.
  change 0%Q with (inject_Z 0) in Hv. rewrite <- !Zle_Qle in Hv. exact Hv.
Qed.

Lemma comb_channel (t c : Z) (s s' : flow_state Q) :
  flow_channel c s = Done s' →
  (0 ≤ t)%Z → (0 ≤ c < ininfo_channels e0)%Z →
  comb_invariant e0 d ibuf0 t c s →
  comb_invariant e0 d ibuf0 t (c + 1) s'.
Proof.
  intros H Ht Hc (U & Hi & Ho & Hp & Hb).
  pose proof (flow_channel_transfers c s s' H) as ([U1 _] & P1 & _).
  apply flow_channel_values in H.
  destruct H as (x & ibuf & i & v & k & last & old & d0 & d1 & delayed & o & n
                 & Ex & _ & Ev & Ek & _ & Eold & Hpos & [E0 E1] & Ed
                 & Erc & Es').
  pose proof U as (_ & Hch & Hcfg & Hlfo & _).
  destruct Hcfg as (_ & _ & Hfb & Hdg & Hig & _ & _ & _ & _ & Hlen & _).
  set (f := priv (fs_effp s)) in *.
  set (channels := ininfo_channels e0) in *.
  assert (Hdone : (0 ≤ t * channels + c)%Z) by nia.
  set (done := Z.to_nat (t * channels + c)) in *.
  (* the table entry *)
  apply index_inv in Ev as [_ Ev]. apply list_elem_of_lookup_2 in Ev.
  rewrite <- Hlfo in Ev.
  pose proof (fixed_delay_entry v Ev) as Hv.
  pose proof (fixed_delay_fits v Ev) as Hd.
  assert (Htr : trunc v = d)
    by (rewrite (trunc_compat v (inject_Z d) Hv); apply trunc_inject).
  cbn [d_modf exact_ops fst snd] in Ek, Ed. rewrite Htr in Ek, Ed.
  unfold to_size_t, to_unsigned in Ek. cbn [d_trunc exact_ops] in Ek.
  rewrite trunc_inject in Ek.
  destruct (decide _) as [_ | Hout] in Ek; [| discriminate].
  injection Ek as <-.
  assert (Hfrac : (v - inject_Z d == 0)%Q) by (rewrite Hv; ring).
  (* the buffer of the channel *)
  destruct (Hb c Hc) as (buf & Ebuf & Lbuf & W).
  destruct (decide (c < c)%Z) as [? | _] in W; [lia |].
  apply index_inv in Eold as [_ Eold].
  assert (buf = old) as -> by congruence.
  (* the sample read *)
  rewrite Hi in Ex. apply drop_head in Ex as [Ex ->].
  assert (Hx : sample_at ibuf0 (t * channels + c) = inject_Z x).
  { unfold sample_at. destruct (decide _) as [_ | ?]; [| lia].
    fold done. rewrite Ex. reflexivity. }
  (* the buffer written *)
  set (new := <[Z.to_nat (delay_buf_pos f) :=
                  d_add (d_of_Z x) (d_mul last (feedback_gain f))]> old) in *.
  assert (Wnew : window new (delay_buf_pos f) (history ibuf0 channels t c)).
  { apply (window_push old _ _ (history ibuf0 channels (t - 1) c));
      [lia | exact W | |].
    - unfold history. rewrite Z.sub_0_r, Hx. exact_arith.
      rewrite <- Hfb, Hfeedback. ring.
    - intros j Hj. unfold history. f_equal. lia. }
  assert (Lnew : Z.of_nat (length new) = delay_buf_length f)
    by (unfold new; rewrite length_insert; exact Lbuf).
  (* the delayed sample *)
  assert (Hw : ∀ j, (0 ≤ j ≤ d + 2)%Z →
                wrap32 (delay_buf_pos f + j) = (delay_buf_pos f + j)%Z).
  { intros j Hj. apply Z.mod_small. lia. }
  assert (Hw' : ∀ j, (0 ≤ j ≤ d + 2)%Z → wrap32 j = j).
  { intros j Hj. apply Z.mod_small. lia. }
  rewrite (Hw' d), (Hw d) in E0 by lia.
  rewrite <- Lnew in E0.
  apply (window_read _ _ _ _ _ Wnew) in E0; [| lia].
  assert (Hdelayed : delayed == sample_at ibuf0 ((t - d) * channels + c)).
  { fold (history ibuf0 channels t c d). rewrite <- E0.
    destruct (interpolation f).
    - subst delayed. exact_arith. rewrite Hfrac. ring.
    - destruct Ed as (d2 & _ & ->). exact_arith. rewrite Hfrac. ring. }
  (* the sample written *)
  apply round_clip_value in Erc.
  assert (Hout : o = comb e0 d ibuf0 done).
  { rewrite Erc. unfold comb, round_clip. fold channels.
    unfold done at 1 2. rewrite Z2Nat.id by lia.
    replace (t * channels + c - d * channels)%Z
      with ((t - d) * channels + c)%Z by lia.
    rewrite Hx.
    erewrite round_clip_compat; [reflexivity |].
    exact_arith. rewrite Hdelayed, Hig, Hdg. reflexivity. }
  (* the invariant *)
  subst s'. unfold comb_invariant. cbn [fs_effp fs_ibuf fs_obuf].
  fold channels.
  replace (Z.to_nat (t * channels + (c + 1))) with (S done)
    by (unfold done; lia).
  split; [eapply untouched_trans; eassumption |].
  split; [reflexivity |].
  split; [rewrite Ho, seq_S, fmap_app, Hout; reflexivity |].
  fields. split; [lia |].
  intros c' Hc'. destruct (decide (c' = c)) as [-> | Hne].
  - exists new. rewrite list_lookup_insert_eq
      by (apply lookup_lt_Some in Ebuf; exact Ebuf).
    split; [reflexivity |]. split; [exact Lnew |].
    destruct (decide _) as [_ | ?]; [exact Wnew | lia].
  - destruct (Hb c' Hc') as (b & Eb & Lb & Wb).
    exists b. rewrite list_lookup_insert_ne by lia.
    split; [exact Eb |]. split; [exact Lb |].
    destruct (decide (c' < c)%Z); destruct (decide (c' < c + 1)%Z);
      try lia; exact Wb.
Qed.

Lemma comb_channels (n : nat) (t c : Z) (s s' : flow_state Q) :
  flow_channels n c s = Done s' →
  (0 ≤ t)%Z → (0 ≤ c)%Z → (c + Z.of_nat n ≤ ininfo_channels e0)%Z →
  comb_invariant e0 d ibuf0 t c s →
  comb_invariant e0 d ibuf0 t (c + Z.of_nat n) s'.
Proof.
  revert c s. induction n as [| n IH]; intros c s H Ht Hc Hn Inv; simpl in H.
  - injection H as <-. rewrite Z.add_0_r. exact Inv.
  - step H as s1 E. apply (comb_channel t c s s1 E Ht) in Inv; [| lia].
    apply (IH _ _ H Ht) in Inv; [| lia | lia].
    replace (c + Z.of_nat (S n))%Z with (c + 1 + Z.of_nat n)%Z by lia.
    exact Inv.
Qed.

Lemma comb_frame (t : Z) (s s' : flow_state Q) :
  flow_frame s = Done s' → (-1 ≤ t)%Z →
  comb_invariant e0 d ibuf0 t (ininfo_channels e0) s →
  comb_invariant e0 d ibuf0 (t + 1) (ininfo_channels e0) s'.
Proof.
  unfold flow_frame. intros H Ht (U & Hi & Ho & Hp & Hb).
  step H as pos Epos. step H as s1 Es1. step H as lpos Elpos.
  injection H as <-.
  apply umod_inv in Epos as [HL Epos].
  destruct (layout_ready_spec e0 Hlayout) as (Hch & _).
  pose proof U as (Hrate & Hch' & Hcfg & Hlfo & Hlens & Hlast).
  pose proof Hcfg as (? & ? & ? & ? & ? & ? & ? & ? & ? & Hlen & ?).
  set (f := priv (fs_effp s)) in *.
  set (channels := ininfo_channels e0) in *.
  rewrite <- Hch' in Es1.
  unfold wrap32 in Epos.
  rewrite (Z.mod_small (delay_buf_pos f + delay_buf_length f - 1)) in Epos
    by lia.
  apply (comb_channels _ (t + 1) 0) in Es1; [| lia | lia | fold channels; lia |].
  - rewrite Z.add_0_l, Z2Nat.id in Es1 by lia.
    destruct Es1 as (U1 & Hi1 & Ho1 & Hp1 & Hb1).
    unfold comb_invariant. cbn [fs_effp fs_ibuf fs_obuf]. fields.
    split; [| auto].
    unfold untouched, same_configuration in *. fields. tauto.
  - unfold comb_invariant. cbn [fs_effp fs_ibuf fs_obuf]. fold channels.
    replace (Z.to_nat ((t + 1) * channels + 0))
      with (Z.to_nat (t * channels + channels)) by (f_equal; lia).
    fields. fold f.
    split; [unfold untouched, same_configuration in *; fields; tauto |].
    split; [exact Hi |]. split; [exact Ho |].
    split; [subst pos; apply Z.mod_pos_bound; lia |].
    intros c' Hc'. destruct (Hb c' Hc') as (b & Eb & Lb & Wb).
    exists b. split; [exact Eb |]. split; [exact Lb |].
    destruct (decide (c' < channels)%Z) as [_ | ?] in Wb; [| lia].
    destruct (decide (c' < 0)%Z) as [? | _]; [lia |].
    replace (t + 1 - 1)%Z with t by lia.
    apply (window_cong b (delay_buf_pos f)); [| exact Wb].
    rewrite Lb, Epos, Zplus_mod_idemp_l.
    replace (delay_buf_pos f + delay_buf_length f - 1 + 1)%Z
      with (delay_buf_pos f + 1 * delay_buf_length f)%Z by lia.
    rewrite Z.mod_add by lia. reflexivity.
Qed.

Lemma comb_frames (len : nat) (t : Z) (s s' : flow_state Q) :
  flow_frames len s = Done s' → (-1 ≤ t)%Z →
  comb_invariant e0 d ibuf0 t (ininfo_channels e0) s →
  comb_invariant e0 d ibuf0 (t + Z.of_nat len) (ininfo_channels e0) s'.
Proof.
  revert t s. induction len as [| len IH]; intros t s H Ht Inv; simpl in H.
  - injection H as <-. rewrite Z.add_0_r. exact Inv.
  - step H as s1 E. apply (comb_frame t s s1 E Ht) in Inv.
    apply (IH _ _ H) in Inv; [| lia].
    replace (t + Z.of_nat (S len))%Z with (t + 1 + Z.of_nat len)%Z by lia.
    exact Inv.
Qed.

End CombSteps.

Section CombFilter.
Import Exact.

Lemma silent_window (buf : list Q) (q : Z) (h : Z → Q) :
  Forall (Qeq 0) buf → (∀ j, (0 ≤ j)%Z → h j = inject_Z 0) → window buf q h.
Proof.
  intros Hz Hh j Hj.
  destruct (lookup_lt_is_Some_2 buf
              (Z.to_nat ((q + j) mod Z.of_nat (length buf)))) as [v Hv].
  { pose proof (Z.mod_pos_bound (q + j) (Z.of_nat (length buf))). lia. }
  exists v. split; [exact Hv |].
  rewrite Hh by lia. symmetry.
  eapply Forall_lookup_1; eassumption.
Qed.

(** In exact arithmetic a flanger that does not sweep is a comb filter.
    When every entry of the table is the same whole delay of [d] frames and
    there is no feedback, the first call after start mixes every sample,
    with the input gain, with the sample of its own channel [d] frames
    before it, with the delay gain, and with silence where the stream had
    not begun; whichever the interpolation.  With doubles the two products
    and their sum are rounded before the sample is, and the sample may
    differ by one where the exact mix is next to a tie. *)
Lemma exact_fixed_delay_comb (e : sox_effect Q) (d : Z)
    (ibuf : list Z) (isamp osamp : Z) :
  flanger_ready e = true → call_ready ibuf isamp osamp = true →
  delay_buf_length (priv e) ≤ 2 ^ 31 →
  fixed_delay e d = true → (feedback_gain (priv e) == 0)%Q →
  silent e = true →
  ∃ r, sox_flanger_flow e ibuf isamp osamp = Done r
       ∧ fr_obuf r = comb e d ibuf <$> seq 0 (Z.to_nat (fr_osamp r)).
Proof.
  intros Hready Hcall Hshort Hfixed Hfb Hsilent.
  destruct (sox_flanger_flow_ready e ibuf isamp osamp Hready Hcall)
    as (r & E & _ & _ & Eo & _).
  exists r. split; [exact E |].
  destruct (flanger_ready_spec e Hready) as (Hlay & Hpos & _).
  destruct (layout_ready_spec e Hlay) as (Hch & _ & _ & Hbufs & _).
  apply silent_spec in Hsilent as [Hzeros _].
  apply sox_flanger_flow_inv in E as (_ & _ & _ & _ & Hframes).
  assert (Hw : wrap32 (ininfo_channels e) = ininfo_channels e)
    by (apply Z.mod_small; lia).
  assert (Hm : (if decide (isamp > osamp) then osamp else isamp)
               = Z.min isamp osamp) by (destruct (decide _); lia).
  rewrite Hw, Hm in Hframes.
  set (frames := Z.min isamp osamp / ininfo_channels e) in *.
  assert (Hframes0 : 0 ≤ frames).
  { unfold call_ready in Hcall.
    rewrite !andb_true_iff, !bool_decide_eq_true in Hcall.
    apply Z.div_pos; lia. }
  apply (comb_frames e d ibuf Hlay Hshort Hfixed Hfb _ (-1)) in Hframes;
    [| lia |].
  - destruct Hframes as (_ & _ & Ho & _). cbn [fs_obuf] in Ho.
    rewrite Ho, Eo, Z2Nat.id by lia. do 2 f_equal. lia.
  - unfold comb_invariant. cbn [fs_effp fs_ibuf fs_obuf].
    replace (Z.to_nat (-1 * ininfo_channels e + ininfo_channels e))
      with 0%nat by lia.
    split; [apply untouched_refl |].
    split; [reflexivity |]. split; [reflexivity |]. split; [exact Hpos |].
    intros c Hc. destruct (Hbufs c Hc) as (b & Eb & Lb).
    exists b. split; [exact Eb |]. split; [exact Lb |].
    destruct (decide (c < _)%Z) as [_ | ?]; [| lia].
    apply silent_window.
    + eapply Forall_lookup_1; eassumption.
    + intros j Hj. unfold history, sample_at.
      destruct (decide (0 ≤ _)%Z) as [? | _]; [nia | reflexivity].
Qed.

(** A delay of 2 ms at 1000 Hz, no depth and no feedback, two channels: each
    sample is mixed with the one four places before it. *)
Example comb_of_eight_samples :
  let e := started flat_wave
             (example_effect 2 0 0 100 10 25 1000 2)%Q in
  comb e 2 [100; 200; 300; 400; 500; 600; 700; 800] <$> seq 0 8
  = [50; 100; 150; 200; 300; 400; 500; 600].
Proof. vm_compute. reflexivity. Qed.

End CombFilter.

(** ** A fixed delay at full width *)

Section FullWidth.
Import Exact.

(** X13: a flanger that does not sweep, at full width and without feedback,
    is the mean of the signal and its delayed copy.  When every entry of the
    table is the same whole delay of [d] frames, the feedback gain is zero
    and both the input gain and the delay gain are one half, as start
    leaves them at a width of 100% and a regeneration of 0%, the first call
    after start writes for every sample the mean of that sample and the
    sample of its own channel [d] frames before it, with silence where the
    stream had not begun; whichever the interpolation.  Halving a 32-bit
    sample and adding two halves are exact on doubles, so that rounding
    does not enter. *)
Theorem full_width_fixed_delay_is_a_mean (e : sox_effect Q) (d : Z)
    (ibuf : list Z) (isamp osamp : Z) :
  flanger_ready e = true → call_ready ibuf isamp osamp = true →
  samples ibuf = true →
  delay_buf_length (priv e) ≤ 2 ^ 31 →
  fixed_delay e d = true → (feedback_gain (priv e) == 0)%Q →
  (in_gain (priv e) == 1 # 2)%Q → (delay_gain (priv e) == 1 # 2)%Q →
  silent e = true →
  ∃ r, sox_flanger_flow e ibuf isamp osamp = Done r
       ∧ fr_obuf r
         = mean_with_past (ininfo_channels e) d ibuf
           <$> seq 0 (Z.to_nat (fr_osamp r)).
Proof.
  intros Hready Hcall _ Hshort Hfixed Hfb Hin Hdelay Hsilent.
  destruct (exact_fixed_delay_comb e d ibuf isamp osamp Hready Hcall
              Hshort Hfixed Hfb Hsilent) as (r & E & Ho).
  exists r. split; [exact E |]. rewrite Ho.
  apply list_fmap_ext. intros _ i _.
  unfold comb, mean_with_past, round_clip.
  erewrite round_clip_compat; [reflexivity |].
  rewrite Hin, Hdelay. field.
Qed.

(** A delay of 2 ms at 1000 Hz, no depth, no feedback and a width of 100%,
    two channels: each sample is averaged with the one four places before
    it. *)
Lemma two_frames_behind :
  ∃ r, sox_flanger_flow
         (started flat_wave (example_effect 2 0 0 100 10 25 1000 2)%Q)
         [100; 200; 300; 400; 500; 600; 700; 801] 8 8
       = Done r
       ∧ fr_obuf r
         = mean_with_past 2 2 [100; 200; 300; 400; 500; 600; 700; 801]
           <$> seq 0 (Z.to_nat (fr_osamp r)).
Proof.
  destruct (full_width_fixed_delay_is_a_mean
              (started flat_wave (example_effect 2 0 0 100 10 25 1000 2)%Q) 2
              [100; 200; 300; 400; 500; 600; 700; 801] 8 8)
    as (r & E & Ho); [by vm_compute .. |].
  assert (Hc : ininfo_channels
                 (started flat_wave
                    (example_effect 2 0 0 100 10 25 1000 2)%Q) = 2)
    by (vm_compute; reflexivity).
  rewrite Hc in Ho. exists r. split; [exact E | exact Ho].
Defined.

(** The same call with binary64 doubles and in exact arithmetic, against
    the mean: 801 and 400 give 600.5, a tie, which goes away from zero. *)
Example mean_of_eight_samples :
  fr_obuf
  <$> sox_flanger_flow
        (started flat_wave
           (example_effect (D := float) (d_of_Z 2) (d_of_Z 0) (d_of_Z 0)
              (d_of_Z 100) (d_of_Z 10) (d_of_Z 25) 1000 2))
        [100; 200; 300; 400; 500; 600; 700; 801] 8 8
  = Done [50; 100; 150; 200; 300; 400; 500; 601]
  ∧ mean_with_past 2 2 [100; 200; 300; 400; 500; 600; 700; 801] <$> seq 0 8
    = [50; 100; 150; 200; 300; 400; 500; 601].
Proof. split; vm_compute; reflexivity. Qed.

End FullWidth.
